(** * box2docx: the content-tree-to-document transpiler, embedded in Rocq

    A shallow embedding of [box2docx.py].  Python integers are [Z], Python
    strings are [string] (a non-ASCII character is held as its UTF-8 bytes;
    every slice taken below is taken of ASCII input), dictionaries are
    [gmap]s, the module's global variables are the fields of one [state]
    record threaded through the handlers, and a raised exception is the
    [Err] outcome of a small error monad. *)

From Stdlib Require Import ZArith Lia List String Ascii Bool.
From stdpp Require Import base option list gmap strings pretty.

Local Open Scope Z_scope.
#[local] Set Warnings "-register-all".

(** ** Exceptions and outcomes *)

(** The Python exceptions the modelled code can raise, with the detail
    Python prints for them. *)
Inductive exn : Type :=
  | IndexError (detail : string)
  | KeyError (key : string)
  | ValueError (detail : string)
  | TypeError (detail : string)
  | AttributeError (detail : string)
  | OutOfRangeError (detail : string).

(** The name of the exception's class, as [type(e).__name__] gives it. *)
Definition exn_class (e : exn) : string :=
  match e with
  | IndexError _ => "IndexError"
  | KeyError _ => "KeyError"
  | ValueError _ => "ValueError"
  | TypeError _ => "TypeError"
  | AttributeError _ => "AttributeError"
  | OutOfRangeError _ => "OutOfRangeError"
  end.

(** What running a piece of code gives: a value, a raised exception, or
    (for the recursive walker only) a recursion budget that ran out. *)
Inductive result (A : Type) : Type :=
  | Ok (a : A)
  | Err (e : exn)
  | OutOfFuel.
Arguments Ok {A} a.
Arguments Err {A} e.
Arguments OutOfFuel {A}.

Definition bind {A B : Type} (m : result A) (f : A -> result B) : result B :=
  match m with
  | Ok a => f a
  | Err e => Err e
  | OutOfFuel => OutOfFuel
  end.

Notation "'let*' x ':=' m 'in' k" := (bind m (fun x => k))
  (at level 10, x pattern, m at level 100, k at level 200).

(** [for i in range(start, start + count): s = body(i, s)] *)
Fixpoint for_range {St : Type} (start count : nat)
    (body : nat -> St -> result St) (s : St) : result St :=
  match count with
  | O => Ok s
  | S count' =>
      let* s' := body start s in
      for_range (S start) count' body s'
  end.

(** ** Python built-ins used by the code *)

(** [str(n)] for an integer. *)
Definition str (n : Z) : string := pretty n.

(** [chr(n)] for a code point below 256. *)
Definition chr (n : Z) : string :=
  String (ascii_of_nat (Z.to_nat n)) EmptyString.

(** [s[a:b]] for [0 <= a <= b]: Python clamps the slice to the string. *)
Definition slice (a b : nat) (s : string) : string :=
  substring a (b - a) s.

(** [s[1:]] *)
Definition drop_first (s : string) : string :=
  match s with
  | EmptyString => EmptyString
  | String _ s' => s'
  end.

(** [s * n] for a string, the value of [padding] after [n] rounds of
    [padding += s]. *)
Fixpoint repeat_string (s : string) (n : nat) : string :=
  match n with
  | O => ""
  | S n' => repeat_string s n' +:+ s
  end.

(** [haystack.find(needle) > -1] *)
Fixpoint contains (needle haystack : string) : bool :=
  String.prefix needle haystack ||
  match haystack with
  | EmptyString => false
  | String _ rest => contains needle rest
  end.

(** [s.lower()] on ASCII letters. *)
Definition lower_ascii (c : ascii) : ascii :=
  let n := nat_of_ascii c in
  if ((65 <=? n) && (n <=? 90))%nat then ascii_of_nat (n + 32) else c.

Fixpoint lower (s : string) : string :=
  match s with
  | EmptyString => EmptyString
  | String c s' => String (lower_ascii c) (lower s')
  end.

(** *** [int(s, 16)]

    CPython's grammar for an ASCII literal: optional white space, an optional
    sign, an optional [0x] prefix (which one underscore may follow), hex
    digits with single underscores between them, optional white space. *)

Definition is_space (c : ascii) : bool :=
  let n := nat_of_ascii c in
  (n =? 32)%nat || ((9 <=? n) && (n <=? 13))%nat.

Fixpoint skip_spaces (s : string) : string :=
  match s with
  | String c s' => if is_space c then skip_spaces s' else s
  | EmptyString => s
  end.

Definition hex_digit (c : ascii) : option Z :=
  let n := nat_of_ascii c in
  if ((48 <=? n) && (n <=? 57))%nat then Some (Z.of_nat (n - 48))
  else if ((97 <=? n) && (n <=? 102))%nat then Some (Z.of_nat (n - 87))
  else if ((65 <=? n) && (n <=? 70))%nat then Some (Z.of_nat (n - 55))
  else None.

(** Scans digits and underscores; [prev_us] tells that the previous character
    was an underscore.  Returns the value, the number of digits and the rest,
    or [None] for a doubled or trailing underscore. *)
Fixpoint scan_hex (s : string) (acc : Z) (digits : nat) (prev_us : bool)
    : option (Z * nat * string) :=
  match s with
  | String c s' =>
      match hex_digit c with
      | Some d => scan_hex s' (16 * acc + d) (S digits) false
      | None =>
          if Ascii.eqb c "_" then
            if prev_us then None else scan_hex s' acc digits true
          else if prev_us then None else Some (acc, digits, s)
      end
  | EmptyString => if prev_us then None else Some (acc, digits, s)
  end.

Definition invalid_literal : exn :=
  ValueError "invalid literal for int() with base 16".

Definition int16 (s : string) : result Z :=
  let s1 := skip_spaces s in
  let '(negative, s2) :=
    match s1 with
    | String "+" r => (false, r)
    | String "-" r => (true, r)
    | _ => (false, s1)
    end in
  let s3 :=
    match s2 with
    | String "0" (String x r) =>
        if Ascii.eqb x "x" || Ascii.eqb x "X" then
          match r with
          | String "_" r' => r'
          | _ => r
          end
        else s2
    | _ => s2
    end in
  match s3 with
  | String "_" _ => Err invalid_literal
  | _ =>
      match scan_hex s3 0 0 false with
      | Some (v, S _, rest) =>
          match skip_spaces rest with
          | EmptyString => Ok (if negative then - v else v)
          | _ => Err invalid_literal
          end
      | _ => Err invalid_literal
      end
  end.

(** ** Ordinal formatter *)

(** [roman.toRoman] of the [roman] package the script imports (releases 3 and
    later: 0 is ["N"], the range is 0..4999). *)
Definition romanNumeralMap : list (string * Z) :=
  [("M", 1000); ("CM", 900); ("D", 500); ("CD", 400); ("C", 100); ("XC", 90);
   ("L", 50); ("XL", 40); ("X", 10); ("IX", 9); ("V", 5); ("IV", 4); ("I", 1)].

(** [while n >= integer: result += numeral; n -= integer] *)
Fixpoint roman_while (fuel : nat) (numeral : string) (integer : Z)
    (acc : string * Z) : string * Z :=
  match fuel with
  | O => acc
  | S fuel' =>
      if integer <=? acc.2
      then roman_while fuel' numeral integer (acc.1 +:+ numeral, acc.2 - integer)
      else acc
  end.

Definition toRoman (n : Z) : result string :=
  if negb ((-1 <? n) && (n <? 5000)) then
    Err (OutOfRangeError "number out of range (must be 0..4999)")
  else if n =? 0 then Ok "N"
  else
    Ok (fold_left (fun acc '(numeral, integer) =>
                     roman_while (Z.to_nat n) numeral integer acc)
                  romanNumeralMap ("", n)).1.

(** The [while n > 0] loop of the letters branch: [digits.insert(0, n % 26)],
    [n = n // 26].  [n] at least halves in every round, so [Z.to_nat n]
    rounds are enough. *)
Fixpoint base26_digits (fuel : nat) (n : Z) (digits : list Z) : list Z :=
  match fuel with
  | O => digits
  | S fuel' =>
      if 0 <? n then base26_digits fuel' (n / 26) ((n mod 26) :: digits)
      else digits
  end.

Definition get_ordered_list_char (ordered_list_level list_depth : Z)
    : result string :=
  let a := ordered_list_level mod 3 in
  if a =? 1 then Ok (str list_depth +:+ ".")
  else if a =? 2 then
    let digits := base26_digits (Z.to_nat list_depth) list_depth [] in
    let char := fold_left (fun char digit => char +:+ chr (digit + 96))
                          digits "" in
    Ok (char +:+ ".")
  else
    let* r := toRoman list_depth in
    Ok (lower r +:+ ".").

(** ** Colours *)

(** [RGBColor(r, g, b)] of python-docx: three integers in 0..255. *)
Definition RGBColor (r g b : Z) : result (Z * Z * Z) :=
  if forallb (fun v => (0 <=? v) && (v <=? 255)) [r; g; b]
  then Ok (r, g, b)
  else Err (ValueError "RGBColor() takes three integer values 0-255").

Definition get_color_from_hex (hex : string) : result (Z * Z * Z) :=
  let* r := int16 (slice 1 3 hex) in
  let* g := int16 (slice 3 5 hex) in
  let* b := int16 (slice 5 7 hex) in
  RGBColor r g b.

(** ** The content tree *)

(** A scalar JSON value, as attribute values are. *)
Inductive jval : Type :=
  | JNull
  | JBool (b : bool)
  | JInt (n : Z)
  | JStr (s : string).

(** A mark: [{ type, attrs? }]. *)
Record mark : Type := Mark {
  mark_type : option string;
  mark_attrs : option (gmap string jval);
}.

(** A content node: [{ type, attrs?, content?, text?, marks? }].  An absent
    key is [None].  [row_idx] and [col_idx] are the two keys the table
    resolver itself writes into a cell's dictionary. *)
Inductive node : Type := Node {
  node_type : option string;
  node_attrs : option (gmap string jval);
  node_content : option (list node);
  node_text : option string;
  node_marks : option (list mark);
  row_idx : option Z;
  col_idx : option Z;
}.

(** [d[key]] for a key that may be absent. *)
Definition getitem {A : Type} (key : string) (field : option A) : result A :=
  match field with
  | Some v => Ok v
  | None => Err (KeyError key)
  end.

(** The value as an integer operand ([True] is 1, [False] is 0); a string or
    [None] in arithmetic or in an order comparison with an integer raises. *)
Definition as_int (v : jval) : result Z :=
  match v with
  | JInt n => Ok n
  | JBool b => Ok (if b then 1 else 0)
  | JStr _ => Err (TypeError "str where an int is needed")
  | JNull => Err (TypeError "NoneType where an int is needed")
  end.

(** The value as a string operand of [+] or of a slice. *)
Definition as_str (v : jval) : result string :=
  match v with
  | JStr s => Ok s
  | JInt _ => Err (TypeError "int where a str is needed")
  | JBool _ => Err (TypeError "bool where a str is needed")
  | JNull => Err (TypeError "NoneType where a str is needed")
  end.

(** Truth value of [if v:]. *)
Definition truthy (v : jval) : bool :=
  match v with
  | JNull => false
  | JBool b => b
  | JInt n => negb (n =? 0)
  | JStr s => negb (String.eqb s "")
  end.

(** [str(v)] *)
Definition str_of (v : jval) : string :=
  match v with
  | JNull => "None"
  | JBool true => "True"
  | JBool false => "False"
  | JInt n => str n
  | JStr s => s
  end.

(** [node["type"] == name], false when the key is absent. *)
Definition has_type (name : string) (n : node) : bool :=
  match node_type n with
  | Some t => String.eqb t name
  | None => false
  end.

(** [for x in xs: acc = body(acc, x)] with exceptions. *)
Fixpoint for_each {A St : Type} (xs : list A) (body : St -> A -> result St)
    (s : St) : result St :=
  match xs with
  | [] => Ok s
  | x :: xs' =>
      let* s' := body s x in
      for_each xs' body s'
  end.

(** ** Table geometry resolver *)

Definition get_table_dimensions (content_obj : node) : result (Z * Z) :=
  let* row_objs := getitem "content" (node_content content_obj) in
  let num_rows := Z.of_nat (length row_objs) in
  let* first_row :=
    match row_objs with
    | r :: _ => Ok r
    | [] => Err (IndexError "list index out of range")
    end in
  let* first_cells := getitem "content" (node_content first_row) in
  let* num_cols :=
    for_each first_cells (fun num_cols row_obj =>
      if has_type "table_cell" row_obj then
        match node_attrs row_obj with
        | Some attrs =>
            match attrs !! "colspan" with
            | Some v => let* n := as_int v in Ok (num_cols + n)
            | None => Ok num_cols
            end
        | None => Ok num_cols
        end
      else Ok num_cols) 0 in
  Ok (num_rows, num_cols).

Definition get_cell_tracking_table (r c : Z) : list (list bool) :=
  replicate (Z.to_nat r) (replicate (Z.to_nat c) false).

Definition get_table_cell_objs (content_obj : node) : result (list node) :=
  let* rows := getitem "content" (node_content content_obj) in
  for_each rows (fun table_cell_objs table_content_obj =>
    if has_type "table_row" table_content_obj then
      let* cells := getitem "content" (node_content table_content_obj) in
      for_each cells (fun table_cell_objs row_content_obj =>
        if has_type "table_cell" row_content_obj
        then Ok (table_cell_objs ++ [row_content_obj])
        else Ok table_cell_objs) table_cell_objs
    else Ok table_cell_objs) [].

(** [cell_tracking[i][j]] *)
Definition tracking_get (cell_tracking : list (list bool)) (i j : nat)
    : result bool :=
  match cell_tracking !! i with
  | Some row =>
      match row !! j with
      | Some b => Ok b
      | None => Err (IndexError "list index out of range")
      end
  | None => Err (IndexError "list index out of range")
  end.

(** [cell_tracking[i][j] = True] *)
Definition tracking_set (cell_tracking : list (list bool)) (i j : nat)
    : result (list (list bool)) :=
  match cell_tracking !! i with
  | Some row =>
      if decide (j < length row)%nat
      then Ok (<[i := <[j := true]> row]> cell_tracking)
      else Err (IndexError "list assignment index out of range")
  | None => Err (IndexError "list index out of range")
  end.

(** [l.pop()]: removes and returns the last element. *)
Definition pop {A : Type} (l : list A) : result (A * list A) :=
  match rev l with
  | x :: r => Ok (x, rev r)
  | [] => Err (IndexError "pop from empty list")
  end.

(** [d[key] = value] on a dictionary kept in insertion order. *)
Fixpoint dict_set {K V : Type} `{EqDecision K} (key : K) (value : V)
    (d : list (K * V)) : list (K * V) :=
  match d with
  | [] => [(key, value)]
  | (k, v) :: d' =>
      if decide (k = key) then (k, value) :: d'
      else (k, v) :: dict_set key value d'
  end.

(** The [rowspan] and [colspan] a cell declares, 1 where it declares none.
    The code compares them with 1 and adds them to an index: a value that is
    not a number raises [TypeError] at one of these uses. *)
Definition cell_spans (table_cell_obj : node) : result (Z * Z) :=
  match node_attrs table_cell_obj with
  | Some attrs =>
      let* rowspan :=
        match attrs !! "rowspan" with
        | Some v => as_int v
        | None => Ok 1
        end in
      let* colspan :=
        match attrs !! "colspan" with
        | Some v => as_int v
        | None => Ok 1
        end in
      Ok (rowspan, colspan)
  | None => Ok (1, 1)
  end.

(** The variables of [get_table_cell_merges] that its loops update.
    [table_cell_objs] holds the cells already popped, which now carry their
    [row_idx] and [col_idx]: the dictionaries are shared with the caller's
    list, so the caller sees them. *)
Record resolver : Type := Resolver {
  cell_tracking : list (list bool);
  table_cell_objs_copy : list node;
  cell_merges : list ((nat * nat) * (Z * Z));
  table_cell_objs : list node;
}.

Definition set_idx (i_row i_col : nat) (table_cell_obj : node) : node :=
  {| node_type := node_type table_cell_obj;
     node_attrs := node_attrs table_cell_obj;
     node_content := node_content table_cell_obj;
     node_text := node_text table_cell_obj;
     node_marks := node_marks table_cell_obj;
     row_idx := Some (Z.of_nat i_row);
     col_idx := Some (Z.of_nat i_col) |}.

(** The body of the two nested [for] loops at coordinate [(i_row, i_col)]. *)
Definition visit (i_row i_col : nat) (s : resolver) : result resolver :=
  let* occupied := tracking_get (cell_tracking s) i_row i_col in
  if occupied then Ok s
  else
    let* tracking := tracking_set (cell_tracking s) i_row i_col in
    let* (table_cell_obj, rest) := pop (table_cell_objs_copy s) in
    let table_cell_obj := set_idx i_row i_col table_cell_obj in
    let* (rowspan, colspan) := cell_spans table_cell_obj in
    if (1 <? rowspan) || (1 <? colspan) then
      let merges := dict_set (i_row, i_col) (rowspan, colspan) (cell_merges s) in
      let* tracking :=
        for_range i_row (Z.to_nat rowspan) (fun i_r tracking =>
          for_range i_col (Z.to_nat colspan) (fun i_c tracking =>
            tracking_set tracking i_r i_c) tracking) tracking in
      Ok {| cell_tracking := tracking;
            table_cell_objs_copy := rest;
            cell_merges := merges;
            table_cell_objs := table_cell_objs s ++ [table_cell_obj] |}
    else
      Ok {| cell_tracking := tracking;
            table_cell_objs_copy := rest;
            cell_merges := cell_merges s;
            table_cell_objs := table_cell_objs s ++ [table_cell_obj] |}.

(** Returns the merges and, beside them, what the call leaves in the objects
    it mutates: the tracking table and the caller's list of cells (the
    popped ones with their indexes, then the ones never popped). *)
Definition get_table_cell_merges (cell_tracking0 : list (list bool))
    (table_cell_objs0 : list node)
    : result (list ((nat * nat) * (Z * Z)) * list (list bool) * list node) :=
  let* s :=
    for_range 0 (length cell_tracking0) (fun i_row s =>
      let* row := match cell_tracking s !! i_row with
                  | Some row => Ok row
                  | None => Err (IndexError "list index out of range")
                  end in
      for_range 0 (length row) (fun i_col s => visit i_row i_col s) s)
      {| cell_tracking := cell_tracking0;
         table_cell_objs_copy := rev table_cell_objs0;
         cell_merges := [];
         table_cell_objs := [] |} in
  Ok (cell_merges s, cell_tracking s,
      table_cell_objs s ++ rev (table_cell_objs_copy s)).

(** The structural pre-pass of [parse_table_type]. *)
Record geometry : Type := Geometry {
  geo_rows : Z;
  geo_cols : Z;
  geo_cells : list node;
  geo_merges : list ((nat * nat) * (Z * Z));
}.

Definition table_geometry (content_obj : node) : result geometry :=
  let* (r, c) := get_table_dimensions content_obj in
  let cell_tracking := get_cell_tracking_table r c in
  let* table_cell_objs := get_table_cell_objs content_obj in
  let* (cell_merges, _, table_cell_objs) :=
    get_table_cell_merges cell_tracking table_cell_objs in
  Ok {| geo_rows := r; geo_cols := c;
        geo_cells := table_cell_objs; geo_merges := cell_merges |}.

(** ** The document sink

    python-docx is a dependency, not part of the script: its objects are
    modelled as far as the script observes them.  Paragraphs and tables live
    in a store and are named by their index in it, so that
    [current_paragraph] and [current_table_cell] are references, as in
    Python. *)

(** [WD_ALIGN_PARAGRAPH] *)
Inductive alignment : Type := LEFT | CENTER | RIGHT | JUSTIFY.

(** [WD_COLOR_INDEX], the members the script uses. *)
Inductive color_index : Type :=
  YELLOW | BRIGHT_GREEN | PINK | GRAY_50 | TURQUOISE | RED | GRAY_25.

Record run : Type := Run {
  run_text : string;
  run_bold : bool;
  run_italic : bool;
  run_underline : bool;
  run_strike : bool;
  run_color : option (Z * Z * Z);
  run_highlight : option color_index;
  run_size : option Z;                 (* in points *)
  run_font : option string;
  run_shading : option string;
  run_picture : option (string * Z);   (* file path, width in EMU *)
}.

Definition plain_run (text : string) : run :=
  {| run_text := text; run_bold := false; run_italic := false;
     run_underline := false; run_strike := false; run_color := None;
     run_highlight := None; run_size := None; run_font := None;
     run_shading := None; run_picture := None |}.

Definition with_strike (r : run) : run :=
  {| run_text := run_text r; run_bold := run_bold r;
     run_italic := run_italic r; run_underline := run_underline r;
     run_strike := true; run_color := run_color r;
     run_highlight := run_highlight r; run_size := run_size r;
     run_font := run_font r; run_shading := run_shading r;
     run_picture := run_picture r |}.

Definition with_size (size : Z) (r : run) : run :=
  {| run_text := run_text r; run_bold := run_bold r;
     run_italic := run_italic r; run_underline := run_underline r;
     run_strike := run_strike r; run_color := run_color r;
     run_highlight := run_highlight r; run_size := Some size;
     run_font := run_font r; run_shading := run_shading r;
     run_picture := run_picture r |}.

(** What a paragraph element holds.  A run the script wraps in a
    [w:hyperlink] element is not a child of the paragraph, and
    [paragraph.runs] does not list it. *)
Inductive inline : Type :=
  | DirectRun (r : run)
  | HyperlinkRun (url : jval) (r : run).

Record paragraph : Type := Paragraph {
  para_items : list inline;
  para_alignment : option alignment;
  para_bottom_borders : nat;
}.

(** [paragraph.runs] *)
Definition runs (items : list inline) : list run :=
  omap (fun i => match i with DirectRun r => Some r | HyperlinkRun _ _ => None end)
       items.

Record cell : Type := Cell {
  cell_paragraphs : list nat;
  cell_fill : option string;
}.

(** A table: its grid of cells in row-major order, and the merged regions
    (top, left, bottom, right) in the order they were made. *)
Record table : Type := Table {
  table_rows : nat;
  table_cols : nat;
  table_style : option string;
  table_cells : list cell;
  table_merges : list (nat * nat * nat * nat);
}.

Inductive block : Type :=
  | BlockParagraph (p : nat)
  | BlockTable (t : nat).

Record docx : Type := Document {
  doc_body : list block;
  doc_paragraphs : list paragraph;
  doc_tables : list table;
}.

Definition empty_paragraph : paragraph :=
  {| para_items := []; para_alignment := None; para_bottom_borders := 0 |}.

(** ** The traversal context: the module's global variables *)

Record state : Type := State {
  document : docx;
  current_paragraph : option nat;
  use_table_cell_paragraph : bool;
  current_table_cell : option (nat * nat);
  list_type : option string;
  list_depths : gmap Z Z;
  bullet_list_level : Z;
  ordered_list_level : Z;
  check_list_level : Z;
  in_bullet_list_item : bool;
  in_ordered_list_item : bool;
  in_check_list_item : bool;
  is_check_list_item_checked : bool;
  in_callout : bool;
  callout_emoji : jval;
  callout_bg_color : option string;
  in_code_block : bool;
}.

Definition set_document (v : docx) (st : state) : state :=
  {| document := v; current_paragraph := current_paragraph st;
     use_table_cell_paragraph := use_table_cell_paragraph st;
     current_table_cell := current_table_cell st; list_type := list_type st;
     list_depths := list_depths st;
     bullet_list_level := bullet_list_level st;
     ordered_list_level := ordered_list_level st;
     check_list_level := check_list_level st;
     in_bullet_list_item := in_bullet_list_item st;
     in_ordered_list_item := in_ordered_list_item st;
     in_check_list_item := in_check_list_item st;
     is_check_list_item_checked := is_check_list_item_checked st;
     in_callout := in_callout st; callout_emoji := callout_emoji st;
     callout_bg_color := callout_bg_color st;
     in_code_block := in_code_block st |}.

Definition set_current_paragraph (v : option nat) (st : state) : state :=
  {| document := document st; current_paragraph := v;
     use_table_cell_paragraph := use_table_cell_paragraph st;
     current_table_cell := current_table_cell st; list_type := list_type st;
     list_depths := list_depths st;
     bullet_list_level := bullet_list_level st;
     ordered_list_level := ordered_list_level st;
     check_list_level := check_list_level st;
     in_bullet_list_item := in_bullet_list_item st;
     in_ordered_list_item := in_ordered_list_item st;
     in_check_list_item := in_check_list_item st;
     is_check_list_item_checked := is_check_list_item_checked st;
     in_callout := in_callout st; callout_emoji := callout_emoji st;
     callout_bg_color := callout_bg_color st;
     in_code_block := in_code_block st |}.

Definition set_use_table_cell_paragraph (v : bool) (st : state) : state :=
  {| document := document st; current_paragraph := current_paragraph st;
     use_table_cell_paragraph := v;
     current_table_cell := current_table_cell st; list_type := list_type st;
     list_depths := list_depths st;
     bullet_list_level := bullet_list_level st;
     ordered_list_level := ordered_list_level st;
     check_list_level := check_list_level st;
     in_bullet_list_item := in_bullet_list_item st;
     in_ordered_list_item := in_ordered_list_item st;
     in_check_list_item := in_check_list_item st;
     is_check_list_item_checked := is_check_list_item_checked st;
     in_callout := in_callout st; callout_emoji := callout_emoji st;
     callout_bg_color := callout_bg_color st;
     in_code_block := in_code_block st |}.

Definition set_current_table_cell (v : option (nat * nat)) (st : state) : state :=
  {| document := document st; current_paragraph := current_paragraph st;
     use_table_cell_paragraph := use_table_cell_paragraph st;
     current_table_cell := v; list_type := list_type st;
     list_depths := list_depths st;
     bullet_list_level := bullet_list_level st;
     ordered_list_level := ordered_list_level st;
     check_list_level := check_list_level st;
     in_bullet_list_item := in_bullet_list_item st;
     in_ordered_list_item := in_ordered_list_item st;
     in_check_list_item := in_check_list_item st;
     is_check_list_item_checked := is_check_list_item_checked st;
     in_callout := in_callout st; callout_emoji := callout_emoji st;
     callout_bg_color := callout_bg_color st;
     in_code_block := in_code_block st |}.

Definition set_list_type (v : option string) (st : state) : state :=
  {| document := document st; current_paragraph := current_paragraph st;
     use_table_cell_paragraph := use_table_cell_paragraph st;
     current_table_cell := current_table_cell st; list_type := v;
     list_depths := list_depths st;
     bullet_list_level := bullet_list_level st;
     ordered_list_level := ordered_list_level st;
     check_list_level := check_list_level st;
     in_bullet_list_item := in_bullet_list_item st;
     in_ordered_list_item := in_ordered_list_item st;
     in_check_list_item := in_check_list_item st;
     is_check_list_item_checked := is_check_list_item_checked st;
     in_callout := in_callout st; callout_emoji := callout_emoji st;
     callout_bg_color := callout_bg_color st;
     in_code_block := in_code_block st |}.

Definition set_list_depths (v : gmap Z Z) (st : state) : state :=
  {| document := document st; current_paragraph := current_paragraph st;
     use_table_cell_paragraph := use_table_cell_paragraph st;
     current_table_cell := current_table_cell st; list_type := list_type st;
     list_depths := v; bullet_list_level := bullet_list_level st;
     ordered_list_level := ordered_list_level st;
     check_list_level := check_list_level st;
     in_bullet_list_item := in_bullet_list_item st;
     in_ordered_list_item := in_ordered_list_item st;
     in_check_list_item := in_check_list_item st;
     is_check_list_item_checked := is_check_list_item_checked st;
     in_callout := in_callout st; callout_emoji := callout_emoji st;
     callout_bg_color := callout_bg_color st;
     in_code_block := in_code_block st |}.

Definition set_bullet_list_level (v : Z) (st : state) : state :=
  {| document := document st; current_paragraph := current_paragraph st;
     use_table_cell_paragraph := use_table_cell_paragraph st;
     current_table_cell := current_table_cell st; list_type := list_type st;
     list_depths := list_depths st; bullet_list_level := v;
     ordered_list_level := ordered_list_level st;
     check_list_level := check_list_level st;
     in_bullet_list_item := in_bullet_list_item st;
     in_ordered_list_item := in_ordered_list_item st;
     in_check_list_item := in_check_list_item st;
     is_check_list_item_checked := is_check_list_item_checked st;
     in_callout := in_callout st; callout_emoji := callout_emoji st;
     callout_bg_color := callout_bg_color st;
     in_code_block := in_code_block st |}.

Definition set_ordered_list_level (v : Z) (st : state) : state :=
  {| document := document st; current_paragraph := current_paragraph st;
     use_table_cell_paragraph := use_table_cell_paragraph st;
     current_table_cell := current_table_cell st; list_type := list_type st;
     list_depths := list_depths st;
     bullet_list_level := bullet_list_level st; ordered_list_level := v;
     check_list_level := check_list_level st;
     in_bullet_list_item := in_bullet_list_item st;
     in_ordered_list_item := in_ordered_list_item st;
     in_check_list_item := in_check_list_item st;
     is_check_list_item_checked := is_check_list_item_checked st;
     in_callout := in_callout st; callout_emoji := callout_emoji st;
     callout_bg_color := callout_bg_color st;
     in_code_block := in_code_block st |}.

Definition set_check_list_level (v : Z) (st : state) : state :=
  {| document := document st; current_paragraph := current_paragraph st;
     use_table_cell_paragraph := use_table_cell_paragraph st;
     current_table_cell := current_table_cell st; list_type := list_type st;
     list_depths := list_depths st;
     bullet_list_level := bullet_list_level st;
     ordered_list_level := ordered_list_level st; check_list_level := v;
     in_bullet_list_item := in_bullet_list_item st;
     in_ordered_list_item := in_ordered_list_item st;
     in_check_list_item := in_check_list_item st;
     is_check_list_item_checked := is_check_list_item_checked st;
     in_callout := in_callout st; callout_emoji := callout_emoji st;
     callout_bg_color := callout_bg_color st;
     in_code_block := in_code_block st |}.

Definition set_in_bullet_list_item (v : bool) (st : state) : state :=
  {| document := document st; current_paragraph := current_paragraph st;
     use_table_cell_paragraph := use_table_cell_paragraph st;
     current_table_cell := current_table_cell st; list_type := list_type st;
     list_depths := list_depths st;
     bullet_list_level := bullet_list_level st;
     ordered_list_level := ordered_list_level st;
     check_list_level := check_list_level st; in_bullet_list_item := v;
     in_ordered_list_item := in_ordered_list_item st;
     in_check_list_item := in_check_list_item st;
     is_check_list_item_checked := is_check_list_item_checked st;
     in_callout := in_callout st; callout_emoji := callout_emoji st;
     callout_bg_color := callout_bg_color st;
     in_code_block := in_code_block st |}.

Definition set_in_ordered_list_item (v : bool) (st : state) : state :=
  {| document := document st; current_paragraph := current_paragraph st;
     use_table_cell_paragraph := use_table_cell_paragraph st;
     current_table_cell := current_table_cell st; list_type := list_type st;
     list_depths := list_depths st;
     bullet_list_level := bullet_list_level st;
     ordered_list_level := ordered_list_level st;
     check_list_level := check_list_level st;
     in_bullet_list_item := in_bullet_list_item st;
     in_ordered_list_item := v; in_check_list_item := in_check_list_item st;
     is_check_list_item_checked := is_check_list_item_checked st;
     in_callout := in_callout st; callout_emoji := callout_emoji st;
     callout_bg_color := callout_bg_color st;
     in_code_block := in_code_block st |}.

Definition set_in_check_list_item (v : bool) (st : state) : state :=
  {| document := document st; current_paragraph := current_paragraph st;
     use_table_cell_paragraph := use_table_cell_paragraph st;
     current_table_cell := current_table_cell st; list_type := list_type st;
     list_depths := list_depths st;
     bullet_list_level := bullet_list_level st;
     ordered_list_level := ordered_list_level st;
     check_list_level := check_list_level st;
     in_bullet_list_item := in_bullet_list_item st;
     in_ordered_list_item := in_ordered_list_item st;
     in_check_list_item := v;
     is_check_list_item_checked := is_check_list_item_checked st;
     in_callout := in_callout st; callout_emoji := callout_emoji st;
     callout_bg_color := callout_bg_color st;
     in_code_block := in_code_block st |}.

Definition set_is_check_list_item_checked (v : bool) (st : state) : state :=
  {| document := document st; current_paragraph := current_paragraph st;
     use_table_cell_paragraph := use_table_cell_paragraph st;
     current_table_cell := current_table_cell st; list_type := list_type st;
     list_depths := list_depths st;
     bullet_list_level := bullet_list_level st;
     ordered_list_level := ordered_list_level st;
     check_list_level := check_list_level st;
     in_bullet_list_item := in_bullet_list_item st;
     in_ordered_list_item := in_ordered_list_item st;
     in_check_list_item := in_check_list_item st;
     is_check_list_item_checked := v; in_callout := in_callout st;
     callout_emoji := callout_emoji st;
     callout_bg_color := callout_bg_color st;
     in_code_block := in_code_block st |}.

Definition set_in_callout (v : bool) (st : state) : state :=
  {| document := document st; current_paragraph := current_paragraph st;
     use_table_cell_paragraph := use_table_cell_paragraph st;
     current_table_cell := current_table_cell st; list_type := list_type st;
     list_depths := list_depths st;
     bullet_list_level := bullet_list_level st;
     ordered_list_level := ordered_list_level st;
     check_list_level := check_list_level st;
     in_bullet_list_item := in_bullet_list_item st;
     in_ordered_list_item := in_ordered_list_item st;
     in_check_list_item := in_check_list_item st;
     is_check_list_item_checked := is_check_list_item_checked st;
     in_callout := v; callout_emoji := callout_emoji st;
     callout_bg_color := callout_bg_color st;
     in_code_block := in_code_block st |}.

Definition set_callout_emoji (v : jval) (st : state) : state :=
  {| document := document st; current_paragraph := current_paragraph st;
     use_table_cell_paragraph := use_table_cell_paragraph st;
     current_table_cell := current_table_cell st; list_type := list_type st;
     list_depths := list_depths st;
     bullet_list_level := bullet_list_level st;
     ordered_list_level := ordered_list_level st;
     check_list_level := check_list_level st;
     in_bullet_list_item := in_bullet_list_item st;
     in_ordered_list_item := in_ordered_list_item st;
     in_check_list_item := in_check_list_item st;
     is_check_list_item_checked := is_check_list_item_checked st;
     in_callout := in_callout st; callout_emoji := v;
     callout_bg_color := callout_bg_color st;
     in_code_block := in_code_block st |}.

Definition set_callout_bg_color (v : option string) (st : state) : state :=
  {| document := document st; current_paragraph := current_paragraph st;
     use_table_cell_paragraph := use_table_cell_paragraph st;
     current_table_cell := current_table_cell st; list_type := list_type st;
     list_depths := list_depths st;
     bullet_list_level := bullet_list_level st;
     ordered_list_level := ordered_list_level st;
     check_list_level := check_list_level st;
     in_bullet_list_item := in_bullet_list_item st;
     in_ordered_list_item := in_ordered_list_item st;
     in_check_list_item := in_check_list_item st;
     is_check_list_item_checked := is_check_list_item_checked st;
     in_callout := in_callout st; callout_emoji := callout_emoji st;
     callout_bg_color := v; in_code_block := in_code_block st |}.

Definition set_in_code_block (v : bool) (st : state) : state :=
  {| document := document st; current_paragraph := current_paragraph st;
     use_table_cell_paragraph := use_table_cell_paragraph st;
     current_table_cell := current_table_cell st; list_type := list_type st;
     list_depths := list_depths st;
     bullet_list_level := bullet_list_level st;
     ordered_list_level := ordered_list_level st;
     check_list_level := check_list_level st;
     in_bullet_list_item := in_bullet_list_item st;
     in_ordered_list_item := in_ordered_list_item st;
     in_check_list_item := in_check_list_item st;
     is_check_list_item_checked := is_check_list_item_checked st;
     in_callout := in_callout st; callout_emoji := callout_emoji st;
     callout_bg_color := callout_bg_color st; in_code_block := v |}.

(** The state-and-exception monad of the handlers. *)
Definition M (A : Type) : Type := state -> result (A * state).

Definition ret {A : Type} (a : A) : M A := fun st => Ok (a, st).

Definition raise {A : Type} (e : exn) : M A := fun _ => Err e.

Definition bindM {A B : Type} (m : M A) (k : A -> M B) : M B :=
  fun st =>
    match m st with
    | Ok (a, st') => k a st'
    | Err e => Err e
    | OutOfFuel => OutOfFuel
    end.

Definition lift {A : Type} (r : result A) : M A :=
  fun st =>
    match r with
    | Ok a => Ok (a, st)
    | Err e => Err e
    | OutOfFuel => OutOfFuel
    end.

(** Reading a global, and assigning to one. *)
Definition read {A : Type} (global : state -> A) : M A :=
  fun st => Ok (global st, st).

Definition write (assign : state -> state) : M unit :=
  fun st => Ok (tt, assign st).

Notation "'let!' x ':=' m 'in' k" := (bindM m (fun x => k))
  (at level 10, x pattern, m at level 100, k at level 200).
Notation "m ';;' k" := (bindM m (fun _ => k))
  (at level 100, k at level 200, right associativity).

Fixpoint for_eachM {A St : Type} (xs : list A) (body : St -> A -> M St)
    (s : St) : M St :=
  match xs with
  | [] => ret s
  | x :: xs' =>
      let! s' := body s x in
      for_eachM xs' body s'
  end.

(** [for _ in range(n): m] *)
Fixpoint repeatM (n : nat) (m : M unit) : M unit :=
  match n with
  | O => ret tt
  | S n' => m ;; repeatM n' m
  end.

(** [output + s]: the accumulator is a string, or [None] once a handler has
    returned without a value. *)
Definition add_str (output : option string) (s : string)
    : result (option string) :=
  match output with
  | Some o => Ok (Some (o +:+ s))
  | None =>
      Err (TypeError "unsupported operand type(s) for +: 'NoneType' and 'str'")
  end.

(** *** Sink operations *)

Definition update_paragraph (p : nat) (f : paragraph -> paragraph) (d : docx)
    : docx :=
  {| doc_body := doc_body d;
     doc_paragraphs := alter f p (doc_paragraphs d);
     doc_tables := doc_tables d |}.

Definition update_table (t : nat) (f : table -> table) (d : docx) : docx :=
  {| doc_body := doc_body d;
     doc_paragraphs := doc_paragraphs d;
     doc_tables := alter f t (doc_tables d) |}.

Definition append_item (i : inline) (p : paragraph) : paragraph :=
  {| para_items := para_items p ++ [i];
     para_alignment := para_alignment p;
     para_bottom_borders := para_bottom_borders p |}.

Definition map_items (f : list inline -> list inline) (p : paragraph)
    : paragraph :=
  {| para_items := f (para_items p);
     para_alignment := para_alignment p;
     para_bottom_borders := para_bottom_borders p |}.

(** [document.add_paragraph()] *)
Definition document_add_paragraph : M nat :=
  fun st =>
    let d := document st in
    let p := length (doc_paragraphs d) in
    Ok (p, set_document
             {| doc_body := doc_body d ++ [BlockParagraph p];
                doc_paragraphs := doc_paragraphs d ++ [empty_paragraph];
                doc_tables := doc_tables d |} st).

(** [document.add_table(rows, cols, style)]: every cell of the new grid
    holds one empty paragraph. *)
Definition document_add_table (rows cols : Z) (style : option string) : M nat :=
  fun st =>
    let d := document st in
    let t := length (doc_tables d) in
    let n := (Z.to_nat rows * Z.to_nat cols)%nat in
    let base := length (doc_paragraphs d) in
    Ok (t, set_document
             {| doc_body := doc_body d ++ [BlockTable t];
                doc_paragraphs := doc_paragraphs d ++ replicate n empty_paragraph;
                doc_tables := doc_tables d ++
                  [{| table_rows := Z.to_nat rows;
                      table_cols := Z.to_nat cols;
                      table_style := style;
                      table_cells :=
                        (fun k => {| cell_paragraphs := [(base + k)%nat];
                                     cell_fill := None |}) <$> seq 0 n;
                      table_merges := [] |}] |} st).

(** [l[i]] index resolution of a Python list of length [len]. *)
Definition py_index (len : nat) (i : Z) : result nat :=
  if (0 <=? i) && (i <? Z.of_nat len) then Ok (Z.to_nat i)
  else if (- Z.of_nat len <=? i) && (i <? 0) then Ok (Z.to_nat (Z.of_nat len + i))
  else Err (IndexError "list index out of range").

Definition in_region (row col : nat) (m : nat * nat * nat * nat) : bool :=
  let '(top, lft, bottom, rgt) := m in
  ((top <=? row) && (row <=? bottom) && (lft <=? col) && (col <=? rgt))%nat.

(** The region a grid position belongs to: a merged one, or itself. *)
Definition region_of (t : table) (i : nat) : nat * nat * nat * nat :=
  let row := (i / table_cols t)%nat in
  let col := (i mod table_cols t)%nat in
  match find (in_region row col) (table_merges t) with
  | Some m => m
  | None => (row, col, row, col)
  end.

(** [table.cell(row_idx, col_idx)]: a position inside a merged region
    denotes the region's top-left cell. *)
Definition table_cell (t : table) (row_idx col_idx : Z) : result nat :=
  let* i := py_index (length (table_cells t))
                     (col_idx + row_idx * Z.of_nat (table_cols t)) in
  let '(top, lft, _, _) := region_of t i in
  Ok (top * table_cols t + lft)%nat.

Definition the_table (t : nat) : M table :=
  fun st =>
    match doc_tables (document st) !! t with
    | Some tb => Ok (tb, st)
    | None => Err (IndexError "no such table")
    end.

(** [cell.merge(other_cell)]: the two cells' regions are joined into their
    bounding box. *)
Definition merge_cells (t a b : nat) : M unit :=
  let! tb := the_table t in
  let '(top1, lft1, bottom1, rgt1) := region_of tb a in
  let '(top2, lft2, bottom2, rgt2) := region_of tb b in
  let m := (top1 `min` top2, lft1 `min` lft2,
            bottom1 `max` bottom2, rgt1 `max` rgt2)%nat in
  write (fun st => set_document (update_table t (fun tb =>
    {| table_rows := table_rows tb; table_cols := table_cols tb;
       table_style := table_style tb; table_cells := table_cells tb;
       table_merges := m :: table_merges tb |}) (document st)) st).

Definition update_cell (c : nat * nat) (f : cell -> cell) (d : docx) : docx :=
  update_table c.1 (fun tb =>
    {| table_rows := table_rows tb; table_cols := table_cols tb;
       table_style := table_style tb;
       table_cells := alter f c.2 (table_cells tb);
       table_merges := table_merges tb |}) d.

Definition the_cell (c : nat * nat) : M cell :=
  let! tb := the_table c.1 in
  match table_cells tb !! c.2 with
  | Some cl => ret cl
  | None => raise (IndexError "no such cell")
  end.

(** [cell.add_paragraph()] *)
Definition cell_add_paragraph (c : nat * nat) : M nat :=
  fun st =>
    let d := document st in
    let p := length (doc_paragraphs d) in
    Ok (p, set_document
             (update_cell c (fun cl =>
                {| cell_paragraphs := cell_paragraphs cl ++ [p];
                   cell_fill := cell_fill cl |})
                {| doc_body := doc_body d;
                   doc_paragraphs := doc_paragraphs d ++ [empty_paragraph];
                   doc_tables := doc_tables d |}) st).

(** [cell.paragraphs[0]] *)
Definition cell_first_paragraph (c : nat * nat) : M nat :=
  let! cl := the_cell c in
  match cell_paragraphs cl with
  | p :: _ => ret p
  | [] => raise (IndexError "list index out of range")
  end.

(** An element [w:shd] cannot be given [None] as its fill: lxml refuses it. *)
Definition shade_fill (bg_color : option string) : result string :=
  match bg_color with
  | Some c => Ok c
  | None => Err (TypeError "Argument must be bytes or unicode, got 'NoneType'")
  end.

Definition set_cell_background_color (c : nat * nat) (bgcolor : option string)
    : M unit :=
  let! fill := lift (shade_fill bgcolor) in
  write (fun st => set_document (update_cell c (fun cl =>
    {| cell_paragraphs := cell_paragraphs cl; cell_fill := Some fill |})
    (document st)) st).

(** The paragraph [current_paragraph] refers to; a method called on [None]
    raises. *)
Definition the_paragraph : M nat :=
  fun st =>
    match current_paragraph st with
    | Some p => Ok (p, st)
    | None => Err (AttributeError "'NoneType' object has no attribute")
    end.

Definition the_table_cell : M (nat * nat) :=
  fun st =>
    match current_table_cell st with
    | Some c => Ok (c, st)
    | None => Err (AttributeError "'NoneType' object has no attribute")
    end.

(** The elements of the current paragraph. *)
Definition current_items (st : state) : list inline :=
  match current_paragraph st with
  | Some p =>
      match doc_paragraphs (document st) !! p with
      | Some pa => para_items pa
      | None => []
      end
  | None => []
  end.

Definition add_item (i : inline) : M unit :=
  let! p := the_paragraph in
  write (fun st => set_document (update_paragraph p (append_item i) (document st)) st).

(** [current_paragraph.add_run(text)] *)
Definition add_run (text : string) : M unit :=
  add_item (DirectRun (plain_run text)).

(** [for run in current_paragraph.runs: run = f(run)] *)
Definition update_runs (f : list inline -> list inline) : M unit :=
  let! p := the_paragraph in
  write (fun st => set_document (update_paragraph p (map_items f) (document st)) st).

(** [document.add_picture(path, width)]: a new paragraph at the end of the
    body holding the picture; [current_paragraph] is not moved. *)
Definition picture_run (path : string) (width : Z) : run :=
  {| run_text := ""; run_bold := false; run_italic := false;
     run_underline := false; run_strike := false; run_color := None;
     run_highlight := None; run_size := None; run_font := None;
     run_shading := None; run_picture := Some (path, width) |}.

Definition document_add_picture (path : string) (width : Z) : M unit :=
  let! p := document_add_paragraph in
  write (fun st => set_document
    (update_paragraph p (append_item (DirectRun (picture_run path width)))
                      (document st)) st).

(** [insert_horizontal_rule(paragraph)] *)
Definition insert_horizontal_rule (p : nat) : M unit :=
  write (fun st => set_document (update_paragraph p (fun pa =>
    {| para_items := para_items pa; para_alignment := para_alignment pa;
       para_bottom_borders := S (para_bottom_borders pa) |}) (document st)) st).

(** ** Constants of the script *)

Definition newline : string := String "010"%char "".
Definition INDENT : string := "    ".
Definition BULLET : string := "• ".           (* U+2022 and a space *)
Definition BALLOT_BOX_CHECKED : string := "☑". (* U+2611 *)
Definition BALLOT_BOX : string := "☐".         (* U+2610 *)

Definition highlight_map : list (string * color_index) :=
  [("#fdf0d1", YELLOW); ("#d4f3e6", BRIGHT_GREEN); ("#ecd9fb", PINK);
   ("#fce6d1", GRAY_50); ("#ccdff7", TURQUOISE); ("#fbd7dd", RED);
   ("#e8e8e8", GRAY_25)].

(** Sizes in points. *)
Definition heading_level_to_size_map : list (string * Z) :=
  [("1", 28); ("2", 20); ("3", 16)].

(** [d[key]] of one of the two constant dictionaries, [None] for a key that
    is not in it. *)
Definition lookup_constant {V : Type} (key : string) (d : list (string * V))
    : option V :=
  snd <$> find (fun kv => String.eqb kv.1 key) d.

(** [in_to_emu] *)
Definition in_to_emu (inches : Z) : Z := inches * 914400.

(** ** The content walker *)

(** The loop of [parse_text_type] over the marks leaves these local
    variables. *)
Record text_style : Type := TextStyle {
  is_bold : bool;
  is_italic : bool;
  is_underline : bool;
  is_strikethrough : bool;
  font_color : option (Z * Z * Z);
  highlight_color : option color_index;
  font_size : option Z;
  is_hyperlink : bool;
  url : jval;
}.

Definition no_style : text_style :=
  {| is_bold := false; is_italic := false; is_underline := false;
     is_strikethrough := false; font_color := None; highlight_color := None;
     font_size := None; is_hyperlink := false; url := JNull |}.

(** [mark_obj["attrs"][key]] when both keys are there. *)
Definition mark_attr (mark_obj : mark) (key : string) : option jval :=
  mark_attrs mark_obj ≫= (.!! key).

(** [content_obj["attrs"][key]] when both keys are there. *)
Definition node_attr (content_obj : node) (key : string) : option jval :=
  node_attrs content_obj ≫= (.!! key).

Section Walker.

(** [get_pt_from_em] computes in floating point
    ([float(em[:-2]) // 0.083646]), and [get_image_path] looks at the file
    system: both are taken as given.  The first returns points, or the
    exception [float] raises. *)
Variable get_pt_from_em : string -> result Z.
Variable get_image_path : string -> option string.

(** The body of the loop over [content_obj["marks"]] in [parse_text_type]. *)
Definition text_mark (s : text_style) (mark_obj : mark) : result text_style :=
  match mark_type mark_obj with
  | None => Ok s
  | Some ty =>
      if String.eqb ty "strong" then
        Ok {| is_bold := true; is_italic := is_italic s;
              is_underline := is_underline s;
              is_strikethrough := is_strikethrough s;
              font_color := font_color s;
              highlight_color := highlight_color s;
              font_size := font_size s; is_hyperlink := is_hyperlink s;
              url := url s |}
      else if String.eqb ty "em" then
        Ok {| is_bold := is_bold s; is_italic := true;
              is_underline := is_underline s;
              is_strikethrough := is_strikethrough s;
              font_color := font_color s;
              highlight_color := highlight_color s;
              font_size := font_size s; is_hyperlink := is_hyperlink s;
              url := url s |}
      else if String.eqb ty "underline" then
        Ok {| is_bold := is_bold s; is_italic := is_italic s;
              is_underline := true;
              is_strikethrough := is_strikethrough s;
              font_color := font_color s;
              highlight_color := highlight_color s;
              font_size := font_size s; is_hyperlink := is_hyperlink s;
              url := url s |}
      else if String.eqb ty "strikethrough" then
        Ok {| is_bold := is_bold s; is_italic := is_italic s;
              is_underline := is_underline s;
              is_strikethrough := true;
              font_color := font_color s;
              highlight_color := highlight_color s;
              font_size := font_size s; is_hyperlink := is_hyperlink s;
              url := url s |}
      else if String.eqb ty "font_size" then
        match mark_attr mark_obj "size" with
        | Some v =>
            let* em := as_str v in
            let* size := get_pt_from_em em in
            Ok {| is_bold := is_bold s; is_italic := is_italic s;
                  is_underline := is_underline s;
                  is_strikethrough := is_strikethrough s;
                  font_color := font_color s;
                  highlight_color := highlight_color s;
                  font_size := Some size; is_hyperlink := is_hyperlink s;
                  url := url s |}
        | None => Ok s
        end
      else if String.eqb ty "font_color" then
        match mark_attr mark_obj "color" with
        | Some v =>
            let* hex := as_str v in
            let* color := get_color_from_hex hex in
            Ok {| is_bold := is_bold s; is_italic := is_italic s;
                  is_underline := is_underline s;
                  is_strikethrough := is_strikethrough s;
                  font_color := Some color;
                  highlight_color := highlight_color s;
                  font_size := font_size s; is_hyperlink := is_hyperlink s;
                  url := url s |}
        | None => Ok s
        end
      else if String.eqb ty "highlight" then
        match mark_attr mark_obj "color" with
        | Some hex =>
            let color :=
              match hex with
              | JStr h => default YELLOW (lookup_constant h highlight_map)
              | _ => YELLOW
              end in
            Ok {| is_bold := is_bold s; is_italic := is_italic s;
                  is_underline := is_underline s;
                  is_strikethrough := is_strikethrough s;
                  font_color := font_color s;
                  highlight_color := Some color;
                  font_size := font_size s; is_hyperlink := is_hyperlink s;
                  url := url s |}
        | None => Ok s
        end
      else if String.eqb ty "link" then
        match mark_attr mark_obj "href" with
        | Some href =>
            Ok {| is_bold := is_bold s; is_italic := is_italic s;
                  is_underline := is_underline s;
                  is_strikethrough := is_strikethrough s;
                  font_color := font_color s;
                  highlight_color := highlight_color s;
                  font_size := font_size s; is_hyperlink := true;
                  url := href |}
        | None => Ok s
        end
      else Ok s
  end.

(** The whole loop, guarded by ["marks" in content_obj.keys()]. *)
Definition text_marks (content_obj : node) : result text_style :=
  match node_marks content_obj with
  | Some marks => for_each marks text_mark no_style
  | None => Ok no_style
  end.

Definition parse_text_type (content_obj : node) (output : option string)
    : M (option string) :=
  let! s := lift (text_marks content_obj) in
  match node_text content_obj with
  | Some text =>
      let! _ := the_paragraph in
      let! in_code := read in_code_block in
      let! in_call := read in_callout in
      let! bg_color := read callout_bg_color in
      let! shading :=
        if in_call then
          let! fill := lift (shade_fill bg_color) in ret (Some fill)
        else ret None in
      let r :=
        {| run_text := text;
           run_bold := is_bold s;
           run_italic := is_italic s;
           run_underline := is_underline s || is_hyperlink s;
           run_strike := is_strikethrough s;
           run_color :=
             if is_hyperlink s then Some (26, 116, 186) else font_color s;
           run_highlight := highlight_color s;
           run_size := font_size s;
           run_font := Some (if in_code then "Courier" else "Helvetica");
           run_shading := shading;
           run_picture := None |} in
      add_item (if is_hyperlink s then HyperlinkRun (url s) r
                else DirectRun r) ;;
      lift (add_str output text)
  | None => ret output
  end.

(** The loop of [parse_paragraph_type] over the marks. *)
Definition paragraph_mark (a : alignment) (mark_obj : mark) : alignment :=
  match mark_type mark_obj with
  | Some ty =>
      if String.eqb ty "alignment" then
        match mark_attr mark_obj "alignment" with
        | Some (JStr v) =>
            if String.eqb v "center" then CENTER
            else if String.eqb v "right" then RIGHT
            else if String.eqb v "justify" then JUSTIFY
            else a
        | _ => a
        end
      else a
  | None => a
  end.

Definition parse_image_type (content_obj : node) (output : option string)
    : M (option string) :=
  match node_attr content_obj "fileName" with
  | Some v =>
      let! image_file_name := lift (as_str v) in
      match get_image_path image_file_name with
      | Some image_file_path =>
          let! c := read current_table_cell in
          match c with
          | None => document_add_picture image_file_path (in_to_emu 6)
          | Some _ =>
              let! _ := the_paragraph in
              add_item (DirectRun (picture_run image_file_path (in_to_emu 1)))
          end
      | None => add_run ("MISSING IMAGE: " +:+ image_file_name)
      end ;;
      lift (let* o := add_str output "image: " in add_str o image_file_name)
  | None => ret None   (* the function ends without a [return] *)
  end.

Definition parse_horizontal_rule_type (content_obj : node)
    (output : option string) : M (option string) :=
  let! cur := read current_paragraph in
  let! p :=
    match cur with
    | Some p => ret p
    | None =>
        let! p := document_add_paragraph in
        write (set_current_paragraph (Some p)) ;; ret p
    end in
  insert_horizontal_rule p ;;
  lift (add_str output (newline +:+ "----------" +:+ newline)).

(** [merge_table_cells] *)
Definition merge_table_cells (t : nat)
    (cell_merges : list ((nat * nat) * (Z * Z))) : M unit :=
  for_eachM cell_merges (fun _ '((r_idx, c_idx), (rowspan, colspan)) =>
    let! tb := the_table t in
    let! a := lift (table_cell tb (Z.of_nat r_idx) (Z.of_nat c_idx)) in
    let! tb := the_table t in
    let! b := lift (table_cell tb (Z.of_nat r_idx + rowspan - 1)
                                  (Z.of_nat c_idx + colspan - 1)) in
    merge_cells t a b) tt.

Section Handlers.

(** The recursive call. *)
Variable parse_contents : list node -> option string -> M (option string).

Definition parse_heading_type (content_obj : node) (output : option string)
    : M (option string) :=
  let! p := document_add_paragraph in
  write (set_current_paragraph (Some p)) ;;
  let heading_size :=
    match node_attr content_obj "level" with
    | Some level =>
        default 28 (lookup_constant (str_of level) heading_level_to_size_map)
    | None => 28
    end in
  match node_content content_obj with
  | Some content =>
      let! result := parse_contents content output in
      update_runs (fmap (fun i =>
        match i with
        | DirectRun r => DirectRun (with_size heading_size r)
        | HyperlinkRun _ _ => i
        end)) ;;
      lift (add_str result newline)
  | None => lift (add_str output newline)
  end.

Definition parse_paragraph_type (content_obj : node) (output : option string)
    : M (option string) :=
  let! use_cell := read use_table_cell_paragraph in
  (if use_cell then
     let! c := the_table_cell in
     let! p := cell_first_paragraph c in
     write (set_current_paragraph (Some p)) ;;
     write (set_use_table_cell_paragraph false)
   else
     let! c := read current_table_cell in
     let! p := match c with
               | None => document_add_paragraph
               | Some c => cell_add_paragraph c
               end in
     write (set_current_paragraph (Some p))) ;;
  let! in_bullet := read in_bullet_list_item in
  let! in_ordered := read in_ordered_list_item in
  let! in_check := read in_check_list_item in
  let! in_call := read in_callout in
  (if in_bullet then
     let! level := read bullet_list_level in
     repeatM (Z.to_nat (level - 1)) (add_run INDENT) ;;
     add_run BULLET
   else if in_ordered then
     let! level := read ordered_list_level in
     repeatM (Z.to_nat (level - 1)) (add_run INDENT) ;;
     let! depths := read list_depths in
     let! depth := lift (getitem (str level) (depths !! level)) in
     let! char := lift (get_ordered_list_char level depth) in
     add_run (char +:+ " ")
   else if in_check then
     let! level := read check_list_level in
     repeatM (Z.to_nat (level - 1)) (add_run INDENT) ;;
     let! checked := read is_check_list_item_checked in
     add_run ((if checked then BALLOT_BOX_CHECKED else BALLOT_BOX) +:+ " ")
   else if in_call then
     let! t := document_add_table 1 1 None in
     let! tb := the_table t in
     let! c := lift (table_cell tb 0 0) in
     let! bg := read callout_bg_color in
     set_cell_background_color (t, c) bg ;;
     let! p := cell_add_paragraph (t, c) in
     write (set_current_paragraph (Some p)) ;;
     let! emoji := read callout_emoji in
     let! e := lift (as_str emoji) in
     add_run (" " +:+ e +:+ "  ")
   else ret tt) ;;
  let alignment :=
    match node_marks content_obj with
    | Some marks => fold_left paragraph_mark marks LEFT
    | None => LEFT
    end in
  let! p := the_paragraph in
  write (fun st => set_document (update_paragraph p (fun pa =>
    {| para_items := para_items pa; para_alignment := Some alignment;
       para_bottom_borders := para_bottom_borders pa |}) (document st)) st) ;;
  match node_content content_obj with
  | Some content =>
      let! result := parse_contents content output in
      lift (add_str result newline)
  | None => lift (add_str output newline)
  end.

Definition parse_bullet_list_type (content_obj : node)
    (output : option string) : M (option string) :=
  write (set_list_type (Some "bullet")) ;;
  let! level := read bullet_list_level in
  write (set_bullet_list_level (level + 1)) ;;
  match node_content content_obj with
  | Some content =>
      let! result := parse_contents content output in
      let! level := read bullet_list_level in
      write (set_bullet_list_level (level - 1)) ;;
      ret result
  | None => ret output
  end.

Definition parse_ordered_list_type (content_obj : node)
    (output : option string) : M (option string) :=
  write (set_list_type (Some "ordered")) ;;
  let! level := read ordered_list_level in
  write (set_ordered_list_level (level + 1)) ;;
  let! depths := read list_depths in
  write (set_list_depths (<[level + 1 := 0]> depths)) ;;
  match node_content content_obj with
  | Some content =>
      let! result := parse_contents content output in
      let! level := read ordered_list_level in
      write (set_ordered_list_level (level - 1)) ;;
      ret result
  | None => ret output
  end.

Definition parse_check_list_type (content_obj : node)
    (output : option string) : M (option string) :=
  write (set_list_type (Some "check")) ;;
  let! level := read check_list_level in
  write (set_check_list_level (level + 1)) ;;
  match node_content content_obj with
  | Some content =>
      let! result := parse_contents content output in
      let! level := read check_list_level in
      write (set_check_list_level (level - 1)) ;;
      ret result
  | None => ret output
  end.

(** The loop of [parse_check_list_item_type] over
    [current_paragraph.runs], with its flag [is_check_found]. *)
Fixpoint strike_after_check (is_check_found : bool) (items : list inline)
    : list inline :=
  match items with
  | [] => []
  | DirectRun r :: rest =>
      if is_check_found
      then DirectRun (with_strike r) :: strike_after_check true rest
      else DirectRun r ::
           strike_after_check (contains BALLOT_BOX_CHECKED (run_text r)) rest
  | HyperlinkRun u r :: rest =>
      HyperlinkRun u r :: strike_after_check is_check_found rest
  end.

Definition parse_check_list_item_type (content_obj : node)
    (output : option string) : M (option string) :=
  match node_attr content_obj "checked" with
  | Some v => write (set_is_check_list_item_checked (truthy v))
  | None => ret tt
  end ;;
  match node_content content_obj with
  | Some content =>
      let! level := read check_list_level in
      let padding := repeat_string "  " (Z.to_nat level) in
      let! checked := read is_check_list_item_checked in
      let! output := lift (add_str output
        (padding +:+ (if checked then BALLOT_BOX_CHECKED else BALLOT_BOX)
                 +:+ " ")) in
      write (set_in_check_list_item true) ;;
      let! result := parse_contents content output in
      write (set_in_check_list_item false) ;;
      let! checked := read is_check_list_item_checked in
      (if checked then
         let! _ := the_paragraph in
         let! items := read current_items in
         if decide (1 < length (runs items))%nat
         then update_runs (strike_after_check false)
         else ret tt
       else ret tt) ;;
      ret result
  | None => ret output
  end.

Definition parse_list_item_type (content_obj : node)
    (output : option string) : M (option string) :=
  let! kind := read list_type in
  (if decide (kind = Some "ordered") then
     let! level := read ordered_list_level in
     let! depths := read list_depths in
     let! depth := lift (getitem (str level) (depths !! level)) in
     write (set_list_depths (<[level := depth + 1]> depths))
   else ret tt) ;;
  match node_content content_obj with
  | Some content =>
      let! output :=
        if decide (kind = Some "bullet") then
          let! level := read bullet_list_level in
          let padding := repeat_string "  " (Z.to_nat level) in
          let! output := lift (add_str output (padding +:+ "- ")) in
          write (set_in_bullet_list_item true) ;;
          ret output
        else if decide (kind = Some "ordered") then
          let! level := read ordered_list_level in
          let padding := repeat_string "  " (Z.to_nat level) in
          let! depths := read list_depths in
          let! depth := lift (getitem (str level) (depths !! level)) in
          let! char := lift (get_ordered_list_char level depth) in
          let! output := lift (add_str output (padding +:+ char +:+ " ")) in
          write (set_in_ordered_list_item true) ;;
          ret output
        else ret output in
      let! result := parse_contents content output in
      write (set_in_bullet_list_item false) ;;
      write (set_in_ordered_list_item false) ;;
      ret result
  | None => ret output
  end.

Definition parse_table_cell_type (table_cell_obj : node) (t : nat) : M unit :=
  let! row := lift (getitem "row_idx" (row_idx table_cell_obj)) in
  let! col := lift (getitem "col_idx" (col_idx table_cell_obj)) in
  let! tb := the_table t in
  let! c := lift (table_cell tb row col) in
  write (set_current_table_cell (Some (t, c))) ;;
  write (set_use_table_cell_paragraph true) ;;
  let! content := lift (getitem "content" (node_content table_cell_obj)) in
  let! _ := parse_contents content (Some "") in
  ret tt.

Definition parse_table_type (content_obj : node) (output : option string)
    : M (option string) :=
  let! (r, c) := lift (get_table_dimensions content_obj) in
  let cell_tracking := get_cell_tracking_table r c in
  let! table_cell_objs := lift (get_table_cell_objs content_obj) in
  let! (cell_merges, _, table_cell_objs) :=
    lift (get_table_cell_merges cell_tracking table_cell_objs) in
  let! t := document_add_table r c (Some "Table Grid") in
  merge_table_cells t cell_merges ;;
  for_eachM table_cell_objs (fun _ table_cell_obj =>
    parse_table_cell_type table_cell_obj t) tt ;;
  write (set_current_table_cell None) ;;
  write (set_use_table_cell_paragraph false) ;;
  lift (add_str output ("<Table " +:+ str r +:+ " x " +:+ str c +:+ ">")).

Definition parse_call_out_box (content_obj : node) (output : option string)
    : M (option string) :=
  write (set_in_callout true) ;;
  write (set_callout_emoji (JStr "")) ;;
  match node_attr content_obj "backgroundColor" with
  | Some v =>
      let! color := lift (as_str v) in
      write (set_callout_bg_color (Some (drop_first color)))
  | None => ret tt
  end ;;
  match node_attr content_obj "emoji" with
  | Some v => write (set_callout_emoji v)
  | None => ret tt
  end ;;
  match node_content content_obj with
  | Some content =>
      let! emoji := read callout_emoji in
      let! output := lift (let* e := as_str emoji in
                           let* o := add_str output e in
                           add_str o " ") in
      let! result := parse_contents content output in
      let! result := lift (add_str result newline) in
      write (set_in_callout false) ;;
      ret result
  | None => ret output
  end.

Definition parse_code_block (content_obj : node) (output : option string)
    : M (option string) :=
  write (set_in_code_block true) ;;
  let! t := document_add_table 1 1 None in
  let! tb := the_table t in
  let! c := lift (table_cell tb 0 0) in
  set_cell_background_color (t, c) (Some "ccdff7") ;;
  let! p := cell_first_paragraph (t, c) in
  write (set_current_paragraph (Some p)) ;;
  match node_content content_obj with
  | Some content =>
      let! result := parse_contents content output in
      let! result := lift (add_str result newline) in
      write (set_in_code_block false) ;;
      ret result
  | None => ret output
  end.

(** Its [in_code_block = False] assigns a local variable: the function
    has no [global] declaration. *)
Definition parse_blockquote (content_obj : node) (output : option string)
    : M (option string) :=
  match node_content content_obj with
  | Some content =>
      let! result := parse_contents content output in
      lift (add_str result newline)
  | None => ret output
  end.

Definition parse_content_type (content_obj : node) (type : string)
    (output : option string) : M (option string) :=
  if String.eqb type "heading" then parse_heading_type content_obj output
  else if String.eqb type "paragraph" then parse_paragraph_type content_obj output
  else if String.eqb type "text" then parse_text_type content_obj output
  else if String.eqb type "bullet_list" then parse_bullet_list_type content_obj output
  else if String.eqb type "ordered_list" then parse_ordered_list_type content_obj output
  else if String.eqb type "check_list" then parse_check_list_type content_obj output
  else if String.eqb type "list_item" then parse_list_item_type content_obj output
  else if String.eqb type "check_list_item" then parse_check_list_item_type content_obj output
  else if String.eqb type "image" then parse_image_type content_obj output
  else if String.eqb type "table" then parse_table_type content_obj output
  else if String.eqb type "horizontal_rule" then parse_horizontal_rule_type content_obj output
  else if String.eqb type "call_out_box" then parse_call_out_box content_obj output
  else if String.eqb type "code_block" then parse_code_block content_obj output
  else if String.eqb type "blockquote" then parse_blockquote content_obj output
  else ret output.

End Handlers.

(** [parse_contents], with [fuel] bounding the depth of the recursion
    through the handlers: a tree of height [h] needs [h] of it. *)
Fixpoint parse_contents (fuel : nat) (content_objs : list node)
    (output : option string) : M (option string) :=
  match fuel with
  | O => fun _ => OutOfFuel
  | S fuel' =>
      for_eachM content_objs (fun output content_obj =>
        match node_type content_obj with
        | Some type =>
            parse_content_type (parse_contents fuel') content_obj type output
        | None => ret output
        end) output
  end.

End Walker.

(** ** Starting a document *)

(** The module's globals as the script initialises them; [document] and
    [current_paragraph] are [None] there and are set by [parse_boxnote_json],
    as [start_document] does. *)
Definition initial_state : state :=
  {| document := {| doc_body := []; doc_paragraphs := []; doc_tables := [] |};
     current_paragraph := None;
     use_table_cell_paragraph := false;
     current_table_cell := None;
     list_type := None;
     list_depths := ∅;
     bullet_list_level := 0;
     ordered_list_level := 0;
     check_list_level := 0;
     in_bullet_list_item := false;
     in_ordered_list_item := false;
     in_check_list_item := false;
     is_check_list_item_checked := false;
     in_callout := false;
     callout_emoji := JNull;
     callout_bg_color := None;
     in_code_block := false |}.

(** [document = Document()], the title paragraph with its 32 pt run: the
    state in which [parse_boxnote_json] calls [parse_contents]. *)
Definition start_document (title : string) (st : state) : state :=
  set_current_paragraph (Some 0%nat)
    (set_document
       {| doc_body := [BlockParagraph 0];
          doc_paragraphs :=
            [{| para_items := [DirectRun (with_size 32 (plain_run title))];
                para_alignment := None; para_bottom_borders := 0 |}];
          doc_tables := [] |} st).

(** ** Example trees *)

(** [{ "type": ty, "attrs": ..., "content": ... }] *)
Definition element (ty : string) (attrs : option (gmap string jval))
    (content : option (list node)) : node :=
  {| node_type := Some ty; node_attrs := attrs; node_content := content;
     node_text := None; node_marks := None; row_idx := None; col_idx := None |}.

(** [{ "type": "text", "text": s }], with marks when given. *)
Definition text_node (s : string) (marks : option (list mark)) : node :=
  {| node_type := Some "text"; node_attrs := None; node_content := None;
     node_text := Some s; node_marks := marks; row_idx := None;
     col_idx := None |}.

Definition paragraph_of (s : string) : node :=
  element "paragraph" None (Some [text_node s None]).

(** A 2x2 table: one cell with [colspan = 2] in the first row, two plain
    cells in the second. *)
Definition table_2x2 : node :=
  element "table" None (Some [
    element "table_row" None (Some [
      element "table_cell" (Some {["colspan" := JInt 2]}) (Some [paragraph_of "x"])]);
    element "table_row" None (Some [
      element "table_cell" None (Some [paragraph_of "y"]);
      element "table_cell" (Some ∅) (Some [paragraph_of "z"])])]).

(** A table of one row holding one cell that declares no span. *)
Definition table_1x1_plain : node :=
  element "table" None (Some [
    element "table_row" None (Some [
      element "table_cell" None (Some [paragraph_of "x"])])]).

(** A text node with a [font_color] mark and no ["text"] key. *)
Definition colored_without_text (color : string) : node :=
  {| node_type := Some "text"; node_attrs := None; node_content := None;
     node_text := None;
     node_marks := Some [{| mark_type := Some "font_color";
                            mark_attrs := Some {["color" := JStr color]} |}];
     row_idx := None; col_idx := None |}.

(** An environment for examples: sizes are 12 pt, no image file exists. *)
Definition example_pt (em : string) : result Z := Ok 12.
Definition example_image_path (name : string) : option string := None.

(** The run an element of a paragraph carries. *)
Definition inline_run (i : inline) : run :=
  match i with
  | DirectRun r => r
  | HyperlinkRun _ r => r
  end.

(** A text node with a [strong] mark and no ["text"] key. *)
Definition bold_without_text : node :=
  {| node_type := Some "text"; node_attrs := None; node_content := None;
     node_text := None;
     node_marks := Some [{| mark_type := Some "strong"; mark_attrs := None |}];
     row_idx := None; col_idx := None |}.

(** A checked check-list item holding one paragraph of two text nodes. *)
Definition checked_item : node :=
  element "check_list_item" (Some {["checked" := JBool true]})
    (Some [element "paragraph" None
             (Some [text_node "d" None; text_node "e" None])]).

(** A checked item whose content ends in a nested item that declares
    [checked = false] and has no content. *)
Definition checked_item_with_nested : node :=
  element "check_list_item" (Some {["checked" := JBool true]})
    (Some [paragraph_of "a";
           element "check_list_item" (Some {["checked" := JBool false]}) None]).

(** The run [parse_text_type] makes of an unmarked text node outside code
    blocks and callouts. *)
Definition helvetica_run (text : string) : run :=
  {| run_text := text; run_bold := false; run_italic := false;
     run_underline := false; run_strike := false; run_color := None;
     run_highlight := None; run_size := None; run_font := Some "Helvetica";
     run_shading := None; run_picture := None |}.

(** The state inside a check list at depth 1 of a fresh document. *)
Definition in_check_list : state :=
  set_check_list_level 1
    (set_list_type (Some "check") (start_document "T" initial_state)).

(** The state after the content of [checked_item] has been rendered there. *)
Definition checked_item_rendered : state :=
  match parse_contents example_pt example_image_path 2
          [element "paragraph" None
             (Some [text_node "d" None; text_node "e" None])]
          (Some "T  ☑ ")
          (set_in_check_list_item true
             (set_is_check_list_item_checked true in_check_list)) with
  | Ok (_, st) => st
  | _ => initial_state
  end.

(** A document state in which an ordered list of two items at depth 1 has
    been completed. *)
Definition after_two_items : state :=
  set_list_depths {[1 := 2]}
    (set_list_type (Some "ordered") (start_document "T" initial_state)).

(** Two ordered lists one after the other. *)
Definition two_ordered_lists : list node :=
  [element "ordered_list" None
     (Some [element "list_item" None (Some [paragraph_of "a"]);
            element "list_item" None (Some [paragraph_of "b"])]);
   element "ordered_list" None
     (Some [element "list_item" None (Some [paragraph_of "c"])])].

(** The texts of the runs of every paragraph of the document, with their
    strikethrough flags. *)
(** [r'] is the run [r] marked strikethrough: [font.strike] is set, and
    the run differs in nothing else. *)
Definition struck (r r' : run) : Prop :=
  run_strike r' = true /\
  run_text r' = run_text r /\ run_bold r' = run_bold r /\
  run_italic r' = run_italic r /\ run_underline r' = run_underline r /\
  run_color r' = run_color r /\ run_highlight r' = run_highlight r /\
  run_size r' = run_size r /\ run_font r' = run_font r /\
  run_shading r' = run_shading r /\ run_picture r' = run_picture r.

Definition rendered_runs (st : state) : list (list (string * bool)) :=
  (fun pa => (fun r => (run_text r, run_strike r)) <$> runs (para_items pa))
    <$> doc_paragraphs (document st).

(** ** Tilings of the occupancy grid

    What it means for a list of cell declarations to tile a grid exactly,
    stated on the geometry alone: the spans are the ones the attributes of
    the declarations state, read here without the resolver. *)

(** Row-major order on coordinates. *)
Definition rm_ltb (a b : nat * nat) : bool :=
  ((a.1 <? b.1) || ((a.1 =? b.1) && (a.2 <? b.2)))%nat.

(** The number a declaration states under [key], read off its attributes:
    1 when it has no such attribute, the integer when it holds one ([True]
    and [False] count as 1 and 0, as Python has it), and 0, which fits no
    grid, when it holds anything else. *)
Definition declared (cell : node) (key : string) : Z :=
  match node_attr cell key with
  | None => 1
  | Some (JInt n) => n
  | Some (JBool b) => if b then 1 else 0
  | Some _ => 0
  end.

(** The span a declaration asks for: its [rowspan] and its [colspan]. *)
Definition spans_of (cell : node) : Z * Z :=
  (declared cell "rowspan", declared cell "colspan").

(** A declaration placed at an origin. *)
Definition placed : Type := node * (nat * nat).

(** The rectangle [origin, origin + spans) covers the coordinate. *)
Definition covers (x : placed) (p : nat * nat) : bool :=
  (x.2.1 <=? p.1)%nat && (Z.of_nat p.1 <? Z.of_nat x.2.1 + (spans_of x.1).1) &&
  (x.2.2 <=? p.2)%nat && (Z.of_nat p.2 <? Z.of_nat x.2.2 + (spans_of x.1).2).

(** The rectangle is not empty and lies inside the [r] x [c] grid. *)
Definition in_grid (r c : nat) (x : placed) : bool :=
  (1 <=? (spans_of x.1).1) && (1 <=? (spans_of x.1).2) &&
  (Z.of_nat x.2.1 + (spans_of x.1).1 <=? Z.of_nat r) &&
  (Z.of_nat x.2.2 + (spans_of x.1).2 <=? Z.of_nat c).

(** How many of the rectangles cover the coordinate. *)
Definition cover_count (l : list placed) (p : nat * nat) : nat :=
  length (List.filter (fun x => covers x p) l).

Fixpoint strictly_increasing (origins : list (nat * nat)) : bool :=
  match origins with
  | [] => true
  | o :: rest => forallb (rm_ltb o) rest && strictly_increasing rest
  end.

(** The declarations [cells], placed at [origins], tile the [r] x [c] grid
    exactly: every rectangle lies in the grid, every coordinate of the grid is
    covered by one rectangle and no more, and the declarations are listed in
    the row-major order of their origins. *)
Definition exactly_tiles (r c : nat) (cells : list node)
    (origins : list (nat * nat)) : bool :=
  (length cells =? length origins)%nat &&
  forallb (in_grid r c) (zip cells origins) &&
  forallb (fun p => (cover_count (zip cells origins) p =? 1)%nat)
          (list_prod (seq 0 r) (seq 0 c)) &&
  strictly_increasing origins.

(** The span exceeds 1x1. *)
Definition exceeds_1x1 (x : placed) : bool :=
  (1 <? (spans_of x.1).1) || (1 <? (spans_of x.1).2).

(** The merge instructions a placement calls for, and the declarations with
    their origins written into them. *)
Definition merges_of (l : list placed) : list ((nat * nat) * (Z * Z)) :=
  (fun x : placed => (x.2, spans_of x.1)) <$> List.filter exceeds_1x1 l.

Definition with_origins (l : list placed) : list node :=
  (fun x : placed => set_idx x.2.1 x.2.2 x.1) <$> l.

(** The 2x2 table with the last cell of its second row left out. *)
Definition table_2x2_short : node :=
  element "table" None (Some [
    element "table_row" None (Some [
      element "table_cell" (Some {["colspan" := JInt 2]}) (Some [paragraph_of "x"])]);
    element "table_row" None (Some [
      element "table_cell" None (Some [paragraph_of "y"])])]).

(** ** Notions used in the statements *)

(** What a first-row cell adds to the column count. *)
Definition counted_colspan (row_obj : node) : result Z :=
  if has_type "table_cell" row_obj then
    match node_attr row_obj "colspan" with
    | Some v => as_int v
    | None => Ok 0
    end
  else Ok 0.

(** The marker of a first item, by the depth. *)
Definition first_marker (d : Z) : string :=
  if d mod 3 =? 1 then "1." else if d mod 3 =? 2 then "a." else "i.".

(** The loop of the strikethrough step, seen on [current_paragraph.runs]. *)
Fixpoint strike_runs (is_check_found : bool) (rs : list run) : list run :=
  match rs with
  | [] => []
  | r :: rest =>
      if is_check_found then with_strike r :: strike_runs true rest
      else r :: strike_runs (contains BALLOT_BOX_CHECKED (run_text r)) rest
  end.

(** The tracking table has [r] rows of [c] columns. *)
Definition shaped (r c : nat) (t : list (list bool)) : Prop :=
  length t = r /\ Forall (fun row => length row = c) t.

(** The flag of the tracking table at a coordinate, [False] outside it. *)
Definition occupied (t : list (list bool)) (p : nat * nat) : bool :=
  default false (t !! p.1 ≫= (.!! p.2)).

(** Some rectangle of the list covers the coordinate. *)
Definition covered (l : list placed) (p : nat * nat) : bool :=
  existsb (fun x => covers x p) l.

(** What [list.pop] raises on an empty list. *)
Definition pop_error : exn := IndexError "pop from empty list".

(** The height of a tree: how many times a handler can hand the content of
    a node to the recursive call on the way down. *)
Fixpoint node_height (n : node) : nat :=
  match n with
  | Node _ _ (Some content) _ _ _ _ =>
      S ((fix nodes_height (l : list node) : nat :=
            match l with
            | [] => 0%nat
            | x :: l' => Nat.max (node_height x) (nodes_height l')
            end) content)
  | Node _ _ None _ _ _ _ => 0%nat
  end.

Fixpoint nodes_height (l : list node) : nat :=
  match l with
  | [] => 0%nat
  | x :: l' => Nat.max (node_height x) (nodes_height l')
  end.

(** No node of the tree is a check-list item. *)
Fixpoint no_check_list_item (n : node) : bool :=
  match n with
  | Node type _ content _ _ _ _ =>
      negb (bool_decide (type = Some "check_list_item")) &&
      match content with
      | Some l =>
          (fix all (l : list node) : bool :=
             match l with
             | [] => true
             | x :: l' => no_check_list_item x && all l'
             end) l
      | None => true
      end
  end.

(** ** The image search

    [get_image_path] walks from the folder of the note towards the root of
    the file system.  Paths are POSIX paths ([os.path.sep] is ["/"]), and the
    file system is seen through [is_file], which tells whether a path exists
    and is a regular file. *)

Definition os_sep : string := "/".

Definition is_sep (c : ascii) : bool := Ascii.eqb c "/".

(** [p[:i]] and [p[i:]] for [i = p.rfind("/") + 1]. *)
Fixpoint split_at_last_sep (p : string) : string * string :=
  match p with
  | EmptyString => ("", "")
  | String c rest =>
      let '(head, tail) := split_at_last_sep rest in
      match head with
      | EmptyString => if is_sep c then (String c "", tail) else ("", String c tail)
      | _ => (String c head, tail)
      end
  end.

(** [s.rstrip("/")] *)
Fixpoint rstrip_sep (s : string) : string :=
  match s with
  | EmptyString => ""
  | String c rest =>
      match rstrip_sep rest with
      | EmptyString => if is_sep c then "" else String c ""
      | rest' => String c rest'
      end
  end.

(** [os.path.split]: the head loses its trailing separators unless it
    consists of separators only. *)
Definition os_path_split (p : string) : string * string :=
  let '(head, tail) := split_at_last_sep p in
  match rstrip_sep head with
  | EmptyString => (head, tail)
  | head' => (head', tail)
  end.

(** [s[:-8]] *)
Definition drop_last_8 (s : string) : string :=
  substring 0 (String.length s - 8) s.

(** The folder searched for the images of the note [tail], relative to a
    folder above the note: the value of [extra_path]. *)
Definition images_folder (tail : string) : string :=
  "Box Notes Images" +:+ os_sep +:+ drop_last_8 tail +:+ " Images".

Section ImageSearch.

Variable is_file : string -> bool.
Variable BOX_ROOTS : list string.

(** The [while tail != ""] loop; [fuel] bounds its rounds. *)
Fixpoint search_upwards (fuel : nat) (extra_path img_file_name : string)
    (base_path tail : string) : result (option string) :=
  match fuel with
  | O => OutOfFuel
  | S fuel' =>
      if String.eqb tail "" then Ok None
      else
        let img_file_path :=
          base_path +:+ os_sep +:+ extra_path +:+ os_sep +:+ img_file_name in
        if is_file img_file_path then Ok (Some img_file_path)
        else
          let '(base_path, tail) := os_path_split base_path in
          if bool_decide (base_path ∈ BOX_ROOTS) then Ok None
          else search_upwards fuel' extra_path img_file_name base_path tail
  end.

(** Every round but the last shortens [base_path], so the length of the
    path and two more rounds are enough. *)
Definition get_image_path (current_path img_file_name : string)
    : result (option string) :=
  let '(base_path, tail) := os_path_split current_path in
  let file_name := drop_last_8 tail in
  let extra_path := "Box Notes Images" +:+ os_sep +:+ file_name +:+ " Images" in
  search_upwards (String.length current_path + 2) extra_path img_file_name
                 base_path tail.

End ImageSearch.

(** A file system that holds one file. *)
Definition only_file (path : string) : string -> bool := String.eqb path.

(** ** Opening a note

    [open_with_retry] reads the file until the read does not time out.  What
    the file system answers is given: [attempts k] is the outcome of the
    attempt made after [k] timeouts. *)

Section OpenWithRetry.

(** The type of the parsed JSON, and of the exceptions other than
    [TimeoutError] that opening and parsing can raise. *)
Context {J E : Type}.

(** One round of [path.open()] and [json.load(f)]. *)
Inductive attempt : Type :=
  | Loaded (bn_json : J)
  | TimedOut
  | Failed (e : E).

(** How the call ends: [return bn_json], the [TimeoutError] the function
    raises itself, or the exception it raises again. *)
Inductive opened : Type :=
  | Returned (bn_json : J)
  | GaveUp
  | Reraised (e : E).

Definition timeouts : list Z := [1; 3; 5; 5; 10].

(** The [while True] loop, with the seconds slept so far; it makes six
    rounds at most. *)
Fixpoint open_loop (fuel : nat) (attempts : nat -> attempt) (num_tries : nat)
    (slept : list Z) : option (opened * list Z) :=
  match fuel with
  | O => None
  | S fuel' =>
      match attempts num_tries with
      | Loaded bn_json => Some (Returned bn_json, slept)
      | TimedOut =>
          if (length timeouts <=? num_tries)%nat then Some (GaveUp, slept)
          else
            match timeouts !! num_tries with
            | Some timeout =>
                open_loop fuel' attempts (S num_tries) (slept ++ [timeout])
            | None => None
            end
      | Failed e => Some (Reraised e, slept)
      end
  end.

Definition open_with_retry (attempts : nat -> attempt)
    : option (opened * list Z) :=
  open_loop 6 attempts 0%nat [].

(** The attempt answers with something else than a timeout. *)
Definition answers (a : attempt) : bool :=
  match a with
  | TimedOut => false
  | _ => true
  end.

(** How the call ends on an attempt that answers. *)
Definition answer (a : attempt) : opened :=
  match a with
  | Loaded bn_json => Returned bn_json
  | TimedOut => GaveUp
  | Failed e => Reraised e
  end.

End OpenWithRetry.

(** ** File names

    [pathlib] on the last component of a path: [name.rfind(".")], then
    [suffix], [stem] and [with_suffix] as [PurePath] defines them. *)

Module pathlib.

(** [s.rfind(c)], [None] for -1. *)
Fixpoint rfind (c : ascii) (s : string) : option nat :=
  match s with
  | EmptyString => None
  | String x rest =>
      match rfind c rest with
      | Some i => Some (S i)
      | None => if Ascii.eqb x c then Some 0%nat else None
      end
  end.

(** The index [i] of the last dot when [0 < i < len(name) - 1]. *)
Definition suffix_index (name : string) : option nat :=
  match rfind "." name with
  | Some i =>
      if ((0 <? i) && (i <? String.length name - 1))%nat then Some i else None
  | None => None
  end.

(** [path.suffix] *)
Definition suffix (name : string) : string :=
  match suffix_index name with
  | Some i => substring i (String.length name - i) name
  | None => ""
  end.

(** [path.stem] *)
Definition stem (name : string) : string :=
  match suffix_index name with
  | Some i => substring 0 i name
  | None => name
  end.

(** [path.with_suffix(suffix)], for a name that is not empty. *)
Definition with_suffix (name new_suffix : string) : string :=
  stem name +:+ new_suffix.

End pathlib.

(** A [pathlib.Path]: the folder and the name of the file. *)
Record path : Type := Path {
  path_parent : string;
  path_name : string;
}.

Definition is_boxnote (p : path) : bool :=
  String.eqb (pathlib.suffix (path_name p)) ".boxnote".

(** [path.parent.joinpath(path.stem).with_suffix(".docx")], the file
    [convert_boxnote] writes, for a note whose stem [joinpath] keeps as the
    last component.  It drops the stem ["."] (the one of [..boxnote]), and
    [with_suffix] then works on the name of the folder, or raises when the
    folder has none: that note is left to [joins_its_stem]. *)
Definition output_path (p : path) : path :=
  {| path_parent := path_parent p;
     path_name := pathlib.with_suffix (pathlib.stem (path_name p)) ".docx" |}.

(** The stem of the note is a component [joinpath] keeps. *)
Definition joins_its_stem (p : path) : bool :=
  negb (String.eqb (pathlib.stem (path_name p)) ".").

(** ** The driver

    [convert_dir], [convert_file] and [convert_boxnote], as far as they
    decide what is converted and what is reported.  The file system and the
    globals of the module make up a world [W]; what [convert_boxnote] does
    with a note after the dry-run check (set [current_path], open the note,
    render it, save the document, and catch what is raised) is taken as
    given. *)

(** What [convert_boxnote] returns. *)
Inductive verdict : Type := ReturnedNone | ReturnedTrue | ReturnedFalse.

(** [not v] *)
Definition falsy (v : verdict) : bool :=
  match v with
  | ReturnedTrue => false
  | _ => true
  end.

(** The lines the three functions print. *)
Inductive printed : Type :=
  | SearchingAll (dir : string)
  | Searching (dir : string)
  | Found (n : nat)
  | SkippingExists (p output : path)
  | Converting (p output : path)
  | Blank
  | ConversionFinished
  | FollowingFailed
  | FailedList (failed : list path)
  | AllConverted.

(** What [convert_file] raises. *)
Inductive path_error : Type :=
  | FileExistsError (p : path)
  | FileNotFoundError (p : path).

Section Driver.

Context {W : Type}.

(** [path.exists()] and [path.is_file()] *)
Variable path_exists : path -> W -> bool.
Variable path_is_file : path -> W -> bool.

(** [path.glob("*.boxnote")] and [path.rglob("*.boxnote")] *)
Variable glob : string -> W -> list path.
Variable rglob : string -> W -> list path.

(** What [convert_boxnote] does after the dry-run check: the assignment to
    [current_path] and the [try] statement with its handlers. *)
Variable try_convert : path -> path -> W -> verdict * W.

Variable DRY_RUN : bool.

Definition is_valid_path (p : path) (w : W) : bool :=
  path_exists p w && path_is_file p w.

Definition convert_boxnote (p : path) (w : W) : verdict * list printed * W :=
  let line :=
    if path_exists (output_path p) w then SkippingExists p (output_path p)
    else Converting p (output_path p) in
  if DRY_RUN then (ReturnedNone, [line], w)
  else
    let '(v, w') := try_convert p (output_path p) w in
    (v, [line], w').

Definition convert_file (p : path) (w : W)
    : path_error + verdict * list printed * W :=
  if is_valid_path p w then
    if is_boxnote p then inr (convert_boxnote p w)
    else inl (FileExistsError p)
  else inl (FileNotFoundError p).

(** The loop of [convert_dir] over the notes found. *)
Fixpoint convert_each (boxnotes failed_boxnotes : list path)
    (out : list printed) (w : W)
    : path_error + list path * list printed * W :=
  match boxnotes with
  | [] => inr (failed_boxnotes, out, w)
  | b :: rest =>
      match convert_file b w with
      | inl e => inl e
      | inr (v, lines, w') =>
          convert_each rest
            (if falsy v then failed_boxnotes ++ [b] else failed_boxnotes)
            (out ++ lines) w'
      end
  end.

Definition convert_dir (dir : string) (recursively : bool) (w : W)
    : path_error + list printed * W :=
  let boxnotes := if recursively then rglob dir w else glob dir w in
  let out :=
    [if recursively then SearchingAll dir else Searching dir;
     Found (length boxnotes)] in
  match convert_each boxnotes [] out w with
  | inl e => inl e
  | inr (failed_boxnotes, out, w') =>
      inr (out ++ [Blank; ConversionFinished] ++
           (if (0 <? length failed_boxnotes)%nat
            then [FollowingFailed; FailedList failed_boxnotes]
            else [AllConverted]), w')
  end.

(** The line [convert_boxnote] prints for a note. *)
Definition announced (w : W) (p : path) : printed :=
  if path_exists (output_path p) w then SkippingExists p (output_path p)
  else Converting p (output_path p).

(** A Box note that is there. *)
Definition convertible (w : W) (p : path) : bool :=
  is_valid_path p w && is_boxnote p.

End Driver.

(** ** Further notions used in the statements *)

(** The letters the loop over the digits writes. *)
Definition letters (digits : list Z) : string :=
  fold_left (fun char digit => char +:+ chr (digit + 96)) digits "".

(** The number a string of letters stands for in base 26, a character
    counting for its code minus 96. *)
Definition alpha_value (s : string) : Z :=
  fold_left (fun acc c => 26 * acc + (Z.of_nat (nat_of_ascii c) - 96))
            (list_ascii_of_string s) 0.

Definition is_z (c : ascii) : bool := Ascii.eqb c "z".

(** The cells a child of a table contributes: the [table_cell] children of a
    [table_row], nothing for any other node. *)
Definition cells_of_row (row : node) : list node :=
  if has_type "table_row" row
  then List.filter (has_type "table_cell") (default [] (node_content row))
  else [].

(** A [table_row] has a ["content"] key. *)
Definition row_has_content (row : node) : bool :=
  negb (has_type "table_row" row) || bool_decide (is_Some (node_content row)).

(** The resolver with [extra] below everything else in its queue. *)
Definition with_surplus (extra : list node) (s : resolver) : resolver :=
  {| cell_tracking := cell_tracking s;
     table_cell_objs_copy := rev extra ++ table_cell_objs_copy s;
     cell_merges := cell_merges s;
     table_cell_objs := table_cell_objs s |}.

Definition is_IndexError (e : exn) : Prop := exn_class e = "IndexError".

(** Every node of the tree satisfies [p]. *)
Fixpoint every_node (p : node -> bool) (n : node) : bool :=
  p n &&
  match n with
  | Node _ _ (Some content) _ _ _ _ =>
      (fix all (l : list node) : bool :=
         match l with
         | [] => true
         | x :: l' => every_node p x && all l'
         end) content
  | Node _ _ None _ _ _ _ => true
  end.

(** Running [m] leaves the value of [f] as it found it. *)
Definition preserves {A B : Type} (f : state -> B) (m : M A) : Prop :=
  forall st a st', m st = Ok (a, st') -> f st' = f st.

Definition not_code_block (n : node) : bool :=
  negb (bool_decide (node_type n = Some "code_block")).

(** The three nesting counters. *)
Definition levels (st : state) : Z * Z * Z :=
  (bullet_list_level st, ordered_list_level st, check_list_level st).

Definition is_list_container (n : node) : bool :=
  bool_decide (node_type n = Some "bullet_list") ||
  bool_decide (node_type n = Some "ordered_list") ||
  bool_decide (node_type n = Some "check_list").

(** A list container has a ["content"] key. *)
Definition list_has_content (n : node) : bool :=
  negb (is_list_container n) || bool_decide (is_Some (node_content n)).

Definition not_list_container (n : node) : bool := negb (is_list_container n).

(** The value a list container assigns to [list_type]. *)
Definition list_kind (type : string) : option string :=
  if String.eqb type "bullet_list" then Some "bullet"
  else if String.eqb type "ordered_list" then Some "ordered"
  else if String.eqb type "check_list" then Some "check"
  else None.

(** The ordered nesting level and, while it is not 0, what [list_depths]
    holds for the key 0. *)
Definition outermost_counter (st : state) : Z * option Z :=
  if ordered_list_level st =? 0 then (0, None)
  else (ordered_list_level st, list_depths st !! 0).

(** The node types [parse_content_type] has a handler for. *)
Definition handled_types : list string :=
  ["heading"; "paragraph"; "text"; "bullet_list"; "ordered_list";
   "check_list"; "list_item"; "check_list_item"; "image"; "table";
   "horizontal_rule"; "call_out_box"; "code_block"; "blockquote"].

(** The node has no ["type"] key, or a type without a handler. *)
Definition unhandled (n : node) : bool :=
  match node_type n with
  | Some type => negb (existsb (String.eqb type) handled_types)
  | None => true
  end.

(** The size [parse_heading_type] picks, in points. *)
Definition heading_size (content_obj : node) : Z :=
  match node_attr content_obj "level" with
  | Some level =>
      default 28 (lookup_constant (str_of level) heading_level_to_size_map)
  | None => 28
  end.

(** What the loop of [parse_heading_type] over [current_paragraph.runs]
    does to an element of the paragraph. *)
Definition sized (size : Z) (i : inline) : inline :=
  match i with
  | DirectRun r => DirectRun (with_size size r)
  | HyperlinkRun _ _ => i
  end.

(** The runs under a hyperlink. *)
Definition hyperlink_runs (items : list inline) : list run :=
  omap (fun i => match i with DirectRun _ => None | HyperlinkRun _ r => Some r end)
       items.

(** The two states differ in [document] at most. *)
Definition same_but_document (st st' : state) : Prop :=
  forall (A : Type) (f : state -> A),
    (forall v s, f (set_document v s) = f s) -> f st' = f st.

(** The current paragraph is [p], and it holds [items]. *)
Definition paragraph_holds (p : nat) (items : list inline) (st : state) : Prop :=
  current_paragraph st = Some p /\
  exists pa, doc_paragraphs (document st) !! p = Some pa /\
             para_items pa = items.

(** The mark is a link with an address. *)
Definition is_link (mark_obj : mark) : bool :=
  bool_decide (mark_type mark_obj = Some "link") &&
  bool_decide (is_Some (mark_attr mark_obj "href")).

(** The accumulator and the state a run ends with. *)
Definition outcome_output (r : result (option string * state)) : option string :=
  match r with
  | Ok (output, _) => output
  | _ => None
  end.

Definition outcome_state (r : result (option string * state)) : state :=
  match r with
  | Ok (_, st) => st
  | _ => initial_state
  end.

(** *** Further example trees *)

Definition list_item_of (content : list node) : node :=
  element "list_item" None (Some content).

(** A numbered list whose first item nests a bullet list. *)
Definition bullet_in_ordered : list node :=
  [element "ordered_list" None
     (Some [list_item_of
              [paragraph_of "a";
               element "bullet_list" None
                 (Some [list_item_of [paragraph_of "b"]])];
            list_item_of [paragraph_of "c"]])].

(** A bullet list whose first item nests a numbered list. *)
Definition ordered_in_bullet : list node :=
  [element "bullet_list" None
     (Some [list_item_of
              [paragraph_of "a";
               element "ordered_list" None
                 (Some [list_item_of [paragraph_of "b"]])];
            list_item_of [paragraph_of "c"]])].

(** A text node with a [font_color] mark and a [link] mark. *)
Definition linked_text : node :=
  text_node "box"
    (Some [{| mark_type := Some "font_color";
              mark_attrs := Some {["color" := JStr "#ff0000"]} |};
           {| mark_type := Some "link";
              mark_attrs := Some {["href" := JStr "https://box.com"]} |}]).

(** ** The runs of the paragraphs

    What the statements about the runs a rendering leaves in the document
    are made of. *)

(** [paragraph.runs], as the texts they hold. *)
Definition run_texts (pa : paragraph) : list string :=
  run_text <$> runs (para_items pa).

(** Every paragraph of [d] is still there in [d'], and its runs begin with
    the runs it had, text by text. *)
Definition paragraphs_grow (d d' : docx) : Prop :=
  forall p pa, doc_paragraphs d !! p = Some pa ->
    exists pa', doc_paragraphs d' !! p = Some pa' /\
                run_texts pa `prefix_of` run_texts pa'.

(** Running [m] takes no run away from a paragraph and changes the text of
    none. *)
Definition grows {A : Type} (m : M A) : Prop :=
  forall st a st', m st = Ok (a, st') ->
    paragraphs_grow (document st) (document st').

(** The texts of the runs of paragraph [p]; none when the document has no
    such paragraph. *)
Definition texts_at (d : docx) (p : nat) : list string :=
  match doc_paragraphs d !! p with
  | Some pa => run_texts pa
  | None => []
  end.





(** * Properties *)

(** ** Ordinal formatter (C1) *)

Lemma get_ordered_list_char_decimal (d p : Z) :
  d mod 3 = 1 -> get_ordered_list_char d p = Ok (str p +:+ ".").
Proof.
  intros H. unfold get_ordered_list_char. rewrite H. reflexivity.
Qed.

Lemma get_ordered_list_char_alpha (d p : Z) :
  d mod 3 = 2 ->
  get_ordered_list_char d p =
  Ok (fold_left (fun char digit => char +:+ chr (digit + 96))
                (base26_digits (Z.to_nat p) p []) "" +:+ ".").
Proof.
  intros H. unfold get_ordered_list_char. rewrite H. reflexivity.
Qed.

Lemma get_ordered_list_char_roman (d p : Z) :
  d mod 3 = 0 ->
  get_ordered_list_char d p =
  let* r := toRoman p in Ok (lower r +:+ ".").
Proof.
  intros H. unfold get_ordered_list_char. rewrite H. reflexivity.
Qed.

(** The numbering system depends on the depth modulo 3 only, so the cycle
    repeats at every depth. *)
Lemma get_ordered_list_char_cycle (d p : Z) :
  get_ordered_list_char (d + 3) p = get_ordered_list_char d p.
Proof.
  unfold get_ordered_list_char.
  replace ((d + 3) mod 3) with (d mod 3); [reflexivity|].
  replace (d + 3) with (d + 1 * 3) by lia. symmetry. apply Z_mod_plus_full.
Qed.

Example marker_2_1 : get_ordered_list_char 2 1 = Ok "a.".
Proof. reflexivity. Qed.

Example marker_2_27 : get_ordered_list_char 2 27 = Ok "aa.".
Proof. reflexivity. Qed.

Example marker_1_3 : get_ordered_list_char 1 3 = Ok "3.".
Proof. reflexivity. Qed.

Example marker_3_3 : get_ordered_list_char 3 3 = Ok "iii.".
Proof. reflexivity. Qed.

(** The letters branch writes plain base 26 with the digit 0 as [chr(96)]:
    a digit 0 comes out as a backquote, and no marker holds a [z]. *)
Lemma base26_digits_last_zero (p : Z) :
  0 < p -> p mod 26 = 0 ->
  exists digits, base26_digits (Z.to_nat p) p [] = digits ++ [0].
Proof.
  intros Hp Hm.
  destruct (Z.to_nat p) as [|fuel] eqn:E; [lia|].
  cbn [base26_digits]. destruct (Z.ltb_spec 0 p) as [_|]; [|lia].
  rewrite Hm. generalize (p / 26). generalize fuel. clear.
  assert (G : forall fuel n acc,
             exists digits, base26_digits fuel n (acc ++ [0]) = digits ++ [0]).
  { induction fuel as [|fuel IH]; intros n acc; cbn [base26_digits].
    - eauto.
    - destruct (0 <? n); [|eauto].
      apply (IH (n / 26) ((n mod 26) :: acc)). }
  intros fuel n. apply (G fuel n []).
Qed.

Lemma letters_app (digits : list Z) (digit : Z) (char : string) :
  fold_left (fun char digit => char +:+ chr (digit + 96)) (digits ++ [digit]) char
  = fold_left (fun char digit => char +:+ chr (digit + 96)) digits char
    +:+ chr (digit + 96).
Proof. by rewrite fold_left_app. Qed.

Lemma append_assoc (a b c : string) : (a +:+ b) +:+ c = a +:+ (b +:+ c).
Proof.
  induction a as [|x a IH]; [done|].
  change (String x ((a +:+ b) +:+ c) = String x (a +:+ (b +:+ c))).
  by rewrite IH.
Qed.

(** The loop of the letters branch ends by itself: more rounds than
    [Z.to_nat n] change nothing. *)
Lemma base26_digits_fuel (k fuel : nat) (n : Z) (digits : list Z) :
  n <= Z.of_nat fuel ->
  base26_digits (fuel + k) n digits = base26_digits fuel n digits.
Proof.
  revert n digits. induction fuel as [|fuel IH]; intros n digits Hn.
  - cbn [Nat.add]. destruct k; cbn [base26_digits]; [done|].
    destruct (Z.ltb_spec 0 n); [lia|done].
  - cbn [Nat.add base26_digits]. destruct (Z.ltb_spec 0 n); [|done].
    apply IH. pose proof (Z.div_lt n 26 ltac:(lia) ltac:(lia)). lia.
Qed.

(** C1 fails on the code: at a depth with remainder 2, every ordinal that is
    a multiple of 26 gets a marker that ends in a backquote and a dot, where
    bijective base 26 ends in [z]: the 26th item at depth 2 is ["a`."], not
    ["z."]. *)
Theorem C1_alpha_marker_multiple_of_26 (d p : Z) :
  d mod 3 = 2 -> 0 < p -> p mod 26 = 0 ->
  exists s, get_ordered_list_char d p = Ok (s +:+ "`.").
Proof.
  intros Hd Hp Hm. rewrite get_ordered_list_char_alpha by exact Hd.
  destruct (base26_digits_last_zero p Hp Hm) as [digits ->].
  rewrite letters_app. eexists. by rewrite append_assoc.
Qed.

Lemma C1_alpha_marker_multiple_of_26_witness :
  exists s, get_ordered_list_char 2 26 = Ok (s +:+ "`.").
Proof.
  exact (C1_alpha_marker_multiple_of_26 2 26 eq_refl eq_refl eq_refl).
Defined.

Example marker_2_26 :
  get_ordered_list_char 2 26 = Ok "a`." /\
  get_ordered_list_char 2 26 <> Ok "z.".
Proof. split; [reflexivity | discriminate]. Qed.

(** [roman.toRoman] refuses ordinals from 5000 on. *)
Example marker_3_5000 :
  get_ordered_list_char 3 5000
  = Err (OutOfRangeError "number out of range (must be 0..4999)").
Proof. reflexivity. Qed.

(** The [while] loop of [toRoman] ends by itself as well. *)
Lemma roman_while_fuel (k fuel : nat) (numeral : string) (integer : Z)
    (acc : string * Z) :
  0 < integer -> acc.2 <= Z.of_nat fuel ->
  roman_while (fuel + k) numeral integer acc
  = roman_while fuel numeral integer acc.
Proof.
  intros Hi. revert acc. induction fuel as [|fuel IH]; intros acc Hn.
  - cbn [Nat.add]. destruct k; cbn [roman_while]; [done|].
    destruct (Z.leb_spec integer acc.2); [lia|done].
  - cbn [Nat.add roman_while]. destruct (Z.leb_spec integer acc.2); [|done].
    apply IH. cbn. lia.
Qed.

(** ** Table dimensions (C2) *)

Lemma get_table_dimensions_rows (t : node) (rows : list node) (r c : Z) :
  node_content t = Some rows ->
  get_table_dimensions t = Ok (r, c) ->
  r = Z.of_nat (length rows).
Proof.
  intros Hc. unfold get_table_dimensions. rewrite Hc. cbn [getitem bind].
  destruct rows as [|first rest]; cbn [bind]; [discriminate|].
  destruct (getitem "content" (node_content first)) as [cells| |];
    cbn [bind]; try discriminate.
  destruct (for_each cells _ 0) as [n| |]; cbn [bind]; try discriminate.
  intros [= <- _]. reflexivity.
Qed.

Lemma first_row_loop_counted (cells : list node) (acc : Z) :
  for_each cells (fun num_cols row_obj =>
    if has_type "table_cell" row_obj then
      match node_attrs row_obj with
      | Some attrs =>
          match attrs !! "colspan" with
          | Some v => let* n := as_int v in Ok (num_cols + n)
          | None => Ok num_cols
          end
      | None => Ok num_cols
      end
    else Ok num_cols) acc =
  for_each cells (fun num_cols row_obj =>
    let* n := counted_colspan row_obj in Ok (num_cols + n)) acc.
Proof.
  revert acc.
  induction cells as [|c cells IH]; intros acc; cbn [for_each bind]; [done|].
  unfold counted_colspan at 1, node_attr.
  destruct (has_type "table_cell" c); cbn [bind].
  - destruct (node_attrs c) as [attrs|]; cbn [mbind option_bind bind].
    + destruct (attrs !! "colspan") as [v|]; cbn [bind].
      * destruct (as_int v); cbn [bind]; [apply IH|done|done].
      * replace (acc + 0) with acc by lia. apply IH.
    + replace (acc + 0) with acc by lia. apply IH.
  - replace (acc + 0) with acc by lia. apply IH.
Qed.

Lemma get_table_dimensions_cols (t first : node) (rows cells : list node) :
  node_content t = Some (first :: rows) ->
  node_content first = Some cells ->
  get_table_dimensions t =
  let* num_cols := for_each cells (fun num_cols row_obj =>
                     let* n := counted_colspan row_obj in Ok (num_cols + n)) 0 in
  Ok (Z.of_nat (S (length rows)), num_cols).
Proof.
  intros Ht Hf. unfold get_table_dimensions. rewrite Ht. cbn [getitem bind].
  rewrite Hf. cbn [getitem bind]. rewrite first_row_loop_counted. reflexivity.
Qed.

(** A cell that declares no [colspan] adds nothing to the column count. *)
Lemma counted_colspan_absent (row_obj : node) :
  node_attr row_obj "colspan" = None -> counted_colspan row_obj = Ok 0.
Proof.
  intros H. unfold counted_colspan. rewrite H. by destruct (has_type _ _).
Qed.

(** ... while the resolver of the merges takes the same cell to span one
    column. *)
Lemma cell_spans_absent (table_cell_obj : node) :
  node_attrs table_cell_obj = None -> cell_spans table_cell_obj = Ok (1, 1).
Proof. intros H. unfold cell_spans. by rewrite H. Qed.

Lemma first_row_loop_absent (cells : list node) (acc : Z) :
  Forall (fun cell => node_attr cell "colspan" = None) cells ->
  for_each cells (fun num_cols row_obj =>
    let* n := counted_colspan row_obj in Ok (num_cols + n)) acc = Ok acc.
Proof.
  induction 1 as [|cell cells Hc _ IH]; [done|]. cbn [for_each].
  rewrite counted_colspan_absent by exact Hc. cbn [bind].
  by replace (acc + 0) with acc by lia.
Qed.

(** C2 fails on the code: the cells of the first row that declare no
    [colspan] add nothing to the column count; a first row of such cells
    gives 0 columns, however many cells it has, where the claim counts 1
    for each.  The row count is the number of row nodes. *)
Theorem C2_absent_colspan_counts_zero (t first : node)
    (rows cells : list node) :
  node_content t = Some (first :: rows) ->
  node_content first = Some cells ->
  Forall (fun cell => node_attr cell "colspan" = None) cells ->
  get_table_dimensions t = Ok (Z.of_nat (length (first :: rows)), 0).
Proof.
  intros Ht Hf Hc. rewrite (get_table_dimensions_cols t first rows cells Ht Hf).
  by rewrite first_row_loop_absent.
Qed.

Lemma C2_absent_colspan_counts_zero_witness :
  get_table_dimensions table_1x1_plain = Ok (1, 0).
Proof.
  apply (C2_absent_colspan_counts_zero table_1x1_plain
           (element "table_row" None
              (Some [element "table_cell" None (Some [paragraph_of "x"])]))
           [] [element "table_cell" None (Some [paragraph_of "x"])]).
  - reflexivity.
  - reflexivity.
  - repeat constructor.
Defined.

(** The table is then created without columns, its cell is never given an
    index, and rendering the cell fails. *)
Example table_1x1_plain_fails :
  parse_contents example_pt example_image_path 4 [table_1x1_plain] (Some "T")
    (start_document "T" initial_state) = Err (KeyError "row_idx").
Proof. vm_compute. reflexivity. Qed.

(** ** Colours (C9) *)

Lemma hex_digit_inv (c : ascii) (v : Z) :
  hex_digit c = Some v ->
  In (c, v) [("0"%char, 0); ("1"%char, 1); ("2"%char, 2); ("3"%char, 3); ("4"%char, 4); ("5"%char, 5); ("6"%char, 6); ("7"%char, 7); ("8"%char, 8); ("9"%char, 9); ("a"%char, 10); ("b"%char, 11); ("c"%char, 12); ("d"%char, 13); ("e"%char, 14); ("f"%char, 15); ("A"%char, 10); ("B"%char, 11); ("C"%char, 12); ("D"%char, 13); ("E"%char, 14); ("F"%char, 15)].
Proof.
  destruct c as [[] [] [] [] [] [] [] []]; vm_compute; intros H;
    try discriminate H; injection H as <-; tauto.
Qed.

Lemma int16_two_hex_digits (c1 c2 : ascii) (v1 v2 : Z) :
  hex_digit c1 = Some v1 -> hex_digit c2 = Some v2 ->
  int16 (String c1 (String c2 "")) = Ok (16 * v1 + v2).
Proof.
  intros H1 H2. apply hex_digit_inv in H1. apply hex_digit_inv in H2.
  cbn [In] in H1, H2.
  repeat (destruct H1 as [H1|H1]; [injection H1 as <- <-|]); try contradiction;
    repeat (destruct H2 as [H2|H2]; [injection H2 as <- <-|]);
    try contradiction; reflexivity.
Qed.

Lemma hex_digit_range (c : ascii) (v : Z) :
  hex_digit c = Some v -> 0 <= v <= 15.
Proof.
  intros H. apply hex_digit_inv in H. cbn [In] in H.
  repeat (destruct H as [H|H]; [injection H as <- <-; lia|]). contradiction.
Qed.

(** The conversion never raises anything but [ValueError]. *)
Lemma int16_error (s : string) (e : exn) :
  int16 s = Err e -> e = invalid_literal.
Proof.
  unfold int16.
  destruct (match skip_spaces s with
            | String "+" r => (false, r)
            | String "-" r => (true, r)
            | _ => (false, skip_spaces s)
            end) as [negative s2].
  repeat match goal with
         | |- context [match ?x with _ => _ end] => destruct x
         end; congruence.
Qed.

Lemma int16_fuel (s : string) : int16 s <> OutOfFuel.
Proof.
  unfold int16.
  destruct (match skip_spaces s with
            | String "+" r => (false, r)
            | String "-" r => (true, r)
            | _ => (false, skip_spaces s)
            end) as [negative s2].
  repeat match goal with
         | |- context [match ?x with _ => _ end] => destruct x
         end; congruence.
Qed.

Lemma get_color_from_hex_error (hex : string) (e : exn) :
  get_color_from_hex hex = Err e -> exn_class e = "ValueError".
Proof.
  unfold get_color_from_hex, RGBColor.
  destruct (int16 (slice 1 3 hex)) as [r|e1|] eqn:E1; cbn [bind];
    [|intros [= <-]; by rewrite (int16_error _ _ E1)|done].
  destruct (int16 (slice 3 5 hex)) as [g|e2|] eqn:E2; cbn [bind];
    [|intros [= <-]; by rewrite (int16_error _ _ E2)|done].
  destruct (int16 (slice 5 7 hex)) as [b|e3|] eqn:E3; cbn [bind];
    [|intros [= <-]; by rewrite (int16_error _ _ E3)|done].
  destruct (forallb _ _); [done|]. by intros [= <-].
Qed.

(** C9, as the code has it: a well-formed [#RRGGBB] string gives its three
    channels, each the value of its two hex digits and within 0..255. *)
Theorem C9_well_formed_hex (c1 c2 c3 c4 c5 c6 : ascii) (v1 v2 v3 v4 v5 v6 : Z) :
  hex_digit c1 = Some v1 -> hex_digit c2 = Some v2 ->
  hex_digit c3 = Some v3 -> hex_digit c4 = Some v4 ->
  hex_digit c5 = Some v5 -> hex_digit c6 = Some v6 ->
  get_color_from_hex
    (String "#" (String c1 (String c2 (String c3 (String c4
      (String c5 (String c6 "")))))))
  = Ok (16 * v1 + v2, 16 * v3 + v4, 16 * v5 + v6) /\
  0 <= 16 * v1 + v2 <= 255 /\ 0 <= 16 * v3 + v4 <= 255 /\
  0 <= 16 * v5 + v6 <= 255.
Proof.
  intros H1 H2 H3 H4 H5 H6.
  pose proof (hex_digit_range _ _ H1). pose proof (hex_digit_range _ _ H2).
  pose proof (hex_digit_range _ _ H3). pose proof (hex_digit_range _ _ H4).
  pose proof (hex_digit_range _ _ H5). pose proof (hex_digit_range _ _ H6).
  split; [|lia].
  unfold get_color_from_hex, slice. cbn [substring Nat.sub].
  rewrite (int16_two_hex_digits _ _ _ _ H1 H2),
          (int16_two_hex_digits _ _ _ _ H3 H4),
          (int16_two_hex_digits _ _ _ _ H5 H6).
  cbn [bind]. unfold RGBColor. cbn [forallb].
  repeat match goal with
         | |- context [?a <=? ?b] =>
             destruct (Z.leb_spec a b); [|lia]
         end.
  reflexivity.
Qed.

Lemma C9_well_formed_hex_witness :
  get_color_from_hex "#1A2b3C" = Ok (26, 43, 60) /\
  0 <= 26 <= 255 /\ 0 <= 43 <= 255 /\ 0 <= 60 <= 255.
Proof.
  exact (C9_well_formed_hex "1" "A" "2" "b" "3" "C" 1 10 2 11 3 12
           eq_refl eq_refl eq_refl eq_refl eq_refl eq_refl).
Defined.

(** C9 as stated fails: a string of nine characters, and one that does not
    start with [#], are converted without any error; and where the code does
    fail, the exception is Python's [ValueError]. *)
Lemma C9_counterexample :
  String.length "#ff0000ff" <> 7%nat /\
  get_color_from_hex "#ff0000ff" = Ok (255, 0, 0) /\
  get_color_from_hex "xff0000" = Ok (255, 0, 0) /\
  (exists e, get_color_from_hex "red" = Err e /\
             exn_class e <> "MalformedColorError").
Proof.
  split; [cbn; lia|]. split; [reflexivity|]. split; [reflexivity|].
  eexists. split; [reflexivity|]. discriminate.
Qed.

(** ** Text nodes (C10) *)

(** A text node with a ["text"] key, marks that evaluate, a current paragraph
    and a string accumulator appends one element carrying its text to the
    current paragraph and its text to the accumulator. *)
Lemma parse_text_type_with_text pt (content_obj : node) (text : string)
    (output out' : option string) (st st' : state) :
  node_text content_obj = Some text ->
  parse_text_type pt content_obj output st = Ok (out', st') ->
  exists o i,
    output = Some o /\ out' = Some (o +:+ text) /\
    run_text (inline_run i) = text /\
    add_item i st = Ok (tt, st').
Proof.
  intros Ht. unfold parse_text_type. rewrite Ht.
  unfold bindM at 1, lift at 1.
  destruct (text_marks pt content_obj) as [s| |]; try discriminate.
  unfold bindM at 1, the_paragraph at 1.
  destruct (current_paragraph st) as [p|] eqn:Hp; try discriminate.
  unfold bindM at 1, read at 1. unfold bindM at 1, read at 1.
  unfold bindM at 1, read at 1.
  unfold bindM at 1.
  destruct (in_callout st).
  - unfold bindM at 1, lift at 1.
    destruct (shade_fill (callout_bg_color st)) as [fill| |]; try discriminate.
    unfold ret at 1. unfold bindM at 1.
    match goal with |- context [add_item ?i st] =>
      destruct (add_item i st) as [[[] st1]| |] eqn:Ha; try discriminate;
      unfold lift; destruct output as [o|]; cbn [add_str]; try discriminate;
      intros [= <- <-]; exists o, i; repeat split; try assumption;
      by destruct (is_hyperlink s)
    end.
  - unfold ret at 1. unfold bindM at 1.
    match goal with |- context [add_item ?i st] =>
      destruct (add_item i st) as [[[] st1]| |] eqn:Ha; try discriminate;
      unfold lift; destruct output as [o|]; cbn [add_str]; try discriminate;
      intros [= <- <-]; exists o, i; repeat split; try assumption;
      by destruct (is_hyperlink s)
    end.
Qed.

(** Without a ["text"] key the handler is the evaluation of the marks and
    nothing else. *)
Lemma parse_text_type_without_text pt (content_obj : node)
    (output : option string) (st : state) :
  node_text content_obj = None ->
  parse_text_type pt content_obj output st =
  match text_marks pt content_obj with
  | Ok _ => Ok (output, st)
  | Err e => Err e
  | OutOfFuel => OutOfFuel
  end.
Proof.
  intros Ht. unfold parse_text_type. rewrite Ht. unfold bindM, lift, ret.
  by destruct (text_marks pt content_obj).
Qed.

(** C10, as the code has it: a text node without a ["text"] key whose marks
    evaluate without an exception emits nothing, changes nothing in the
    traversal state and returns the accumulator as it was. *)
Theorem C10_text_without_text_key pt (content_obj : node) (s : text_style)
    (output : option string) (st : state) :
  node_text content_obj = None ->
  text_marks pt content_obj = Ok s ->
  parse_text_type pt content_obj output st = Ok (output, st).
Proof.
  intros Ht Hm. rewrite parse_text_type_without_text by exact Ht.
  by rewrite Hm.
Qed.

Lemma C10_text_without_text_key_witness :
  parse_text_type example_pt bold_without_text (Some "T")
    (start_document "T" initial_state)
  = Ok (Some "T", start_document "T" initial_state).
Proof.
  exact (C10_text_without_text_key example_pt bold_without_text _ (Some "T")
           (start_document "T" initial_state) eq_refl eq_refl).
Defined.

(** C10 as stated fails: the marks are evaluated before the ["text"] key is
    looked at, and a [font_color] mark whose colour does not parse raises
    although the node has no text. *)
Lemma C10_counterexample :
  node_text (colored_without_text "red") = None /\
  parse_text_type example_pt (colored_without_text "red") (Some "T")
    (start_document "T" initial_state)
  = Err (ValueError "invalid literal for int() with base 16").
Proof. split; reflexivity. Qed.

(** ** List containers (C5) *)

(** With a ["content"] key the counter is taken down by one after the
    content has been rendered. *)
Lemma parse_bullet_list_type_with_content
    (rec : list node -> option string -> M (option string))
    (content_obj : node) (content : list node) (output : option string)
    (st : state) :
  node_content content_obj = Some content ->
  parse_bullet_list_type rec content_obj output st =
  match rec content output
          (set_bullet_list_level (bullet_list_level st + 1)
             (set_list_type (Some "bullet") st)) with
  | Ok (result, st') =>
      Ok (result, set_bullet_list_level (bullet_list_level st' - 1) st')
  | Err e => Err e
  | OutOfFuel => OutOfFuel
  end.
Proof.
  intros Hc. unfold parse_bullet_list_type. rewrite Hc.
  unfold bindM, write, read, ret. cbn.
  by destruct (rec content output _) as [[]| |].
Qed.

(** C5 fails on the code: a list container without a ["content"] key returns
    before the decrement, and leaves its nesting counter one higher than it
    found it. *)
Theorem C5_list_without_content_keeps_level
    (rec : list node -> option string -> M (option string))
    (content_obj : node) (output : option string) (st : state) :
  node_content content_obj = None ->
  (exists st', parse_bullet_list_type rec content_obj output st = Ok (output, st')
               /\ bullet_list_level st' = bullet_list_level st + 1) /\
  (exists st', parse_ordered_list_type rec content_obj output st = Ok (output, st')
               /\ ordered_list_level st' = ordered_list_level st + 1) /\
  (exists st', parse_check_list_type rec content_obj output st = Ok (output, st')
               /\ check_list_level st' = check_list_level st + 1).
Proof.
  intros Hc. repeat split.
  - eexists. unfold parse_bullet_list_type. rewrite Hc.
    unfold bindM, write, read, ret. cbn. split; reflexivity.
  - eexists. unfold parse_ordered_list_type. rewrite Hc.
    unfold bindM, write, read, ret. cbn. split; reflexivity.
  - eexists. unfold parse_check_list_type. rewrite Hc.
    unfold bindM, write, read, ret. cbn. split; reflexivity.
Qed.

Lemma C5_list_without_content_keeps_level_witness :
  (exists st', parse_bullet_list_type
                 (parse_contents example_pt example_image_path 1)
                 (element "bullet_list" None None) (Some "T") initial_state
               = Ok (Some "T", st')
               /\ bullet_list_level st' = bullet_list_level initial_state + 1) /\
  (exists st', parse_ordered_list_type
                 (parse_contents example_pt example_image_path 1)
                 (element "bullet_list" None None) (Some "T") initial_state
               = Ok (Some "T", st')
               /\ ordered_list_level st' = ordered_list_level initial_state + 1) /\
  (exists st', parse_check_list_type
                 (parse_contents example_pt example_image_path 1)
                 (element "bullet_list" None None) (Some "T") initial_state
               = Ok (Some "T", st')
               /\ check_list_level st' = check_list_level initial_state + 1).
Proof.
  exact (C5_list_without_content_keeps_level
           (parse_contents example_pt example_image_path 1)
           (element "bullet_list" None None) (Some "T") initial_state eq_refl).
Defined.

(** The whole walk over [{"type": "bullet_list"}] leaves the counter at 1. *)
Example empty_bullet_list_leaks :
  (fun r => match r with
            | Ok (_, st) => Some (bullet_list_level st)
            | _ => None
            end)
    (parse_contents example_pt example_image_path 1
       [element "bullet_list" None None] (Some "T")
       (start_document "T" initial_state))
  = Some 1.
Proof. reflexivity. Qed.

(** ** Missing keys (C8) *)

(** C8 fails on the code: an image node without [attrs], or without
    [attrs.fileName], makes [parse_image_type] end without a [return]: the
    accumulator handed back is [None], not the string it was given. *)
Theorem C8_image_without_file_name
    (get_image_path : string -> option string)
    (content_obj : node) (output : option string) (st : state) :
  node_attr content_obj "fileName" = None ->
  parse_image_type get_image_path content_obj output st = Ok (None, st).
Proof.
  intros H. unfold parse_image_type. by rewrite H.
Qed.

Lemma C8_image_without_file_name_witness :
  parse_image_type example_image_path (element "image" None None) (Some "T")
    (start_document "T" initial_state)
  = Ok (None, start_document "T" initial_state).
Proof.
  exact (C8_image_without_file_name example_image_path
           (element "image" None None) (Some "T")
           (start_document "T" initial_state) eq_refl).
Defined.

(** The paragraph that holds such an image then fails on [None + "\n"]. *)
Example image_without_attrs_in_paragraph_fails :
  parse_contents example_pt example_image_path 2
    [element "paragraph" None (Some [element "image" None None])] (Some "T")
    (start_document "T" initial_state)
  = Err (TypeError "unsupported operand type(s) for +: 'NoneType' and 'str'").
Proof. reflexivity. Qed.

(** A table node without a ["content"] key is an error as well. *)
Example table_without_content_fails :
  parse_contents example_pt example_image_path 1
    [element "table" None None] (Some "T")
    (start_document "T" initial_state)
  = Err (KeyError "content").
Proof. reflexivity. Qed.

(** ** Ordered lists restart their count *)

Lemma get_ordered_list_char_first (d : Z) :
  get_ordered_list_char d 1 = Ok (first_marker d).
Proof.
  unfold get_ordered_list_char, first_marker.
  destruct (d mod 3 =? 1); [reflexivity|].
  destruct (d mod 3 =? 2); reflexivity.
Qed.

(** Entering an ordered list at depth [d] sets the counter of depth [d] to
    0, whatever an earlier list left there, and the first list item of the
    list takes it to 1: its content is rendered after the marker of ordinal
    1 (["1."], ["a."] or ["i."] by the depth) has been put on the shadow
    text, in a state whose counter for [d] is 1.  The right-hand side spells
    out the rest of the handler: the remaining items, then the decrement of
    the depth. *)
Lemma ordered_list_first_item pt ip (fuel : nat)
    (list_node item : node) (rest ic : list node) (o : string) (st : state) :
  node_content list_node = Some (item :: rest) ->
  node_type item = Some "list_item" ->
  node_content item = Some ic ->
  let d := ordered_list_level st + 1 in
  let entered :=
    set_list_depths (<[d := 0]> (list_depths st))
      (set_ordered_list_level d (set_list_type (Some "ordered") st)) in
  let at_item :=
    set_in_ordered_list_item true
      (set_list_depths (<[d := 1]> (list_depths st))
         (set_ordered_list_level d (set_list_type (Some "ordered") st))) in
  list_depths entered !! d = Some 0 /\
  list_depths at_item !! d = Some 1 /\
  parse_ordered_list_type (parse_contents pt ip (S fuel)) list_node (Some o) st =
  (let! result :=
     parse_contents pt ip fuel ic
       (Some (o +:+ (repeat_string "  " (Z.to_nat d) +:+ first_marker d +:+ " "))) in
   write (set_in_bullet_list_item false) ;;
   write (set_in_ordered_list_item false) ;;
   let! result :=
     for_eachM rest (fun output content_obj =>
       match node_type content_obj with
       | Some type =>
           parse_content_type pt ip (parse_contents pt ip fuel)
             content_obj type output
       | None => ret output
       end) result in
   let! level := read ordered_list_level in
   write (set_ordered_list_level (level - 1)) ;;
   ret result) at_item.
Proof.
  intros Hl Hty Hic d entered at_item.
  split; [apply lookup_insert_eq|]. split; [apply lookup_insert_eq|].
  unfold parse_ordered_list_type. rewrite Hl.
  unfold bindM at 1, write at 1. unfold bindM at 1, read at 1.
  unfold bindM at 1, write at 1. unfold bindM at 1, read at 1.
  unfold bindM at 1, write at 1.
  cbn [parse_contents for_eachM]. rewrite Hty.
  change (parse_content_type pt ip (parse_contents pt ip fuel) item "list_item")
    with (parse_list_item_type (parse_contents pt ip fuel) item).
  change (set_list_depths _ _) with entered.
  unfold parse_list_item_type. rewrite Hic.
  unfold bindM, read, write, ret, lift.
  change (list_type entered) with (Some "ordered").
  destruct (decide (Some "ordered" = Some "ordered")) as [_|]; [|done].
  destruct (decide (Some "ordered" = Some "bullet")) as [|_]; [done|].
  change (ordered_list_level entered) with d.
  change (list_depths entered) with (<[d:=0]> (list_depths st)).
  rewrite lookup_insert_eq. cbn [getitem].
  change (ordered_list_level (set_list_depths _ entered)) with d.
  change (list_depths (set_list_depths ?m entered)) with m.
  rewrite lookup_insert_eq, insert_insert_eq. cbn [getitem].
  rewrite get_ordered_list_char_first. cbn [add_str].
  change (set_in_ordered_list_item true (set_list_depths _ entered))
    with at_item.
  destruct (parse_contents pt ip fuel ic _ at_item) as [[result st1]| |];
    reflexivity.
Qed.

(** Two ordered lists in a row: the second starts at 1 again, in the shadow
    text and in the marker runs of the document. *)
Example second_ordered_list_restarts :
  match parse_contents example_pt example_image_path 4 two_ordered_lists
          (Some "") (start_document "T" initial_state) with
  | Ok (output, st) => (output, rendered_runs st)
  | _ => (None, [])
  end
  = (Some ("  1. a" +:+ newline +:+ "  2. b" +:+ newline +:+ "  1. c" +:+ newline),
     [[("T", false)]; [("1. ", false); ("a", false)];
      [("2. ", false); ("b", false)]; [("1. ", false); ("c", false)]]).
Proof. vm_compute. reflexivity. Qed.

(** ** Strikethrough of checked items (C7) *)

Lemma runs_strike_after_check (b : bool) (items : list inline) :
  runs (strike_after_check b items) = strike_runs b (runs items).
Proof.
  revert b. induction items as [|[r|u r] items IH]; intros b; [done| |].
  - cbn [strike_after_check]. destruct b; cbn; by rewrite IH.
  - cbn. apply IH.
Qed.

Lemma strike_runs_found (rs : list run) :
  strike_runs true rs = with_strike <$> rs.
Proof. induction rs as [|r rs IH]; [done|]. cbn. by rewrite IH. Qed.

Lemma strike_runs_split (pre : list run) (g : run) (post : list run) :
  Forall (fun r => contains BALLOT_BOX_CHECKED (run_text r) = false) pre ->
  contains BALLOT_BOX_CHECKED (run_text g) = true ->
  strike_runs false (pre ++ g :: post) = pre ++ g :: (with_strike <$> post).
Proof.
  intros Hpre Hg. induction Hpre as [|r pre Hr _ IH].
  - cbn [app strike_runs]. by rewrite Hg, strike_runs_found.
  - cbn [app strike_runs]. by rewrite Hr, IH.
Qed.

Lemma struck_with_strike (rs : list run) :
  Forall2 struck rs (with_strike <$> rs).
Proof.
  induction rs as [|r rs IH]; constructor; [|exact IH].
  unfold struck. cbn. repeat split.
Qed.

Lemma strike_runs_no_check (rs : list run) :
  Forall (fun r => contains BALLOT_BOX_CHECKED (run_text r) = false) rs ->
  strike_runs false rs = rs.
Proof.
  induction 1 as [|r rs Hr _ IH]; [done|]. cbn. by rewrite Hr, IH.
Qed.

Lemma current_items_nonempty (st : state) (items : list inline) :
  current_items st = items -> items <> [] ->
  exists p pa, current_paragraph st = Some p /\
               doc_paragraphs (document st) !! p = Some pa /\
               para_items pa = items.
Proof.
  unfold current_items. intros H Hne.
  destruct (current_paragraph st) as [p|]; [|congruence].
  destruct (doc_paragraphs (document st) !! p) as [pa|] eqn:E; [|congruence].
  eauto.
Qed.

Lemma update_runs_items (f : list inline -> list inline) (st : state)
    (p : nat) (pa : paragraph) :
  current_paragraph st = Some p ->
  doc_paragraphs (document st) !! p = Some pa ->
  exists st', update_runs f st = Ok (tt, st') /\
              current_items st' = f (para_items pa).
Proof.
  intros Hp Hpa. unfold update_runs, bindM, the_paragraph, write. rewrite Hp.
  eexists. split; [reflexivity|].
  unfold current_items. cbn. rewrite Hp. cbn.
  rewrite list_lookup_alter, Hpa. by destruct (decide (p = p)).
Qed.

(** The strikethrough step of [parse_check_list_item_type], as a function of
    the state [st1] in which the rendering of the item's content returns. *)
Lemma strikethrough_step
    (rec : list node -> option string -> M (option string))
    (content_obj : node) (content : list node) (o : string) (st : state)
    (res : option string) (st1 : state) :
  node_content content_obj = Some content ->
  let st0 :=
    set_in_check_list_item true
      match node_attr content_obj "checked" with
      | Some v => set_is_check_list_item_checked (truthy v) st
      | None => st
      end in
  let glyph :=
    if is_check_list_item_checked st0 then BALLOT_BOX_CHECKED else BALLOT_BOX in
  rec content
      (Some (o +:+ (repeat_string "  " (Z.to_nat (check_list_level st))
                    +:+ glyph +:+ " "))) st0
  = Ok (res, st1) ->
  (is_check_list_item_checked st1 = true ->
   forall (pre : list run) (g : run) (post : list run),
     runs (current_items st1) = pre ++ g :: post ->
     Forall (fun r => contains BALLOT_BOX_CHECKED (run_text r) = false) pre ->
     contains BALLOT_BOX_CHECKED (run_text g) = true ->
     exists st2 post',
       parse_check_list_item_type rec content_obj (Some o) st = Ok (res, st2)
       /\ runs (current_items st2) = pre ++ g :: post'
       /\ Forall2 struck post post') /\
  (is_check_list_item_checked st1 = false ->
   parse_check_list_item_type rec content_obj (Some o) st
   = Ok (res, set_in_check_list_item false st1)).
Proof.
  intros Hc st0 glyph Hrec.
  assert (Hrun : parse_check_list_item_type rec content_obj (Some o) st =
    (write (set_in_check_list_item false) ;;
     let! checked := read is_check_list_item_checked in
     (if checked then
        let! _ := the_paragraph in
        let! items := read current_items in
        if decide (1 < length (runs items))%nat
        then update_runs (strike_after_check false)
        else ret tt
      else ret tt) ;;
     ret res) st1).
  { unfold parse_check_list_item_type. rewrite Hc.
    unfold bindM at 1.
    assert (E : match node_attr content_obj "checked" with
                | Some v => write (set_is_check_list_item_checked (truthy v))
                | None => ret tt
                end st
                = Ok (tt, match node_attr content_obj "checked" with
                          | Some v => set_is_check_list_item_checked (truthy v) st
                          | None => st
                          end)).
    { by destruct (node_attr content_obj "checked"). }
    rewrite E. clear E.
    unfold bindM at 1, read at 1. unfold bindM at 1, read at 1.
    unfold bindM at 1, lift at 1. cbn [add_str].
    unfold bindM at 1, write at 1. unfold bindM at 1.
    match goal with
    | |- context [rec content ?a ?s] =>
        replace (rec content a s) with (Ok (res, st1))
    end.
    - reflexivity.
    - rewrite <- Hrec. subst st0 glyph.
      by destruct (node_attr content_obj "checked"). }
  rewrite Hrun. clear Hrun Hrec.
  assert (Hstep : forall b, is_check_list_item_checked st1 = b ->
    (write (set_in_check_list_item false) ;;
     let! checked := read is_check_list_item_checked in
     (if checked then
        let! _ := the_paragraph in
        let! items := read current_items in
        if decide (1 < length (runs items))%nat
        then update_runs (strike_after_check false)
        else ret tt
      else ret tt) ;;
     ret res) st1 =
    ((if b then
        let! _ := the_paragraph in
        let! items := read current_items in
        if decide (1 < length (runs items))%nat
        then update_runs (strike_after_check false)
        else ret tt
      else ret tt) ;;
     ret res) (set_in_check_list_item false st1)).
  { intros b <-. reflexivity. }
  split.
  - intros Hflag pre g post Hruns Hpre Hg. rewrite (Hstep _ Hflag).
    assert (Hne : current_items st1 <> []).
    { intros E. rewrite E in Hruns. by destruct pre. }
    destruct (current_items_nonempty st1 _ eq_refl Hne) as (p & pa & Hp & Hpa & Hi).
    unfold bindM at 1. unfold bindM at 1, the_paragraph at 1.
    change (current_paragraph (set_in_check_list_item false st1))
      with (current_paragraph st1). rewrite Hp.
    unfold bindM at 1, read at 1.
    change (current_items (set_in_check_list_item false st1))
      with (current_items st1).
    destruct (decide (1 < length (runs (current_items st1)))%nat) as [Hlen|Hlen].
    + destruct (update_runs_items (strike_after_check false)
                  (set_in_check_list_item false st1) p pa Hp Hpa)
        as (st2 & Hup & Hitems).
      rewrite Hup. exists st2, (with_strike <$> post).
      split; [reflexivity|]. split; [|apply struck_with_strike].
      rewrite Hitems, Hi, runs_strike_after_check, Hruns.
      by apply strike_runs_split.
    + exists (set_in_check_list_item false st1), [].
      split; [reflexivity|].
      change (current_items (set_in_check_list_item false st1))
        with (current_items st1).
      rewrite Hruns in Hlen |- *. rewrite length_app in Hlen. cbn in Hlen.
      destruct pre; [|cbn in Hlen; lia].
      destruct post; [by split; [|constructor]|cbn in Hlen; lia].
  - intros Hflag. rewrite (Hstep _ Hflag). reflexivity.
Qed.

(** C7, as the code has it.  [st0] is the state in which the item's content
    is rendered (the checked flag set from [attrs.checked] when the key is
    there) and [st1] the state in which that rendering returns.  When the
    checked flag is set in [st1], every run of the current paragraph after
    the first run that holds the checked-box glyph is marked strikethrough
    ([run_strike] is [true], and the run is otherwise as it was) and the
    runs up to it are left alone; when the flag is clear in [st1], the step
    changes no run.  The flag in [st1] is the one of [st0] unless
    a nested check-list item has assigned it. *)
Theorem C7_strikethrough_after_check
    (rec : list node -> option string -> M (option string))
    (content_obj : node) (content : list node) (o : string) (st : state)
    (res : option string) (st1 : state) :
  node_content content_obj = Some content ->
  let st0 :=
    set_in_check_list_item true
      match node_attr content_obj "checked" with
      | Some v => set_is_check_list_item_checked (truthy v) st
      | None => st
      end in
  let glyph :=
    if is_check_list_item_checked st0 then BALLOT_BOX_CHECKED else BALLOT_BOX in
  rec content
      (Some (o +:+ (repeat_string "  " (Z.to_nat (check_list_level st))
                    +:+ glyph +:+ " "))) st0
  = Ok (res, st1) ->
  (is_check_list_item_checked st1 = true ->
   forall (pre : list run) (g : run) (post : list run),
     runs (current_items st1) = pre ++ g :: post ->
     Forall (fun r => contains BALLOT_BOX_CHECKED (run_text r) = false) pre ->
     contains BALLOT_BOX_CHECKED (run_text g) = true ->
     exists st2 post',
       parse_check_list_item_type rec content_obj (Some o) st = Ok (res, st2)
       /\ runs (current_items st2) = pre ++ g :: post'
       /\ Forall2 struck post post') /\
  (is_check_list_item_checked st1 = false ->
   parse_check_list_item_type rec content_obj (Some o) st
   = Ok (res, set_in_check_list_item false st1)).
Proof.
  intros Hc st0 glyph Hrec.
  exact (strikethrough_step rec content_obj content o st res st1 Hc Hrec).
Qed.

Lemma C7_strikethrough_after_check_witness :
  exists st2,
    parse_check_list_item_type
      (parse_contents example_pt example_image_path 2)
      checked_item (Some "T") in_check_list
    = Ok (Some ("T  ☑ de" +:+ newline), st2) /\
    (fun r => (run_text r, run_strike r)) <$> runs (current_items st2)
    = [("☑ ", false); ("d", true); ("e", true)].
Proof.
  assert (Hrec :
    parse_contents example_pt example_image_path 2
      [element "paragraph" None (Some [text_node "d" None; text_node "e" None])]
      (Some ("T" +:+ (repeat_string "  " (Z.to_nat (check_list_level in_check_list))
                      +:+ BALLOT_BOX_CHECKED +:+ " ")))
      (set_in_check_list_item true
         (set_is_check_list_item_checked (truthy (JBool true)) in_check_list))
    = Ok (Some ("T  ☑ de" +:+ newline), checked_item_rendered)).
  { vm_compute. reflexivity. }
  destruct (C7_strikethrough_after_check
              (parse_contents example_pt example_image_path 2)
              checked_item _ "T" in_check_list _ _ eq_refl Hrec)
    as [Hchecked _].
  destruct (Hchecked eq_refl [] (plain_run "☑ ")
              [helvetica_run "d"; helvetica_run "e"])
    as (st2 & post' & Hrun & Hruns & Hstruck).
  - vm_compute. reflexivity.
  - constructor.
  - vm_compute. reflexivity.
  - exists st2. split; [exact Hrun|]. rewrite Hruns.
    apply Forall2_cons_inv_l in Hstruck
      as (d & post1 & (Hd & Htd & _) & Hstruck & ->).
    apply Forall2_cons_inv_l in Hstruck
      as (e & post2 & (He & Hte & _) & Hstruck & ->).
    apply Forall2_nil_inv_l in Hstruck as ->.
    cbn. by rewrite Hd, Htd, He, Hte.
Defined.

(** C7 as stated fails: the checked flag is one global variable, and a nested
    check-list item that declares [checked = false] clears it before the
    strikethrough step of the enclosing item runs.  The item below is
    checked, its paragraph holds the run ["a"] after the glyph run, and that
    run is not struck through. *)
Lemma C7_counterexample :
  node_attr checked_item_with_nested "checked" = Some (JBool true) /\
  match parse_contents example_pt example_image_path 3
          [checked_item_with_nested] (Some "T") in_check_list with
  | Ok (_, st) =>
      (fun r => (run_text r, run_strike r)) <$> runs (current_items st)
  | _ => []
  end = [("☑ ", false); ("a", false)].
Proof. split; vm_compute; reflexivity. Qed.

(** ** Table geometry (C3, C4) *)

Lemma for_range_inv {St : Type} (P : nat -> St -> Prop) (E : exn -> Prop)
    (body : nat -> St -> result St) (count start : nat) (s : St) :
  P start s ->
  (forall t s, (start <= t < start + count)%nat -> P t s ->
     match body t s with
     | Ok s' => P (S t) s'
     | Err e => E e
     | OutOfFuel => False
     end) ->
  match for_range start count body s with
  | Ok s' => P (start + count)%nat s'
  | Err e => E e
  | OutOfFuel => False
  end.
Proof.
  revert start s. induction count as [|count IH]; intros start s Hs Hbody.
  - cbn. by rewrite Nat.add_0_r.
  - cbn [for_range]. specialize (Hbody start s ltac:(lia) Hs) as Hb.
    destruct (body start s) as [s'| |]; cbn [bind]; [|done|done].
    replace (start + S count)%nat with (S start + count)%nat by lia.
    apply IH; [done|]. intros t s0 Ht. apply Hbody. lia.
Qed.

(** *** The tracking table *)

Lemma shaped_fresh (r c : nat) :
  shaped r c (get_cell_tracking_table (Z.of_nat r) (Z.of_nat c)).
Proof.
  unfold get_cell_tracking_table, shaped. rewrite !Nat2Z.id.
  split; [apply length_replicate|].
  apply Forall_replicate. apply length_replicate.
Qed.

Lemma occupied_fresh (r c : nat) (p : nat * nat) :
  occupied (get_cell_tracking_table (Z.of_nat r) (Z.of_nat c)) p = false.
Proof.
  unfold get_cell_tracking_table, occupied. rewrite !Nat2Z.id.
  destruct (replicate r (replicate c false) !! p.1) as [row|] eqn:E; [|done].
  apply lookup_replicate in E as [-> _]. cbn.
  destruct (replicate c false !! p.2) as [b|] eqn:E; [|done].
  by apply lookup_replicate in E as [-> _].
Qed.

Lemma shaped_row (r c : nat) (t : list (list bool)) (i : nat) :
  shaped r c t -> (i < r)%nat ->
  exists row, t !! i = Some row /\ length row = c.
Proof.
  intros [Hl Hr] Hi.
  destruct (lookup_lt_is_Some_2 t i ltac:(lia)) as [row Hrow].
  exists row. split; [done|].
  rewrite Forall_forall in Hr. apply Hr. eapply list_elem_of_lookup_2, Hrow.
Qed.

Lemma tracking_get_shaped (r c : nat) (t : list (list bool)) (i j : nat) :
  shaped r c t -> (i < r)%nat -> (j < c)%nat ->
  tracking_get t i j = Ok (occupied t (i, j)).
Proof.
  intros Hs Hi Hj. destruct (shaped_row r c t i Hs Hi) as (row & Hrow & Hlen).
  unfold tracking_get, occupied. cbn. rewrite Hrow. cbn.
  destruct (lookup_lt_is_Some_2 row j ltac:(lia)) as [b Hb]. by rewrite Hb.
Qed.

Lemma tracking_set_shaped (r c : nat) (t : list (list bool)) (i j : nat) :
  shaped r c t -> (i < r)%nat -> (j < c)%nat ->
  exists t', tracking_set t i j = Ok t' /\ shaped r c t' /\
    forall p, occupied t' p = ((p.1 =? i) && (p.2 =? j))%nat || occupied t p.
Proof.
  intros Hs Hi Hj. destruct (shaped_row r c t i Hs Hi) as (row & Hrow & Hlen).
  unfold tracking_set. rewrite Hrow.
  destruct (decide (j < length row)%nat) as [_|]; [|lia].
  eexists. split; [reflexivity|]. destruct Hs as [Hl Hr]. split.
  - split; [by rewrite length_insert|].
    apply Forall_insert; [done|]. by rewrite length_insert.
  - intros [a b]. unfold occupied. cbn.
    destruct (Nat.eqb_spec a i) as [->|Hne].
    + rewrite list_lookup_insert_eq by lia. cbn.
      destruct (Nat.eqb_spec b j) as [->|Hne'].
      * rewrite list_lookup_insert_eq by lia. done.
      * rewrite list_lookup_insert_ne by done. by rewrite Hrow.
    + rewrite list_lookup_insert_ne by done. done.
Qed.

Ltac compare_cases :=
  repeat match goal with
         | |- context [(?a =? ?b)%nat] => destruct (Nat.eqb_spec a b)
         | |- context [(?a <=? ?b)%nat] => destruct (Nat.leb_spec a b)
         | |- context [(?a <? ?b)%nat] => destruct (Nat.ltb_spec a b)
         | |- context [(?a <=? ?b)%Z] => destruct (Z.leb_spec a b)
         | |- context [(?a <? ?b)%Z] => destruct (Z.ltb_spec a b)
         end;
  cbn; try lia; try done.

Lemma for_range_ok {St : Type} (P : nat -> St -> Prop)
    (body : nat -> St -> result St) (count start : nat) (s : St) :
  P start s ->
  (forall t s, (start <= t < start + count)%nat -> P t s ->
     exists s', body t s = Ok s' /\ P (S t) s') ->
  exists s', for_range start count body s = Ok s' /\ P (start + count)%nat s'.
Proof.
  intros Hs Hbody.
  pose proof (for_range_inv P (fun _ => False) body count start s Hs) as H.
  destruct (for_range start count body s) as [s'| |].
  - exists s'. split; [done|]. apply H. intros t s0 Ht H0.
    by destruct (Hbody t s0 Ht H0) as (s1 & -> & H1).
  - exfalso. apply H. intros t s0 Ht H0.
    by destruct (Hbody t s0 Ht H0) as (s1 & -> & H1).
  - exfalso. apply H. intros t s0 Ht H0.
    by destruct (Hbody t s0 Ht H0) as (s1 & -> & H1).
Qed.

(** The two marking loops set the rectangle and nothing else. *)
Lemma mark_row (r c : nat) (t : list (list bool)) (i j cs : nat) :
  shaped r c t -> (i < r)%nat -> (j + cs <= c)%nat ->
  exists t',
    for_range j cs (fun i_c tracking => tracking_set tracking i i_c) t = Ok t' /\
    shaped r c t' /\
    forall p, occupied t' p =
              ((p.1 =? i) && (j <=? p.2) && (p.2 <? j + cs))%nat || occupied t p.
Proof.
  intros Hs Hi Hj.
  apply (for_range_ok
    (fun k t' => shaped r c t' /\
       forall p, occupied t' p =
                 ((p.1 =? i) && (j <=? p.2) && (p.2 <? k))%nat || occupied t p)).
  - split; [done|]. intros p. destruct (occupied t p); compare_cases.
  - intros k t0 Hk [Hs0 Ho].
    destruct (tracking_set_shaped r c t0 i k Hs0 Hi ltac:(lia))
      as (t1 & -> & Hs1 & Ho1).
    eexists. split; [done|]. split; [done|]. intros p. rewrite Ho1, Ho.
    destruct (occupied t p); compare_cases.
Qed.

Lemma mark_rectangle (r c : nat) (t : list (list bool)) (i j rs cs : nat) :
  shaped r c t -> (i + rs <= r)%nat -> (j + cs <= c)%nat ->
  exists t',
    for_range i rs (fun i_r tracking =>
      for_range j cs (fun i_c tracking => tracking_set tracking i_r i_c)
                tracking) t = Ok t' /\
    shaped r c t' /\
    forall p, occupied t' p =
              ((i <=? p.1) && (p.1 <? i + rs) &&
               (j <=? p.2) && (p.2 <? j + cs))%nat || occupied t p.
Proof.
  intros Hs Hi Hj.
  apply (for_range_ok
    (fun k t' => shaped r c t' /\
       forall p, occupied t' p =
                 ((i <=? p.1) && (p.1 <? k) &&
                  (j <=? p.2) && (p.2 <? j + cs))%nat || occupied t p)).
  - split; [done|]. intros p. destruct (occupied t p); compare_cases.
  - intros k t0 Hk [Hs0 Ho].
    destruct (mark_row r c t0 k j cs Hs0 ltac:(lia) Hj) as (t1 & -> & Hs1 & Ho1).
    eexists. split; [done|]. split; [done|]. intros p. rewrite Ho1, Ho.
    destruct (occupied t p); compare_cases.
Qed.

(** *** Coverage and order *)

Lemma cover_count_app (l1 l2 : list placed) (p : nat * nat) :
  cover_count (l1 ++ l2) p = (cover_count l1 p + cover_count l2 p)%nat.
Proof. unfold cover_count. by rewrite List.filter_app, length_app. Qed.

Lemma cover_count_elem (l : list placed) (x : placed) (p : nat * nat) :
  x ∈ l -> covers x p = true -> (0 < cover_count l p)%nat.
Proof.
  intros Hx Hc. induction Hx as [x l|x y l _ IH]; unfold cover_count; cbn.
  - rewrite Hc. cbn. lia.
  - destruct (covers y p); cbn; [lia|]. by apply IH.
Qed.

Lemma cover_count_pos (l : list placed) (p : nat * nat) :
  (0 < cover_count l p)%nat -> exists x, x ∈ l /\ covers x p = true.
Proof.
  unfold cover_count. induction l as [|y l IH]; cbn; [lia|].
  destruct (covers y p) eqn:E.
  - intros _. exists y. split; [left|done].
  - intros H. destruct (IH H) as (x & Hx & Hc). exists x. split; [by right|done].
Qed.

Lemma covered_count (l : list placed) (p : nat * nat) :
  covered l p = negb (cover_count l p =? 0)%nat.
Proof.
  unfold covered, cover_count. induction l as [|y l IH]; [done|]. cbn.
  destruct (covers y p); cbn; [done|]. apply IH.
Qed.

Lemma covered_app (l1 l2 : list placed) (p : nat * nat) :
  covered (l1 ++ l2) p = covered l1 p || covered l2 p.
Proof. unfold covered. apply existsb_app. Qed.

Lemma covered_singleton (x : placed) (p : nat * nat) :
  covered [x] p = covers x p.
Proof. unfold covered. cbn. apply orb_false_r. Qed.

Lemma rm_ltb_irrefl (a : nat * nat) : rm_ltb a a = false.
Proof. unfold rm_ltb. compare_cases. Qed.

Lemma strictly_increasing_app_r (l1 l2 : list (nat * nat)) :
  strictly_increasing (l1 ++ l2) = true -> strictly_increasing l2 = true.
Proof.
  induction l1 as [|o l1 IH]; [done|]. cbn [app strictly_increasing].
  intros [_ H]%andb_true_iff. by apply IH.
Qed.

Lemma strictly_increasing_head (o : nat * nat) (l : list (nat * nat))
    (o' : nat * nat) :
  strictly_increasing (o :: l) = true -> o' ∈ l -> rm_ltb o o' = true.
Proof.
  cbn [strictly_increasing]. intros [H _]%andb_true_iff Ho.
  rewrite forallb_forall in H. apply H. by apply list_elem_of_In.
Qed.

(** A rectangle of the grid covers its own origin, and what it covers is not
    before its origin. *)
Lemma covers_origin (r c : nat) (x : placed) :
  in_grid r c x = true -> covers x x.2 = true.
Proof. unfold in_grid, covers. compare_cases. Qed.

Lemma covers_ge (x : placed) (p : nat * nat) :
  covers x p = true -> rm_ltb x.2 p = false -> x.2 = p.
Proof.
  unfold covers, rm_ltb. destruct x as [cell [a b]], p as [i j].
  cbn [fst snd]. compare_cases; intros; try discriminate; f_equal; lia.
Qed.

Lemma in_grid_origin (r c : nat) (x : placed) :
  in_grid r c x = true -> (x.2.1 < r)%nat /\ (x.2.2 < c)%nat.
Proof. unfold in_grid. compare_cases. Qed.

(** What the resolver reads from a declaration that fits a grid is the
    span its attributes declare. *)
Lemma in_grid_spans (r c : nat) (x : placed) :
  in_grid r c x = true -> cell_spans x.1 = Ok (spans_of x.1).
Proof.
  unfold in_grid, spans_of, declared, cell_spans, node_attr.
  destruct (node_attrs x.1) as [attrs|]; [|done]. cbn [mbind option_bind fst snd].
  destruct (attrs !! "rowspan") as [[|[]|n|s]|];
    destruct (attrs !! "colspan") as [[|[]|n'|s']|]; cbn; try done;
    rewrite !andb_true_iff; intros [[[H1 H2] _] _]; done.
Qed.

Lemma cell_spans_set_idx (i j : nat) (cell : node) :
  cell_spans (set_idx i j cell) = cell_spans cell.
Proof. reflexivity. Qed.

Lemma pop_rev_cons {A : Type} (x : A) (l : list A) :
  pop (rev (x :: l)) = Ok (x, rev l).
Proof. unfold pop. by rewrite rev_involutive. Qed.

Lemma dict_set_fresh {K V : Type} `{EqDecision K} (key : K) (value : V)
    (d : list (K * V)) :
  Forall (fun kv => kv.1 <> key) d ->
  dict_set key value d = d ++ [(key, value)].
Proof.
  induction 1 as [|[k v] d Hk _ IH]; [done|]. cbn.
  destruct (decide (k = key)); [done|]. by rewrite IH.
Qed.

Lemma merges_of_app (l1 l2 : list placed) :
  merges_of (l1 ++ l2) = merges_of l1 ++ merges_of l2.
Proof. unfold merges_of. by rewrite List.filter_app, fmap_app. Qed.

Lemma merges_of_keys (l : list placed) (key : nat * nat) :
  (forall x, x ∈ l -> rm_ltb x.2 key = true) ->
  Forall (fun kv => kv.1 <> key) (merges_of l).
Proof.
  intros H. unfold merges_of. rewrite Forall_fmap. apply Forall_forall.
  intros x Hx%list_elem_of_In%filter_In. destruct Hx as [Hx%list_elem_of_In _].
  cbn. intros E. specialize (H x Hx). rewrite E, rm_ltb_irrefl in H. done.
Qed.

(** *** The scan over a tiling

    [pl] is a list of placed declarations that tiles the grid; the cells
    handed to the resolver are the declarations of [pl] without those of its
    final part [missing]. *)

Section Scan.

Variables (r c : nat) (pl missing : list placed).

Hypothesis Hgrid : forall x, x ∈ pl -> in_grid r c x = true.
Hypothesis Hcover :
  forall p, (p.1 < r)%nat -> (p.2 < c)%nat -> cover_count pl p = 1%nat.
Hypothesis Hsorted : strictly_increasing (pl.*2) = true.

(** The state of the scan when it is about to look at [pos]: [done] are the
    declarations placed so far, [todo] those still in the queue. *)
Record scan_inv (pos : nat * nat) (s : resolver) (done todo : list placed)
    : Prop := {
  inv_pl : pl = done ++ todo ++ missing;
  inv_queue : table_cell_objs_copy s = rev (todo.*1);
  inv_cells : table_cell_objs s = with_origins done;
  inv_merges : cell_merges s = merges_of done;
  inv_shape : shaped r c (cell_tracking s);
  inv_occupied : forall p, (p.1 < r)%nat -> (p.2 < c)%nat ->
    occupied (cell_tracking s) p = rm_ltb p pos || covered done p;
  inv_todo : forall x, x ∈ todo ++ missing -> rm_ltb x.2 pos = false;
  inv_done : forall x, x ∈ done -> rm_ltb x.2 pos = true;
}.

Definition scan_post (pos : nat * nat) (res : result resolver) : Prop :=
  match res with
  | Ok s => exists done todo, scan_inv pos s done todo
  | Err e => e = pop_error /\ missing <> []
  | OutOfFuel => False
  end.

(** The first declaration not yet placed is the one that covers the first
    free coordinate, and that coordinate is its origin. *)
Lemma next_origin (done rest : list placed) (pos : nat * nat) :
  pl = done ++ rest ->
  (forall x, x ∈ rest -> rm_ltb x.2 pos = false) ->
  (exists x, x ∈ rest /\ covers x pos = true) ->
  exists h rest', rest = h :: rest' /\ h.2 = pos.
Proof.
  intros Hpl Hrest (x & Hx & Hc).
  destruct rest as [|h rest']; [by apply elem_of_nil in Hx|].
  exists h, rest'. split; [done|].
  pose proof (covers_ge x pos Hc (Hrest x Hx)) as Ex.
  apply elem_of_cons in Hx as [<-|Hx]; [done|].
  exfalso.
  assert (Hs : strictly_increasing ((h :: rest').*2) = true).
  { rewrite Hpl, fmap_app in Hsorted.
    by apply strictly_increasing_app_r in Hsorted. }
  assert (Hlt : rm_ltb h.2 x.2 = true).
  { apply (strictly_increasing_head h.2 (rest'.*2)); [done|].
    by apply list_elem_of_fmap_2. }
  rewrite Ex, (Hrest h) in Hlt; [done|left].
Qed.

Lemma rm_ltb_next (p : nat * nat) (i j : nat) :
  p <> (i, j) -> rm_ltb p (i, S j) = rm_ltb p (i, j).
Proof.
  destruct p as [a b]. intros Hne.
  assert (a <> i \/ b <> j) by
    (destruct (decide (a = i)), (decide (b = j)); subst; auto; congruence).
  unfold rm_ltb. cbn [fst snd]. compare_cases.
Qed.

Lemma visit_step (i j : nat) (s : resolver) (done todo : list placed) :
  (i < r)%nat -> (j < c)%nat ->
  scan_inv (i, j) s done todo -> scan_post (i, S j) (visit i j s).
Proof.
  intros Hi Hj [Hpl Hq Hcells Hm Hs Ho Ht Hd].
  unfold visit. rewrite (tracking_get_shaped r c _ i j Hs Hi Hj). cbn [bind].
  rewrite (Ho (i, j) Hi Hj), rm_ltb_irrefl. cbn [orb].
  assert (Hcnt : (cover_count done (i, j) + cover_count (todo ++ missing) (i, j)
                  = 1)%nat).
  { rewrite <- cover_count_app, <- Hpl. by apply Hcover. }
  destruct (covered done (i, j)) eqn:Hcov.
  - (* the coordinate is occupied: [continue] *)
    rewrite covered_count in Hcov.
    destruct (Nat.eqb_spec (cover_count done (i, j)) 0) as [|Hpos]; [done|].
    cbn. exists done, todo. constructor; try done.
    + intros p Hp1 Hp2. rewrite Ho by done.
      destruct (decide (p = (i, j))) as [->|Hne].
      * rewrite covered_count.
        destruct (Nat.eqb_spec (cover_count done (i, j)) 0); [done|].
        by rewrite !orb_true_r.
      * by rewrite rm_ltb_next.
    + intros x Hx. destruct (decide (x.2 = (i, j))) as [E|Hne].
      * exfalso.
        assert (covers x (i, j) = true).
        { rewrite <- E. apply (covers_origin r c), Hgrid.
          rewrite Hpl. apply elem_of_app. by right. }
        pose proof (cover_count_elem _ x (i, j) Hx H). lia.
      * rewrite rm_ltb_next by done. by apply Ht.
    + intros x Hx. specialize (Hd x Hx). revert Hd.
      unfold rm_ltb. cbn [fst snd]. compare_cases.
  - (* the coordinate is free *)
    rewrite covered_count in Hcov.
    destruct (Nat.eqb_spec (cover_count done (i, j)) 0) as [Hzero|]; [|done].
    destruct (tracking_set_shaped r c _ i j Hs Hi Hj) as (t1 & -> & Hs1 & Ho1).
    cbn [bind].
    assert (Hex : exists x, x ∈ todo ++ missing /\ covers x (i, j) = true).
    { apply cover_count_pos. lia. }
    destruct (next_origin done (todo ++ missing) (i, j) Hpl Ht Hex)
      as (h & rest' & Erest & Hh).
    destruct todo as [|h' todo'].
    + (* nothing left to pop *)
      rewrite Hq. cbn. split; [done|]. intros ->. done.
    + injection Erest as -> <-.
      cbn [fmap list_fmap] in Hq. rewrite Hq, pop_rev_cons. cbn [bind].
      assert (Hin : h ∈ pl).
      { rewrite Hpl. apply elem_of_app. right. left. }
      pose proof (Hgrid h Hin) as Hg.
      rewrite cell_spans_set_idx, (in_grid_spans r c h Hg).
      cbn [bind]. unfold in_grid in Hg. rewrite Hh in Hg. cbn [fst snd] in Hg.
      destruct (spans_of h.1) as [rs cs] eqn:Esp. cbn [fst snd] in Hg.
      assert (1 <= rs /\ 1 <= cs /\ Z.of_nat i + rs <= Z.of_nat r /\
              Z.of_nat j + cs <= Z.of_nat c) as (Hrs & Hcs & Hir & Hjc).
      { revert Hg. compare_cases. }
      clear Hg.
      assert (Hcell : with_origins (done ++ [h])
                      = with_origins done ++ [set_idx i j h.1]).
      { unfold with_origins. rewrite fmap_app. cbn. by rewrite Hh. }
      assert (Htodo' : forall x, x ∈ todo' ++ missing ->
                                 rm_ltb x.2 (i, S j) = false).
      { intros x Hx.
        assert (Hs' : strictly_increasing ((h :: todo' ++ missing).*2) = true).
        { rewrite Hpl, fmap_app in Hsorted.
          by apply strictly_increasing_app_r in Hsorted. }
        assert (Hlt : rm_ltb h.2 x.2 = true).
        { apply (strictly_increasing_head h.2 ((todo' ++ missing).*2));
            [done|]. by apply list_elem_of_fmap_2. }
        revert Hlt. rewrite Hh. unfold rm_ltb. cbn [fst snd]. compare_cases. }
      assert (Hdone' : forall x, x ∈ done ++ [h] -> rm_ltb x.2 (i, S j) = true).
      { intros x [Hx|Hx%list_elem_of_singleton]%elem_of_app.
        - specialize (Hd x Hx). revert Hd.
          unfold rm_ltb. cbn [fst snd]. compare_cases.
        - subst x. rewrite Hh. unfold rm_ltb. cbn [fst snd]. compare_cases. }
      assert (Hcovh : forall p, covers h p =
                ((i <=? p.1) && (p.1 <? i + Z.to_nat rs) &&
                 (j <=? p.2) && (p.2 <? j + Z.to_nat cs))%nat).
      { intros p. unfold covers. rewrite Hh, Esp. cbn [fst snd].
        compare_cases. }
      destruct ((1 <? rs) || (1 <? cs)) eqn:Eex.
      * destruct (mark_rectangle r c t1 i j (Z.to_nat rs) (Z.to_nat cs) Hs1
                    ltac:(lia) ltac:(lia)) as (t2 & -> & Hs2 & Ho2).
        cbn [bind]. exists (done ++ [h]), todo'.
        constructor; cbn [table_cell_objs_copy table_cell_objs cell_merges
                          cell_tracking]; try done.
        -- rewrite Hpl. by rewrite <- app_assoc.
        -- by rewrite Hcell, Hcells.
        -- rewrite Hm, dict_set_fresh by (by apply merges_of_keys).
           rewrite merges_of_app. f_equal. unfold merges_of. cbn.
           unfold exceeds_1x1. rewrite Esp. cbn [fst snd]. rewrite Eex.
           cbn. by rewrite Hh, Esp.
        -- intros p Hp1 Hp2. rewrite Ho2, Ho1, Ho by done.
           rewrite covered_app, covered_singleton, Hcovh.
           destruct (covered done p); [by rewrite !orb_true_r|].
           rewrite !orb_false_r. unfold rm_ltb. cbn [fst snd]. compare_cases.
      * exists (done ++ [h]), todo'.
        constructor; cbn [table_cell_objs_copy table_cell_objs cell_merges
                          cell_tracking]; try done.
        -- rewrite Hpl. by rewrite <- app_assoc.
        -- by rewrite Hcell, Hcells.
        -- rewrite Hm, merges_of_app. unfold merges_of at 3. cbn.
           unfold exceeds_1x1. rewrite Esp. cbn [fst snd]. rewrite Eex.
           cbn. by rewrite app_nil_r.
        -- intros p Hp1 Hp2. rewrite Ho1, Ho by done.
           rewrite covered_app, covered_singleton, Hcovh.
           apply orb_false_iff in Eex as [E1 E2]. revert E1 E2.
           destruct (covered done p); [by rewrite !orb_true_r|].
           rewrite !orb_false_r. unfold rm_ltb. cbn [fst snd]. compare_cases.
Qed.

Lemma inv_next_row (i : nat) (s : resolver) (done todo : list placed) :
  scan_inv (i, c) s done todo -> scan_inv (S i, 0%nat) s done todo.
Proof.
  intros [Hpl Hq Hcells Hm Hs Ho Ht Hd]. constructor; try done.
  - intros p Hp1 Hp2. rewrite Ho by done. f_equal.
    unfold rm_ltb. cbn [fst snd]. compare_cases.
  - intros x Hx. specialize (Ht x Hx).
    assert (Hin : x ∈ pl). { rewrite Hpl. apply elem_of_app. by right. }
    destruct (in_grid_origin r c x (Hgrid x Hin)) as [_ Hc].
    revert Ht. unfold rm_ltb. cbn [fst snd]. compare_cases.
  - intros x Hx. specialize (Hd x Hx). revert Hd.
    unfold rm_ltb. cbn [fst snd]. compare_cases.
Qed.

Lemma row_step (i : nat) (s : resolver) (done todo : list placed) :
  (i < r)%nat ->
  scan_inv (i, 0%nat) s done todo ->
  scan_post (S i, 0%nat)
    (let* row := match cell_tracking s !! i with
                 | Some row => Ok row
                 | None => Err (IndexError "list index out of range")
                 end in
     for_range 0 (length row) (fun i_col s => visit i i_col s) s).
Proof.
  intros Hi Hinv.
  destruct (shaped_row r c _ i (inv_shape _ _ _ _ Hinv) Hi)
    as (row & -> & Hlen).
  cbn [bind]. rewrite Hlen.
  pose proof (for_range_inv
    (fun j s => exists done todo, scan_inv (i, j) s done todo)
    (fun e => e = pop_error /\ missing <> [])
    (fun i_col s => visit i i_col s) c 0 s) as H.
  unfold scan_post.
  destruct (for_range 0 c _ s) as [s'| |].
  - destruct H as (done' & todo' & H'); [by eauto| |by eauto using inv_next_row].
    intros j s0 Hj (done0 & todo0 & H0).
    apply (visit_step i j s0 done0 todo0); [done|lia|done].
  - apply H; [by eauto|].
    intros j s0 Hj (done0 & todo0 & H0).
    apply (visit_step i j s0 done0 todo0); [done|lia|done].
  - apply H; [by eauto|].
    intros j s0 Hj (done0 & todo0 & H0).
    apply (visit_step i j s0 done0 todo0); [done|lia|done].
Qed.

Lemma all_occupied (t : list (list bool)) :
  shaped r c t ->
  (forall p, (p.1 < r)%nat -> (p.2 < c)%nat -> occupied t p = true) ->
  t = replicate r (replicate c true).
Proof.
  intros [Hl Hr] Ho.
  apply (list_eq_same_length _ _ r); [by rewrite length_replicate|done|].
  intros i row row' Hi Hrow [-> _]%lookup_replicate.
  rewrite Forall_forall in Hr.
  pose proof (Hr row (list_elem_of_lookup_2 _ _ _ Hrow)) as Hlen.
  apply (list_eq_same_length _ _ c); [by rewrite length_replicate|done|].
  intros j b b' Hj Hb [-> _]%lookup_replicate.
  specialize (Ho (i, j) Hi Hj). unfold occupied in Ho. cbn in Ho.
  rewrite Hrow in Ho. cbn in Ho. by rewrite Hb in Ho.
Qed.

(** The whole of [get_table_cell_merges] on the declarations of
    [present], where [pl = present ++ missing]. *)
Lemma scan_tiling (present : list placed) :
  pl = present ++ missing ->
  match get_table_cell_merges
          (get_cell_tracking_table (Z.of_nat r) (Z.of_nat c)) (present.*1) with
  | Ok res =>
      missing = [] /\
      res = (merges_of pl, replicate r (replicate c true), with_origins pl)
  | Err e => e = pop_error /\ missing <> []
  | OutOfFuel => False
  end.
Proof.
  intros Hpl. unfold get_table_cell_merges.
  set (s0 := {| cell_tracking :=
                  get_cell_tracking_table (Z.of_nat r) (Z.of_nat c);
                table_cell_objs_copy := rev (present.*1);
                cell_merges := [];
                table_cell_objs := [] |}).
  assert (H0 : scan_inv (0%nat, 0%nat) s0 [] present).
  { constructor; try done.
    - apply shaped_fresh.
    - intros p _ _. cbn [cell_tracking s0]. rewrite occupied_fresh.
      unfold rm_ltb. cbn. by destruct p.1.
    - intros x _. unfold rm_ltb. cbn. by destruct x.2.1.
    - intros x Hx. by apply elem_of_nil in Hx. }
  replace (length (get_cell_tracking_table (Z.of_nat r) (Z.of_nat c))) with r
    by (symmetry; apply (shaped_fresh r c)).
  pose proof (for_range_inv
    (fun i s => exists done todo, scan_inv (i, 0%nat) s done todo)
    (fun e => e = pop_error /\ missing <> [])
    (fun i_row s =>
       let* row := match cell_tracking s !! i_row with
                   | Some row => Ok row
                   | None => Err (IndexError "list index out of range")
                   end in
       for_range 0 (length row) (fun i_col s => visit i_row i_col s) s)
    r 0 s0 (ex_intro _ [] (ex_intro _ present H0))) as H.
  destruct (for_range 0 r _ s0) as [s| |]; cbn [bind].
  - destruct H as (done & todo & [Hpl' Hq Hcells Hm Hs Ho Ht Hd]).
    { intros i s1 Hi (done1 & todo1 & H1).
      apply (row_step i s1 done1 todo1); [lia|done]. }
    assert (Hnil : todo ++ missing = []).
    { apply elem_of_nil_inv. intros x Hx.
      assert (Hin : x ∈ pl).
      { rewrite Hpl'. apply elem_of_app. by right. }
      destruct (in_grid_origin r c x (Hgrid x Hin)) as [Hr _].
      specialize (Ht x Hx). revert Ht.
      unfold rm_ltb. cbn [fst snd]. compare_cases. }
    apply app_eq_nil in Hnil as [-> ->]. split; [done|].
    rewrite !app_nil_r in Hpl'. subst done.
    rewrite Hm, Hcells, Hq. cbn. rewrite app_nil_r. do 2 f_equal.
    apply all_occupied; [done|]. intros p Hp1 Hp2. rewrite Ho by done.
    replace (rm_ltb p (0 + r, 0)%nat) with true; [done|].
    unfold rm_ltb. cbn [fst snd]. compare_cases.
  - apply H. intros i s1 Hi (done1 & todo1 & H1).
    apply (row_step i s1 done1 todo1); [lia|done].
  - apply H. intros i s1 Hi (done1 & todo1 & H1).
    apply (row_step i s1 done1 todo1); [lia|done].
Qed.

End Scan.

(** *** From the boolean check to the facts the scan uses *)

Lemma exactly_tiles_facts (r c : nat) (cells : list node)
    (origins : list (nat * nat)) :
  exactly_tiles r c cells origins = true ->
  length cells = length origins /\
  (forall x, x ∈ zip cells origins -> in_grid r c x = true) /\
  (forall p, (p.1 < r)%nat -> (p.2 < c)%nat ->
             cover_count (zip cells origins) p = 1%nat) /\
  strictly_increasing ((zip cells origins).*2) = true.
Proof.
  unfold exactly_tiles. rewrite !andb_true_iff.
  intros [[[Hlen%Nat.eqb_eq Hg] Hc] Hs]. split; [done|]. split; [|split].
  - intros x Hx. rewrite forallb_forall in Hg. apply Hg.
    by apply list_elem_of_In.
  - intros [i j] Hi Hj. rewrite forallb_forall in Hc.
    apply Nat.eqb_eq, Hc, in_prod; apply in_seq; cbn in *; lia.
  - rewrite snd_zip by lia. done.
Qed.



(** C4, as the code has it: when the declarations of a table are those of an
    exact tiling of its grid with the last ones missing, the scan reaches a
    free coordinate with the queue exhausted, and [pop] raises Python's
    [IndexError]; the handler of the table raises it before it creates
    anything. *)
Theorem C4_missing_cells_raise_IndexError
    (rec : list node -> option string -> M (option string))
    (t : node) (r c : nat) (cells missing : list node)
    (origins : list (nat * nat)) (output : option string) (st : state) :
  get_table_dimensions t = Ok (Z.of_nat r, Z.of_nat c) ->
  get_table_cell_objs t = Ok cells ->
  missing <> [] ->
  exactly_tiles r c (cells ++ missing) origins = true ->
  get_table_cell_merges (get_cell_tracking_table (Z.of_nat r) (Z.of_nat c)) cells
  = Err (IndexError "pop from empty list") /\
  table_geometry t = Err (IndexError "pop from empty list") /\
  parse_table_type rec t output st = Err (IndexError "pop from empty list").
Proof.
  intros Hdim Hcells Hmiss Htiles.
  destruct (exactly_tiles_facts r c (cells ++ missing) origins Htiles)
    as (Hlen & Hgrid & Hcover & Hsorted).
  set (pl := zip (cells ++ missing) origins) in *.
  set (n := length cells).
  assert (Hfst : pl.*1 = cells ++ missing) by (apply fst_zip; lia).
  assert (Hm : get_table_cell_merges
                 (get_cell_tracking_table (Z.of_nat r) (Z.of_nat c)) cells
               = Err (IndexError "pop from empty list")).
  { pose proof (scan_tiling r c pl (drop n pl) Hgrid Hcover Hsorted
                  (take n pl) ltac:(by rewrite take_drop)) as H.
    rewrite fmap_take, Hfst in H. unfold n in H. rewrite take_app_length in H.
    destruct (get_table_cell_merges _ cells) as [res|e|].
    - destruct H as [H _]. exfalso.
      apply (f_equal length) in H. rewrite length_drop in H. cbn in H.
      apply (f_equal length) in Hfst.
      rewrite length_fmap, length_app in Hfst.
      destruct missing; [done|]. cbn in Hfst. unfold placed in *. lia.
    - by destruct H as [-> _].
    - done. }
  split; [done|].
  split.
  - unfold table_geometry. rewrite Hdim. cbn [bind]. rewrite Hcells.
    cbn [bind]. by rewrite Hm.
  - unfold parse_table_type, bindM, lift. by rewrite Hdim, Hcells, Hm.
Qed.

Lemma C4_missing_cells_raise_IndexError_witness :
  get_table_cell_merges (get_cell_tracking_table 2 2)
    [element "table_cell" (Some {["colspan" := JInt 2]}) (Some [paragraph_of "x"]);
     element "table_cell" None (Some [paragraph_of "y"])]
  = Err (IndexError "pop from empty list") /\
  table_geometry table_2x2_short = Err (IndexError "pop from empty list") /\
  parse_table_type (parse_contents example_pt example_image_path 3)
    table_2x2_short (Some "T") (start_document "T" initial_state)
  = Err (IndexError "pop from empty list").
Proof.
  exact (C4_missing_cells_raise_IndexError
           (parse_contents example_pt example_image_path 3)
           table_2x2_short 2 2
           [element "table_cell" (Some {["colspan" := JInt 2]})
              (Some [paragraph_of "x"]);
            element "table_cell" None (Some [paragraph_of "y"])]
           [element "table_cell" (Some ∅) (Some [paragraph_of "z"])]
           [(0, 0); (1, 0); (1, 1)]%nat (Some "T")
           (start_document "T" initial_state)
           eq_refl eq_refl ltac:(discriminate) eq_refl).
Defined.

(** C4 as stated fails: the exception a table with a missing cell raises is
    the [IndexError] of [list.pop]; the script defines no
    [TableCellCountMismatchError]. *)
Lemma C4_counterexample :
  exists e,
    table_geometry table_2x2_short = Err e /\
    exn_class e = "IndexError" /\
    exn_class e <> "TableCellCountMismatchError".
Proof.
  exists (IndexError "pop from empty list"). split; [reflexivity|].
  split; [reflexivity|discriminate].
Qed.

(** ** The recursion budget of the walker is enough

    [parse_contents] gives out only when its budget is not above the height
    of the tree it walks. *)

Lemma bind_fuel {A B : Type} (m : result A) (k : A -> result B) :
  m <> OutOfFuel -> (forall a, k a <> OutOfFuel) -> bind m k <> OutOfFuel.
Proof. intros Hm Hk. destruct m; cbn; [apply Hk|done|done]. Qed.

Lemma for_each_fuel {A St : Type} (xs : list A) (body : St -> A -> result St)
    (s : St) :
  (forall s x, body s x <> OutOfFuel) -> for_each xs body s <> OutOfFuel.
Proof.
  intros Hb. revert s. induction xs as [|x xs IH]; intros s; [done|].
  cbn [for_each]. by apply bind_fuel.
Qed.

Lemma for_range_fuel {St : Type} (start count : nat)
    (body : nat -> St -> result St) (s : St) :
  (forall i s, body i s <> OutOfFuel) ->
  for_range start count body s <> OutOfFuel.
Proof.
  intros Hb. revert start s. induction count as [|count IH]; intros start s;
    [done|].
  cbn [for_range]. by apply bind_fuel.
Qed.

(** Breaks a goal [_ <> OutOfFuel] down along the structure of the term. *)
Ltac no_fuel_step :=
  match goal with
  | |- Ok _ <> OutOfFuel => discriminate
  | |- Err _ <> OutOfFuel => discriminate
  | |- bind _ _ <> OutOfFuel => apply bind_fuel; [|intros]
  | |- for_each _ _ _ <> OutOfFuel => apply for_each_fuel; intros
  | |- for_range _ _ _ _ <> OutOfFuel => apply for_range_fuel; intros
  | |- (let '(_, _) := ?x in _) <> OutOfFuel => destruct x
  | |- (match ?x with _ => _ end) <> OutOfFuel => destruct x
  | |- (if ?b then _ else _) <> OutOfFuel => destruct b
  end.

Ltac no_fuel := repeat no_fuel_step; try done.

Lemma as_int_fuel (v : jval) : as_int v <> OutOfFuel.
Proof. unfold as_int. no_fuel. Qed.

Lemma as_str_fuel (v : jval) : as_str v <> OutOfFuel.
Proof. unfold as_str. no_fuel. Qed.

Lemma getitem_fuel {A : Type} (key : string) (field : option A) :
  getitem key field <> OutOfFuel.
Proof. unfold getitem. no_fuel. Qed.

Lemma add_str_fuel (output : option string) (s : string) :
  add_str output s <> OutOfFuel.
Proof. unfold add_str. no_fuel. Qed.

Lemma shade_fill_fuel (bg_color : option string) :
  shade_fill bg_color <> OutOfFuel.
Proof. unfold shade_fill. no_fuel. Qed.

Lemma toRoman_fuel (n : Z) : toRoman n <> OutOfFuel.
Proof. unfold toRoman. no_fuel. Qed.

Lemma get_ordered_list_char_fuel (level depth : Z) :
  get_ordered_list_char level depth <> OutOfFuel.
Proof. unfold get_ordered_list_char. no_fuel. apply toRoman_fuel. Qed.

Lemma get_color_from_hex_fuel (hex : string) :
  get_color_from_hex hex <> OutOfFuel.
Proof.
  unfold get_color_from_hex, RGBColor. no_fuel; apply int16_fuel.
Qed.

Lemma table_cell_fuel (t : table) (row_idx col_idx : Z) :
  table_cell t row_idx col_idx <> OutOfFuel.
Proof. unfold table_cell, py_index. no_fuel. Qed.

Lemma get_table_dimensions_fuel (content_obj : node) :
  get_table_dimensions content_obj <> OutOfFuel.
Proof.
  unfold get_table_dimensions.
  no_fuel; try apply getitem_fuel; try apply as_int_fuel.
Qed.

Lemma get_table_cell_objs_fuel (content_obj : node) :
  get_table_cell_objs content_obj <> OutOfFuel.
Proof.
  unfold get_table_cell_objs. no_fuel; apply getitem_fuel.
Qed.

Lemma tracking_set_fuel (t : list (list bool)) (i j : nat) :
  tracking_set t i j <> OutOfFuel.
Proof. unfold tracking_set. no_fuel. Qed.

Lemma cell_spans_fuel (cell : node) : cell_spans cell <> OutOfFuel.
Proof. unfold cell_spans. no_fuel; apply as_int_fuel. Qed.

Lemma visit_fuel (i j : nat) (s : resolver) : visit i j s <> OutOfFuel.
Proof.
  unfold visit, tracking_get, pop.
  no_fuel; try apply tracking_set_fuel; try apply cell_spans_fuel.
Qed.

Lemma get_table_cell_merges_fuel (t : list (list bool)) (cells : list node) :
  get_table_cell_merges t cells <> OutOfFuel.
Proof.
  unfold get_table_cell_merges. no_fuel. apply visit_fuel.
Qed.

(** A handler that never gives out. *)
Definition total {A : Type} (m : M A) : Prop := forall st, m st <> OutOfFuel.

Lemma total_ret {A : Type} (a : A) : total (ret a).
Proof. by intros st. Qed.

Lemma total_raise {A : Type} (e : exn) : total (@raise A e).
Proof. by intros st. Qed.

Lemma total_read {A : Type} (global : state -> A) : total (read global).
Proof. by intros st. Qed.

Lemma total_write (assign : state -> state) : total (write assign).
Proof. by intros st. Qed.

Lemma total_lift {A : Type} (r : result A) : r <> OutOfFuel -> total (lift r).
Proof. intros Hr st. unfold lift. by destruct r. Qed.

Lemma total_bind {A B : Type} (m : M A) (k : A -> M B) :
  total m -> (forall a, total (k a)) -> total (bindM m k).
Proof.
  intros Hm Hk st. unfold bindM. specialize (Hm st).
  destruct (m st) as [[a st']| |]; [apply Hk|done|done].
Qed.

Lemma total_for_eachM {A St : Type} (xs : list A) (body : St -> A -> M St)
    (s : St) :
  (forall s x, x ∈ xs -> total (body s x)) -> total (for_eachM xs body s).
Proof.
  revert s. induction xs as [|x xs IH]; intros s Hb; [apply total_ret|].
  cbn [for_eachM]. apply total_bind; [apply Hb; left|].
  intros s'. apply IH. intros s0 y Hy. apply Hb. by right.
Qed.

Lemma total_repeatM (n : nat) (m : M unit) : total m -> total (repeatM n m).
Proof.
  intros Hm. induction n as [|n IH]; [apply total_ret|].
  cbn [repeatM]. by apply total_bind.
Qed.

Create HintDb total discriminated.

#[local] Hint Resolve total_ret total_raise total_read total_write
  total_repeatM as_int_fuel as_str_fuel getitem_fuel add_str_fuel
  shade_fill_fuel get_ordered_list_char_fuel get_color_from_hex_fuel
  table_cell_fuel get_table_dimensions_fuel get_table_cell_objs_fuel
  get_table_cell_merges_fuel : total.

(** Breaks a goal [total _] down along the structure of the handler. *)
Ltac total_step :=
  match goal with
  | |- total (bindM _ _) => apply total_bind; [|intros]
  | |- total (lift _) => apply total_lift
  | |- total (for_eachM _ _ _) => apply total_for_eachM; intros
  | |- total (let '(_, _) := ?x in _) => destruct x
  | |- total (match ?x with _ => _ end) => destruct x
  | |- total (if ?b then _ else _) => destruct b
  | |- bind _ _ <> OutOfFuel => apply bind_fuel; [|intros]
  | |- _ => solve [auto with total]
  end.

Ltac totality := repeat total_step.

Lemma total_document_add_paragraph : total document_add_paragraph.
Proof. by intros st. Qed.

Lemma total_document_add_table (rows cols : Z) (style : option string) :
  total (document_add_table rows cols style).
Proof. by intros st. Qed.

Lemma total_the_table (t : nat) : total (the_table t).
Proof. intros st. unfold the_table. by destruct (_ !! _). Qed.

Lemma total_the_paragraph : total the_paragraph.
Proof. intros st. unfold the_paragraph. by destruct (current_paragraph st). Qed.

Lemma total_the_table_cell : total the_table_cell.
Proof. intros st. unfold the_table_cell. by destruct (current_table_cell st). Qed.

Lemma total_cell_add_paragraph (c : nat * nat) : total (cell_add_paragraph c).
Proof. by intros st. Qed.

#[local] Hint Resolve total_document_add_paragraph total_document_add_table
  total_the_table total_the_paragraph total_the_table_cell
  total_cell_add_paragraph : total.

Lemma total_merge_cells (t a b : nat) : total (merge_cells t a b).
Proof. unfold merge_cells. totality. Qed.

Lemma total_the_cell (c : nat * nat) : total (the_cell c).
Proof. unfold the_cell. totality. Qed.

#[local] Hint Resolve total_merge_cells total_the_cell : total.

Lemma total_cell_first_paragraph (c : nat * nat) :
  total (cell_first_paragraph c).
Proof. unfold cell_first_paragraph. totality. Qed.

Lemma total_set_cell_background_color (c : nat * nat)
    (bgcolor : option string) :
  total (set_cell_background_color c bgcolor).
Proof. unfold set_cell_background_color. totality. Qed.

Lemma total_add_item (i : inline) : total (add_item i).
Proof. unfold add_item. totality. Qed.

Lemma total_update_runs (f : list inline -> list inline) :
  total (update_runs f).
Proof. unfold update_runs. totality. Qed.

Lemma total_insert_horizontal_rule (p : nat) :
  total (insert_horizontal_rule p).
Proof. unfold insert_horizontal_rule. totality. Qed.

#[local] Hint Resolve total_cell_first_paragraph
  total_set_cell_background_color total_add_item total_update_runs
  total_insert_horizontal_rule : total.

Lemma total_add_run (text : string) : total (add_run text).
Proof. unfold add_run. totality. Qed.

Lemma total_document_add_picture (path : string) (width : Z) :
  total (document_add_picture path width).
Proof. unfold document_add_picture. totality. Qed.

Lemma total_merge_table_cells (t : nat)
    (cell_merges : list ((nat * nat) * (Z * Z))) :
  total (merge_table_cells t cell_merges).
Proof.
  unfold merge_table_cells. apply total_for_eachM.
  intros _ [[r_idx c_idx] [rowspan colspan]] _. totality.
Qed.

#[local] Hint Resolve total_add_run total_document_add_picture
  total_merge_table_cells : total.

Section Budget.

Variable get_pt_from_em : string -> result Z.
Variable get_image_path : string -> option string.
Hypothesis get_pt_from_em_fuel : forall em, get_pt_from_em em <> OutOfFuel.

Lemma text_mark_fuel (s : text_style) (mark_obj : mark) :
  text_mark get_pt_from_em s mark_obj <> OutOfFuel.
Proof.
  unfold text_mark.
  no_fuel; auto using as_str_fuel, get_color_from_hex_fuel.
Qed.

Lemma text_marks_fuel (content_obj : node) :
  text_marks get_pt_from_em content_obj <> OutOfFuel.
Proof. unfold text_marks. no_fuel. apply text_mark_fuel. Qed.

Lemma total_parse_text_type (content_obj : node) (output : option string) :
  total (parse_text_type get_pt_from_em content_obj output).
Proof.
  unfold parse_text_type. pose proof (text_marks_fuel content_obj). totality.
Qed.

Lemma total_parse_image_type (content_obj : node) (output : option string) :
  total (parse_image_type get_image_path content_obj output).
Proof. unfold parse_image_type. totality. Qed.

Lemma total_parse_horizontal_rule_type (content_obj : node)
    (output : option string) :
  total (parse_horizontal_rule_type content_obj output).
Proof. unfold parse_horizontal_rule_type. totality. Qed.

Section Handlers.

Variable rec : list node -> option string -> M (option string).
Variable content_obj : node.

(** The recursive call does not give out on the content of the node. *)
Hypothesis total_rec : forall content output,
  node_content content_obj = Some content -> total (rec content output).

Lemma total_parse_heading_type (output : option string) :
  total (parse_heading_type rec content_obj output).
Proof.
  unfold parse_heading_type. pose proof total_rec.
  destruct (node_content content_obj); totality.
Qed.

Lemma total_parse_paragraph_type (output : option string) :
  total (parse_paragraph_type rec content_obj output).
Proof.
  unfold parse_paragraph_type. pose proof total_rec.
  destruct (node_content content_obj); totality.
Qed.

Lemma total_parse_bullet_list_type (output : option string) :
  total (parse_bullet_list_type rec content_obj output).
Proof.
  unfold parse_bullet_list_type. pose proof total_rec.
  destruct (node_content content_obj); totality.
Qed.

Lemma total_parse_ordered_list_type (output : option string) :
  total (parse_ordered_list_type rec content_obj output).
Proof.
  unfold parse_ordered_list_type. pose proof total_rec.
  destruct (node_content content_obj); totality.
Qed.

Lemma total_parse_check_list_type (output : option string) :
  total (parse_check_list_type rec content_obj output).
Proof.
  unfold parse_check_list_type. pose proof total_rec.
  destruct (node_content content_obj); totality.
Qed.

Lemma total_parse_check_list_item_type (output : option string) :
  total (parse_check_list_item_type rec content_obj output).
Proof.
  unfold parse_check_list_item_type. pose proof total_rec.
  destruct (node_content content_obj); totality.
Qed.

Lemma total_parse_list_item_type (output : option string) :
  total (parse_list_item_type rec content_obj output).
Proof.
  unfold parse_list_item_type. pose proof total_rec.
  destruct (node_content content_obj); totality.
Qed.

Lemma total_parse_call_out_box (output : option string) :
  total (parse_call_out_box rec content_obj output).
Proof.
  unfold parse_call_out_box. pose proof total_rec.
  destruct (node_content content_obj); totality.
Qed.

Lemma total_parse_code_block (output : option string) :
  total (parse_code_block rec content_obj output).
Proof.
  unfold parse_code_block. pose proof total_rec.
  destruct (node_content content_obj); totality.
Qed.

Lemma total_parse_blockquote (output : option string) :
  total (parse_blockquote rec content_obj output).
Proof.
  unfold parse_blockquote. pose proof total_rec.
  destruct (node_content content_obj); totality.
Qed.

End Handlers.

End Budget.

Lemma node_height_content (n : node) (content : list node) :
  node_content n = Some content -> node_height n = S (nodes_height content).
Proof. destruct n as [? ? [c|] ? ? ? ?]; cbn; [|done]. by intros [= ->]. Qed.

Lemma nodes_height_elem (l : list node) (x : node) :
  x ∈ l -> (node_height x <= nodes_height l)%nat.
Proof.
  induction 1 as [x l|x y l _ IH]; cbn [nodes_height]; lia.
Qed.

(** What holds of the state before a loop and is kept by every round that
    returns holds of the state the loop returns. *)
Lemma for_each_ok {A St : Type} (P : St -> Prop) (xs : list A)
    (body : St -> A -> result St) (s s' : St) :
  P s ->
  (forall s x s', x ∈ xs -> P s -> body s x = Ok s' -> P s') ->
  for_each xs body s = Ok s' -> P s'.
Proof.
  revert s. induction xs as [|x xs IH]; intros s Hs Hb; cbn [for_each].
  - by intros [= <-].
  - destruct (body s x) as [s1| |] eqn:E; cbn [bind]; try done.
    apply IH; [by apply (Hb s x s1); [left| |]|].
    intros s0 y s0' Hy. apply Hb. by right.
Qed.

Lemma for_range_returns {St : Type} (P : St -> Prop) (start count : nat)
    (body : nat -> St -> result St) (s s' : St) :
  P s ->
  (forall i s s', P s -> body i s = Ok s' -> P s') ->
  for_range start count body s = Ok s' -> P s'.
Proof.
  intros Hs Hb. revert start s Hs.
  induction count as [|count IH]; intros start s Hs; cbn [for_range].
  - by intros [= <-].
  - destruct (body start s) as [s1| |] eqn:E; cbn [bind]; try done.
    apply IH. by apply (Hb start s s1).
Qed.

(** The cells [get_table_cell_objs] collects are children of children of the
    table node. *)
Lemma get_table_cell_objs_elem (t : node) (cells : list node) (cell : node) :
  get_table_cell_objs t = Ok cells -> cell ∈ cells ->
  exists rows row row_cells,
    node_content t = Some rows /\ row ∈ rows /\
    node_content row = Some row_cells /\ cell ∈ row_cells.
Proof.
  unfold get_table_cell_objs.
  destruct (node_content t) as [rows|]; cbn [getitem bind]; [|done].
  intros H Hcell.
  assert (G : Forall (fun cell => exists row row_cells,
                        row ∈ rows /\ node_content row = Some row_cells /\
                        cell ∈ row_cells) cells).
  { revert H. apply for_each_ok; [by constructor|].
    intros acc row acc' Hrow Hacc.
    destruct (has_type "table_row" row); [|by intros [= <-]].
    destruct (node_content row) as [row_cells|] eqn:Erow;
      cbn [getitem bind]; [|done].
    apply for_each_ok; [done|].
    intros acc1 c acc2 Hc Hacc1.
    destruct (has_type "table_cell" c); intros [= <-]; [|done].
    apply Forall_app. split; [done|]. constructor; [|constructor].
    by exists row, row_cells. }
  rewrite Forall_forall in G.
  destruct (G cell Hcell) as (row & row_cells & ? & ? & ?).
  by exists rows, row, row_cells.
Qed.

Lemma elem_of_rev {A : Type} (x : A) (l : list A) : x ∈ rev l <-> x ∈ l.
Proof. rewrite !list_elem_of_In. symmetry. apply in_rev. Qed.

Lemma pop_elem {A : Type} (l : list A) (x : A) (rest : list A) :
  pop l = Ok (x, rest) -> x ∈ l /\ rest ⊆ l.
Proof.
  unfold pop. destruct (rev l) as [|y r] eqn:E; [done|]. intros [= <- <-].
  split.
  - apply elem_of_rev. rewrite E. apply elem_of_cons. by left.
  - intros z Hz. apply (proj1 (elem_of_rev _ _)) in Hz.
    apply elem_of_rev. rewrite E. apply elem_of_cons. by right.
Qed.

(** Every cell the resolver holds has the content of a cell it was given. *)
Definition from_cells (cells0 : list node) (s : resolver) : Prop :=
  let Q := fun c : node =>
    exists cell0, cell0 ∈ cells0 /\ node_content c = node_content cell0 in
  Forall Q (table_cell_objs s) /\ Forall Q (table_cell_objs_copy s).

Lemma visit_from_cells (cells0 : list node) (i j : nat) (s s' : resolver) :
  from_cells cells0 s -> visit i j s = Ok s' -> from_cells cells0 s'.
Proof.
  intros [Hc Hq]. unfold visit.
  destruct (tracking_get (cell_tracking s) i j) as [[]| |];
    cbn [bind]; try done; [by intros [= <-]|].
  destruct (tracking_set (cell_tracking s) i j) as [t1| |];
    cbn [bind]; try done.
  destruct (pop (table_cell_objs_copy s)) as [[c rest]| |] eqn:Epop;
    cbn [bind]; try done.
  destruct (pop_elem _ _ _ Epop) as [Hin Hsub].
  assert (HQ : exists cell0, cell0 ∈ cells0 /\
                 node_content (set_idx i j c) = node_content cell0).
  { rewrite Forall_forall in Hq. apply (Hq c Hin). }
  assert (Hrest : Forall (fun c => exists cell0, cell0 ∈ cells0 /\
                            node_content c = node_content cell0) rest).
  { apply Forall_forall. intros z Hz. rewrite Forall_forall in Hq.
    apply Hq, Hsub, Hz. }
  destruct (cell_spans (set_idx i j c)) as [[rowspan colspan]| |];
    cbn [bind]; try done.
  destruct ((1 <? rowspan) || (1 <? colspan)).
  - destruct (for_range i _ _ t1) as [t2| |]; cbn [bind]; try done.
    intros [= <-]. split; cbn; [|done].
    apply Forall_app. split; [done|]. by repeat constructor.
  - intros [= <-]. split; cbn; [|done].
    apply Forall_app. split; [done|]. by repeat constructor.
Qed.

(** The cells [get_table_cell_merges] leaves in the caller's list are the
    cells it was given, some with their indexes written in: each has the
    content of a cell of the input. *)
Lemma get_table_cell_merges_elem (t0 : list (list bool)) (cells0 : list node)
    (merges : list ((nat * nat) * (Z * Z))) (t : list (list bool))
    (cells : list node) (cell : node) :
  get_table_cell_merges t0 cells0 = Ok (merges, t, cells) -> cell ∈ cells ->
  exists cell0, cell0 ∈ cells0 /\ node_content cell = node_content cell0.
Proof.
  unfold get_table_cell_merges.
  destruct (for_range 0 (length t0) _ _) as [s| |] eqn:E; cbn [bind]; try done.
  intros [= <- <- <-] Hcell.
  assert (HP : from_cells cells0 s).
  { revert E. apply (for_range_returns (from_cells cells0)).
    - split; [constructor|]. apply Forall_forall. intros c Hc.
      exists c. split; [|done]. by apply (proj1 (elem_of_rev _ _)) in Hc.
    - intros i s1 s2 Hs1.
      destruct (cell_tracking s1 !! i) as [row|]; cbn [bind]; [|done].
      apply (for_range_returns (from_cells cells0)); [done|].
      intros j s3 s4. apply visit_from_cells. }
  destruct HP as [Hc Hq]. apply elem_of_app in Hcell as [Hcell|Hcell].
  - rewrite Forall_forall in Hc. by apply Hc.
  - rewrite Forall_forall in Hq. apply Hq.
    by apply (proj1 (elem_of_rev _ _)) in Hcell.
Qed.

Lemma total_bind_lift {A B : Type} (r : result A) (k : A -> M B) :
  r <> OutOfFuel -> (forall a, r = Ok a -> total (k a)) ->
  total (bindM (lift r) k).
Proof.
  intros Hr Hk st. unfold bindM, lift. destruct r; [by apply Hk|done|done].
Qed.

Lemma total_parse_table_cell_type
    (rec : list node -> option string -> M (option string))
    (table_cell_obj : node) (t : nat) :
  (forall content output, node_content table_cell_obj = Some content ->
                          total (rec content output)) ->
  total (parse_table_cell_type rec table_cell_obj t).
Proof.
  intros Hrec. unfold parse_table_cell_type.
  do 4 (apply total_bind; [totality|intros]).
  do 2 (apply total_bind; [totality|intros]).
  apply total_bind_lift; [apply getitem_fuel|]. intros content Hc.
  apply total_bind; [|totality]. apply Hrec.
  by destruct (node_content table_cell_obj) as [c|]; [injection Hc as ->|].
Qed.

Lemma total_parse_table_type
    (rec : list node -> option string -> M (option string))
    (content_obj : node) (output : option string) :
  (forall rows row row_cells cell content output,
     node_content content_obj = Some rows -> row ∈ rows ->
     node_content row = Some row_cells -> cell ∈ row_cells ->
     node_content cell = Some content -> total (rec content output)) ->
  total (parse_table_type rec content_obj output).
Proof.
  intros Hrec. unfold parse_table_type.
  apply total_bind_lift; [apply get_table_dimensions_fuel|]. intros [r c] _.
  apply total_bind_lift; [apply get_table_cell_objs_fuel|].
  intros cells0 Hobjs.
  apply total_bind_lift; [apply get_table_cell_merges_fuel|].
  intros [[merges t] cells] Hmerges.
  apply total_bind; [solve [totality]|]. intros tid.
  apply total_bind; [solve [totality]|]. intros _.
  apply total_bind; [|intros; solve [totality]].
  apply total_for_eachM. intros _ cell Hcell.
  apply total_parse_table_cell_type. intros content o Hcontent.
  destruct (get_table_cell_merges_elem _ _ _ _ _ _ Hmerges Hcell)
    as (cell0 & Hcell0 & Hsame).
  destruct (get_table_cell_objs_elem _ _ _ Hobjs Hcell0)
    as (rows & row & row_cells & Hrows & Hrow & Hrc & Hin).
  apply (Hrec rows row row_cells cell0); try done. by rewrite <- Hsame.
Qed.

(** With a budget above the height of the trees, [parse_contents] returns
    or raises: it does not give out. *)
Theorem parse_contents_enough_fuel
    (get_pt_from_em : string -> result Z)
    (get_image_path : string -> option string) :
  (forall em, get_pt_from_em em <> OutOfFuel) ->
  forall (fuel : nat) (content_objs : list node) (output : option string),
    (nodes_height content_objs < fuel)%nat ->
    total (parse_contents get_pt_from_em get_image_path fuel content_objs output).
Proof.
  intros Hpt. induction fuel as [|fuel IH]; intros l output Hl; [lia|].
  cbn [parse_contents]. apply total_for_eachM. intros o x Hx.
  destruct (node_type x) as [ty|]; [|apply total_ret].
  pose proof (nodes_height_elem l x Hx) as Hhx.
  assert (Hrec : forall content output, node_content x = Some content ->
            total (parse_contents get_pt_from_em get_image_path fuel
                     content output)).
  { intros content o' Hc. apply IH.
    rewrite (node_height_content x content Hc) in Hhx. lia. }
  unfold parse_content_type.
  repeat match goal with
         | |- total (if ?b then _ else _) => destruct b
         end;
    eauto using total_parse_heading_type, total_parse_paragraph_type,
      total_parse_text_type, total_parse_bullet_list_type,
      total_parse_ordered_list_type, total_parse_check_list_type,
      total_parse_list_item_type, total_parse_check_list_item_type,
      total_parse_image_type, total_parse_horizontal_rule_type,
      total_parse_call_out_box, total_parse_code_block,
      total_parse_blockquote, total_ret.
  apply total_parse_table_type.
  intros rows row row_cells cell content o' Hrows Hrow Hrc Hcell Hcontent.
  apply IH.
  rewrite (node_height_content x rows Hrows) in Hhx.
  pose proof (nodes_height_elem rows row Hrow) as H1.
  rewrite (node_height_content row row_cells Hrc) in H1.
  pose proof (nodes_height_elem row_cells cell Hcell) as H2.
  rewrite (node_height_content cell content Hcontent) in H2. lia.
Qed.

(** ** Who assigns the checked flag

    Only [parse_check_list_item_type] assigns [is_check_list_item_checked]:
    rendering a tree without check-list items leaves the flag as it is. *)

Definition keeps_checked {A : Type} (m : M A) : Prop :=
  forall st a st', m st = Ok (a, st') ->
    is_check_list_item_checked st' = is_check_list_item_checked st.

Lemma keeps_ret {A : Type} (a : A) : keeps_checked (ret a).
Proof. by intros st a' st' [= <- <-]. Qed.

Lemma keeps_raise {A : Type} (e : exn) : keeps_checked (@raise A e).
Proof. by intros st a st'. Qed.

Lemma keeps_read {A : Type} (global : state -> A) : keeps_checked (read global).
Proof. by intros st a' st' [= <- <-]. Qed.

Lemma keeps_lift {A : Type} (r : result A) : keeps_checked (lift r).
Proof. intros st a st'. unfold lift. destruct r; [|done|done]. by intros [= <- <-]. Qed.

Lemma keeps_write (assign : state -> state) :
  (forall st, is_check_list_item_checked (assign st)
              = is_check_list_item_checked st) ->
  keeps_checked (write assign).
Proof. intros H st a st' [= <- <-]. apply H. Qed.

Lemma keeps_bind {A B : Type} (m : M A) (k : A -> M B) :
  keeps_checked m -> (forall a, keeps_checked (k a)) ->
  keeps_checked (bindM m k).
Proof.
  intros Hm Hk st b st'. unfold bindM.
  destruct (m st) as [[a st1]| |] eqn:E; [|done|done].
  intros H. rewrite (Hk a st1 b st' H). by apply (Hm st a).
Qed.

Lemma keeps_for_eachM {A St : Type} (xs : list A) (body : St -> A -> M St)
    (s : St) :
  (forall s x, x ∈ xs -> keeps_checked (body s x)) ->
  keeps_checked (for_eachM xs body s).
Proof.
  revert s. induction xs as [|x xs IH]; intros s Hb; [apply keeps_ret|].
  cbn [for_eachM]. apply keeps_bind; [apply Hb; left|].
  intros s'. apply IH. intros s0 y Hy. apply Hb. by right.
Qed.

Lemma keeps_repeatM (n : nat) (m : M unit) :
  keeps_checked m -> keeps_checked (repeatM n m).
Proof.
  intros Hm. induction n as [|n IH]; [apply keeps_ret|].
  cbn [repeatM]. by apply keeps_bind.
Qed.

Lemma keeps_document_add_paragraph : keeps_checked document_add_paragraph.
Proof. by intros st a st' [= <- <-]. Qed.

Lemma keeps_document_add_table (rows cols : Z) (style : option string) :
  keeps_checked (document_add_table rows cols style).
Proof. by intros st a st' [= <- <-]. Qed.

Lemma keeps_the_table (t : nat) : keeps_checked (the_table t).
Proof.
  intros st a st'. unfold the_table. destruct (_ !! _); [|done].
  by intros [= <- <-].
Qed.

Lemma keeps_the_paragraph : keeps_checked the_paragraph.
Proof.
  intros st a st'. unfold the_paragraph.
  destruct (current_paragraph st); [|done]. by intros [= <- <-].
Qed.

Lemma keeps_the_table_cell : keeps_checked the_table_cell.
Proof.
  intros st a st'. unfold the_table_cell.
  destruct (current_table_cell st); [|done]. by intros [= <- <-].
Qed.

Lemma keeps_cell_add_paragraph (c : nat * nat) :
  keeps_checked (cell_add_paragraph c).
Proof. by intros st a st' [= <- <-]. Qed.

Create HintDb keeps discriminated.

#[local] Hint Resolve keeps_ret keeps_raise keeps_read keeps_lift
  keeps_repeatM keeps_document_add_paragraph keeps_document_add_table
  keeps_the_table keeps_the_paragraph keeps_the_table_cell
  keeps_cell_add_paragraph : keeps.

(** Breaks a goal [keeps_checked _] down along the structure of the
    handler. *)
Ltac keeps_step :=
  match goal with
  | |- keeps_checked (bindM _ _) => apply keeps_bind; [|intros]
  | |- keeps_checked (write _) => apply keeps_write; intros; reflexivity
  | |- keeps_checked (for_eachM _ _ _) => apply keeps_for_eachM; intros
  | |- keeps_checked (let '(_, _) := ?x in _) => destruct x
  | |- keeps_checked (match ?x with _ => _ end) => destruct x
  | |- keeps_checked (if ?b then _ else _) => destruct b
  | |- _ => solve [auto with keeps]
  end.

Ltac keeping := repeat keeps_step.

Lemma keeps_merge_cells (t a b : nat) : keeps_checked (merge_cells t a b).
Proof. unfold merge_cells. keeping. Qed.

Lemma keeps_the_cell (c : nat * nat) : keeps_checked (the_cell c).
Proof. unfold the_cell. keeping. Qed.

#[local] Hint Resolve keeps_merge_cells keeps_the_cell : keeps.

Lemma keeps_cell_first_paragraph (c : nat * nat) :
  keeps_checked (cell_first_paragraph c).
Proof. unfold cell_first_paragraph. keeping. Qed.

Lemma keeps_set_cell_background_color (c : nat * nat)
    (bgcolor : option string) :
  keeps_checked (set_cell_background_color c bgcolor).
Proof. unfold set_cell_background_color. keeping. Qed.

Lemma keeps_add_item (i : inline) : keeps_checked (add_item i).
Proof. unfold add_item. keeping. Qed.

Lemma keeps_update_runs (f : list inline -> list inline) :
  keeps_checked (update_runs f).
Proof. unfold update_runs. keeping. Qed.

Lemma keeps_insert_horizontal_rule (p : nat) :
  keeps_checked (insert_horizontal_rule p).
Proof. unfold insert_horizontal_rule. keeping. Qed.

#[local] Hint Resolve keeps_cell_first_paragraph
  keeps_set_cell_background_color keeps_add_item keeps_update_runs
  keeps_insert_horizontal_rule : keeps.

Lemma keeps_add_run (text : string) : keeps_checked (add_run text).
Proof. unfold add_run. keeping. Qed.

Lemma keeps_document_add_picture (path : string) (width : Z) :
  keeps_checked (document_add_picture path width).
Proof. unfold document_add_picture. keeping. Qed.

Lemma keeps_merge_table_cells (t : nat)
    (cell_merges : list ((nat * nat) * (Z * Z))) :
  keeps_checked (merge_table_cells t cell_merges).
Proof.
  unfold merge_table_cells. apply keeps_for_eachM.
  intros _ [[r_idx c_idx] [rowspan colspan]] _. keeping.
Qed.

#[local] Hint Resolve keeps_add_run keeps_document_add_picture
  keeps_merge_table_cells : keeps.

Lemma keeps_parse_text_type pt (content_obj : node) (output : option string) :
  keeps_checked (parse_text_type pt content_obj output).
Proof. unfold parse_text_type. keeping. Qed.

Lemma keeps_parse_image_type ip (content_obj : node) (output : option string) :
  keeps_checked (parse_image_type ip content_obj output).
Proof. unfold parse_image_type. keeping. Qed.

Lemma keeps_parse_horizontal_rule_type (content_obj : node)
    (output : option string) :
  keeps_checked (parse_horizontal_rule_type content_obj output).
Proof. unfold parse_horizontal_rule_type. keeping. Qed.

Section Keeps.

Variable rec : list node -> option string -> M (option string).
Variable content_obj : node.

Hypothesis keeps_rec : forall content output,
  node_content content_obj = Some content -> keeps_checked (rec content output).

Lemma keeps_parse_heading_type (output : option string) :
  keeps_checked (parse_heading_type rec content_obj output).
Proof.
  unfold parse_heading_type. pose proof keeps_rec.
  destruct (node_content content_obj); keeping.
Qed.

Lemma keeps_parse_paragraph_type (output : option string) :
  keeps_checked (parse_paragraph_type rec content_obj output).
Proof.
  unfold parse_paragraph_type. pose proof keeps_rec.
  destruct (node_content content_obj); keeping.
Qed.

Lemma keeps_parse_bullet_list_type (output : option string) :
  keeps_checked (parse_bullet_list_type rec content_obj output).
Proof.
  unfold parse_bullet_list_type. pose proof keeps_rec.
  destruct (node_content content_obj); keeping.
Qed.

Lemma keeps_parse_ordered_list_type (output : option string) :
  keeps_checked (parse_ordered_list_type rec content_obj output).
Proof.
  unfold parse_ordered_list_type. pose proof keeps_rec.
  destruct (node_content content_obj); keeping.
Qed.

Lemma keeps_parse_check_list_type (output : option string) :
  keeps_checked (parse_check_list_type rec content_obj output).
Proof.
  unfold parse_check_list_type. pose proof keeps_rec.
  destruct (node_content content_obj); keeping.
Qed.

Lemma keeps_parse_list_item_type (output : option string) :
  keeps_checked (parse_list_item_type rec content_obj output).
Proof.
  unfold parse_list_item_type. pose proof keeps_rec.
  destruct (node_content content_obj); keeping.
Qed.

Lemma keeps_parse_call_out_box (output : option string) :
  keeps_checked (parse_call_out_box rec content_obj output).
Proof.
  unfold parse_call_out_box. pose proof keeps_rec.
  destruct (node_content content_obj); keeping.
Qed.

Lemma keeps_parse_code_block (output : option string) :
  keeps_checked (parse_code_block rec content_obj output).
Proof.
  unfold parse_code_block. pose proof keeps_rec.
  destruct (node_content content_obj); keeping.
Qed.

Lemma keeps_parse_blockquote (output : option string) :
  keeps_checked (parse_blockquote rec content_obj output).
Proof.
  unfold parse_blockquote. pose proof keeps_rec.
  destruct (node_content content_obj); keeping.
Qed.

End Keeps.

Lemma keeps_bind_lift {A B : Type} (r : result A) (k : A -> M B) :
  (forall a, r = Ok a -> keeps_checked (k a)) ->
  keeps_checked (bindM (lift r) k).
Proof.
  intros Hk st b st'. unfold bindM, lift. destruct r as [a| |]; [|done|done].
  by apply Hk.
Qed.

Lemma keeps_parse_table_cell_type
    (rec : list node -> option string -> M (option string))
    (table_cell_obj : node) (t : nat) :
  (forall content output, node_content table_cell_obj = Some content ->
                          keeps_checked (rec content output)) ->
  keeps_checked (parse_table_cell_type rec table_cell_obj t).
Proof.
  intros Hrec. unfold parse_table_cell_type.
  do 6 (apply keeps_bind; [solve [keeping]|intros]).
  apply keeps_bind_lift. intros content Hc.
  apply keeps_bind; [|intros; solve [keeping]]. apply Hrec.
  by destruct (node_content table_cell_obj) as [c|]; [injection Hc as ->|].
Qed.

Lemma keeps_parse_table_type
    (rec : list node -> option string -> M (option string))
    (content_obj : node) (output : option string) :
  (forall rows row row_cells cell content output,
     node_content content_obj = Some rows -> row ∈ rows ->
     node_content row = Some row_cells -> cell ∈ row_cells ->
     node_content cell = Some content -> keeps_checked (rec content output)) ->
  keeps_checked (parse_table_type rec content_obj output).
Proof.
  intros Hrec. unfold parse_table_type.
  apply keeps_bind_lift. intros [r c] _.
  apply keeps_bind_lift. intros cells0 Hobjs.
  apply keeps_bind_lift. intros [[merges t] cells] Hmerges.
  apply keeps_bind; [solve [keeping]|]. intros tid.
  apply keeps_bind; [solve [keeping]|]. intros _.
  apply keeps_bind; [|intros; solve [keeping]].
  apply keeps_for_eachM. intros _ cell Hcell.
  apply keeps_parse_table_cell_type. intros content o Hcontent.
  destruct (get_table_cell_merges_elem _ _ _ _ _ _ Hmerges Hcell)
    as (cell0 & Hcell0 & Hsame).
  destruct (get_table_cell_objs_elem _ _ _ Hobjs Hcell0)
    as (rows & row & row_cells & Hrows & Hrow & Hrc & Hin).
  apply (Hrec rows row row_cells cell0); try done. by rewrite <- Hsame.
Qed.

Lemma no_check_list_item_content (n : node) (content : list node) :
  no_check_list_item n = true -> node_content n = Some content ->
  forallb no_check_list_item content = true.
Proof.
  destruct n as [ty a [c|] tx m ri ci]; cbn [node_content]; [|done].
  intros H [= ->]. cbn [no_check_list_item] in H.
  apply andb_true_iff in H as [_ H]. revert H.
  induction content as [|x l IH]; [done|]. cbn [forallb].
  intros [Hx Hl]%andb_true_iff. rewrite Hx. cbn. by apply IH.
Qed.

Lemma no_check_list_item_type (n : node) :
  no_check_list_item n = true -> node_type n <> Some "check_list_item".
Proof.
  destruct n as [ty a c tx m ri ci]. cbn [no_check_list_item node_type].
  intros [H _]%andb_true_iff. by destruct (bool_decide_reflect (ty = Some "check_list_item")).
Qed.

Lemma forallb_elem {A : Type} (f : A -> bool) (l : list A) (x : A) :
  forallb f l = true -> x ∈ l -> f x = true.
Proof.
  intros H Hx. rewrite forallb_forall in H. apply H. by apply list_elem_of_In.
Qed.

(** Rendering a tree without check-list items leaves the checked flag as it
    found it. *)
Theorem parse_contents_keeps_checked pt ip (fuel : nat)
    (content_objs : list node) (output : option string) :
  forallb no_check_list_item content_objs = true ->
  keeps_checked (parse_contents pt ip fuel content_objs output).
Proof.
  revert content_objs output.
  induction fuel as [|fuel IH]; intros l output Hl; [by intros st a st'|].
  cbn [parse_contents]. apply keeps_for_eachM. intros o x Hx.
  pose proof (forallb_elem _ _ _ Hl Hx) as Hnx.
  destruct (node_type x) as [ty|] eqn:Ety; [|apply keeps_ret].
  assert (Hrec : forall content output, node_content x = Some content ->
            keeps_checked (parse_contents pt ip fuel content output)).
  { intros content o' Hc. apply IH.
    by apply (no_check_list_item_content x). }
  unfold parse_content_type.
  destruct (String.eqb ty "check_list_item") eqn:Echeck.
  { apply String.eqb_eq in Echeck. subst ty.
    by destruct (no_check_list_item_type x Hnx). }
  repeat match goal with
         | |- keeps_checked (if ?b then _ else _) => destruct b
         end;
    eauto using keeps_parse_heading_type, keeps_parse_paragraph_type,
      keeps_parse_text_type, keeps_parse_bullet_list_type,
      keeps_parse_ordered_list_type, keeps_parse_check_list_type,
      keeps_parse_list_item_type, keeps_parse_image_type,
      keeps_parse_horizontal_rule_type, keeps_parse_call_out_box,
      keeps_parse_code_block, keeps_parse_blockquote, keeps_ret.
  apply keeps_parse_table_type.
  intros rows row row_cells cell content o' Hrows Hrow Hrc Hcell Hcontent.
  apply IH.
  apply (no_check_list_item_content cell); [|done].
  apply (forallb_elem _ row_cells); [|done].
  apply (no_check_list_item_content row); [|done].
  apply (forallb_elem _ rows); [|done].
  by apply (no_check_list_item_content x).
Qed.

(** For an item whose content holds no check-list item, the flag the
    strikethrough step reads is the item's own [checked] attribute. *)
Lemma checked_flag_after_content pt ip (fuel : nat) (content : list node)
    (v : jval) (output res : option string) (st st1 : state) :
  forallb no_check_list_item content = true ->
  parse_contents pt ip fuel content output
    (set_in_check_list_item true
       (set_is_check_list_item_checked (truthy v) st))
  = Ok (res, st1) ->
  is_check_list_item_checked st1 = truthy v.
Proof.
  intros Hno Hrun.
  by rewrite (parse_contents_keeps_checked pt ip fuel content output Hno
                _ _ _ Hrun).
Qed.

(** Items without nested check-list items: a check-list item
    whose [checked] attribute is true and whose content holds no nested
    check-list item has every run after the glyph run struck through; one
    whose attribute is false has no run changed. *)
Corollary strikethrough_by_checked_attribute pt ip (fuel : nat)
    (content_obj : node) (content : list node) (v : jval) (o : string)
    (st : state) (res : option string) (st1 : state) :
  node_content content_obj = Some content ->
  node_attr content_obj "checked" = Some v ->
  forallb no_check_list_item content = true ->
  parse_contents pt ip fuel content
    (Some (o +:+ (repeat_string "  " (Z.to_nat (check_list_level st))
                  +:+ (if truthy v then BALLOT_BOX_CHECKED else BALLOT_BOX)
                  +:+ " ")))
    (set_in_check_list_item true
       (set_is_check_list_item_checked (truthy v) st))
  = Ok (res, st1) ->
  (truthy v = true ->
   forall (pre : list run) (g : run) (post : list run),
     runs (current_items st1) = pre ++ g :: post ->
     Forall (fun r => contains BALLOT_BOX_CHECKED (run_text r) = false) pre ->
     contains BALLOT_BOX_CHECKED (run_text g) = true ->
     exists st2 post',
       parse_check_list_item_type (parse_contents pt ip fuel) content_obj
         (Some o) st = Ok (res, st2)
       /\ runs (current_items st2) = pre ++ g :: post'
       /\ Forall2 struck post post') /\
  (truthy v = false ->
   parse_check_list_item_type (parse_contents pt ip fuel) content_obj
     (Some o) st
   = Ok (res, set_in_check_list_item false st1)).
Proof.
  intros Hc Hv Hno Hrun.
  pose proof (checked_flag_after_content pt ip fuel content v _ res st st1
                Hno Hrun) as Hflag.
  pose proof (strikethrough_step (parse_contents pt ip fuel)
                content_obj content o st res st1 Hc) as H.
  cbv zeta in H. rewrite Hv in H.
  change (is_check_list_item_checked
            (set_in_check_list_item true
               (set_is_check_list_item_checked (truthy v) st)))
    with (truthy v) in H.
  specialize (H Hrun). rewrite Hflag in H. exact H.
Qed.

(** ** A larger budget changes nothing

    Once [parse_contents] returns or raises with some budget, it does the
    same with every larger one. *)

Definition extends {A : Type} (m1 m2 : M A) : Prop :=
  forall st, m1 st <> OutOfFuel -> m2 st = m1 st.

Lemma extends_refl {A : Type} (m : M A) : extends m m.
Proof. by intros st _. Qed.

Lemma extends_bind {A B : Type} (m1 m2 : M A) (k1 k2 : A -> M B) :
  extends m1 m2 -> (forall a, extends (k1 a) (k2 a)) ->
  extends (bindM m1 k1) (bindM m2 k2).
Proof.
  intros Hm Hk st. unfold bindM. specialize (Hm st).
  destruct (m1 st) as [[a st1]| |]; [|by rewrite Hm|done].
  rewrite Hm by done. apply Hk.
Qed.

Lemma extends_for_eachM {A St : Type} (xs : list A)
    (body1 body2 : St -> A -> M St) (s : St) :
  (forall s x, extends (body1 s x) (body2 s x)) ->
  extends (for_eachM xs body1 s) (for_eachM xs body2 s).
Proof.
  intros Hb. revert s. induction xs as [|x xs IH]; intros s;
    [apply extends_refl|].
  cbn [for_eachM]. by apply extends_bind.
Qed.

(** Breaks a goal [extends _ _] between two instances of one handler down
    along their common structure. *)
Ltac extends_step :=
  match goal with
  | |- extends ?m ?m => apply extends_refl
  | |- extends (bindM _ _) (bindM _ _) => apply extends_bind; [|intros]
  | |- extends (for_eachM _ _ _) (for_eachM _ _ _) =>
      apply extends_for_eachM; intros
  | |- extends (let '(_, _) := ?x in _) _ => destruct x
  | |- extends (match ?x with _ => _ end) _ => destruct x
  | |- extends (if ?b then _ else _) _ => destruct b
  | H : forall content output, extends (?r1 content output) _
    |- extends (?r1 _ _) _ => apply H
  end.

Ltac extending := repeat extends_step.

Section Extends.

Variables rec1 rec2 : list node -> option string -> M (option string).

Hypothesis extends_rec :
  forall content output, extends (rec1 content output) (rec2 content output).

Lemma extends_parse_content_type pt ip (content_obj : node) (type : string)
    (output : option string) :
  extends (parse_content_type pt ip rec1 content_obj type output)
          (parse_content_type pt ip rec2 content_obj type output).
Proof.
  pose proof extends_rec as Hrec.
  unfold parse_content_type, parse_heading_type, parse_paragraph_type,
    parse_bullet_list_type, parse_ordered_list_type, parse_check_list_type,
    parse_list_item_type, parse_check_list_item_type, parse_table_type,
    parse_table_cell_type, parse_call_out_box, parse_code_block,
    parse_blockquote.
  extending.
Qed.

End Extends.

Theorem parse_contents_more_fuel pt ip (fuel : nat)
    (content_objs : list node) (output : option string) :
  extends (parse_contents pt ip fuel content_objs output)
          (parse_contents pt ip (S fuel) content_objs output).
Proof.
  revert content_objs output.
  induction fuel as [|fuel IH]; intros l output; [by intros st|].
  cbn [parse_contents]. apply extends_for_eachM. intros o x.
  destruct (node_type x) as [ty|]; [|apply extends_refl].
  apply extends_parse_content_type. intros content o'. apply IH.
Qed.

(** With a budget above the height of the trees the outcome is the one of
    every larger budget. *)
Corollary parse_contents_fuel_independent pt ip (fuel k : nat)
    (content_objs : list node) (output : option string) (st : state) :
  (forall em, pt em <> OutOfFuel) ->
  (nodes_height content_objs < fuel)%nat ->
  parse_contents pt ip (fuel + k) content_objs output st
  = parse_contents pt ip fuel content_objs output st.
Proof.
  intros Hpt Hh. induction k as [|k IH]; [by rewrite Nat.add_0_r|].
  replace (fuel + S k)%nat with (S (fuel + k)) by lia.
  rewrite <- IH. apply parse_contents_more_fuel. rewrite IH.
  by apply parse_contents_enough_fuel.
Qed.


(** * Further properties

    Properties of the code beyond the claims of the specification. *)

(** ** The markers of ordered lists *)

Lemma base26_digits_acc (fuel : nat) (n : Z) (acc : list Z) :
  base26_digits fuel n acc = base26_digits fuel n [] ++ acc.
Proof.
  revert n acc. induction fuel as [|fuel IH]; intros n acc; [done|].
  cbn [base26_digits]. destruct (0 <? n); [|done].
  rewrite (IH _ (_ :: acc)), (IH _ [_]). by rewrite <- app_assoc.
Qed.

(** One round of the loop, seen from the result: the digits of [n // 26],
    then [n % 26]. *)
Lemma base26_digits_step (n : Z) :
  0 < n ->
  base26_digits (Z.to_nat n) n []
  = base26_digits (Z.to_nat (n / 26)) (n / 26) [] ++ [n mod 26].
Proof.
  intros Hn. destruct (Z.to_nat n) as [|fuel] eqn:E; [lia|].
  cbn [base26_digits]. destruct (Z.ltb_spec 0 n); [|lia].
  rewrite base26_digits_acc. f_equal.
  pose proof (Z.div_lt n 26 ltac:(lia) ltac:(lia)).
  pose proof (Z.div_pos n 26 ltac:(lia) ltac:(lia)).
  replace fuel with (Z.to_nat (n / 26) + (fuel - Z.to_nat (n / 26)))%nat by lia.
  apply base26_digits_fuel. lia.
Qed.

Lemma base26_digits_nonpos (n : Z) :
  n <= 0 -> base26_digits (Z.to_nat n) n [] = [].
Proof.
  intros Hn. destruct (Z.to_nat n); [done|]. cbn [base26_digits].
  by destruct (Z.ltb_spec 0 n); [lia|].
Qed.

Lemma list_ascii_of_string_app (a b : string) :
  list_ascii_of_string (a +:+ b)
  = list_ascii_of_string a ++ list_ascii_of_string b.
Proof.
  induction a as [|x a IH]; [done|].
  change (x :: list_ascii_of_string (a +:+ b)
          = x :: (list_ascii_of_string a ++ list_ascii_of_string b)).
  by rewrite IH.
Qed.

Lemma alpha_value_snoc (s : string) (d : Z) :
  0 <= d < 26 -> alpha_value (s +:+ chr (d + 96)) = 26 * alpha_value s + d.
Proof.
  intros Hd. unfold alpha_value. rewrite list_ascii_of_string_app, fold_left_app.
  cbn [chr list_ascii_of_string fold_left].
  rewrite nat_ascii_embedding by lia. lia.
Qed.

(** Reading the letters of an ordinal back gives the ordinal. *)
Lemma alpha_value_letters (n : Z) :
  0 <= n -> alpha_value (letters (base26_digits (Z.to_nat n) n [])) = n.
Proof.
  pattern n. apply (well_founded_induction (Z.lt_wf 0)). clear n.
  intros n IH Hn.
  destruct (Z.ltb_spec 0 n) as [Hpos|Hle].
  - rewrite base26_digits_step by done. unfold letters. rewrite letters_app.
    pose proof (Z.mod_pos_bound n 26 ltac:(lia)).
    rewrite alpha_value_snoc by done.
    pose proof (Z.div_lt n 26 ltac:(lia) ltac:(lia)).
    pose proof (Z.div_pos n 26 ltac:(lia) ltac:(lia)).
    fold (letters (base26_digits (Z.to_nat (n / 26)) (n / 26) [])).
    rewrite IH by lia. pose proof (Z.div_mod n 26 ltac:(lia)). lia.
  - replace n with 0 by lia. reflexivity.
Qed.

Lemma append_inj_r (a b c : string) : a +:+ c = b +:+ c -> a = b.
Proof.
  intros H.
  assert (list_ascii_of_string a = list_ascii_of_string b) as E.
  { apply (f_equal list_ascii_of_string) in H.
    rewrite !list_ascii_of_string_app in H. by apply app_inv_tail in H. }
  apply (f_equal string_of_list_ascii) in E.
  by rewrite !string_of_list_ascii_of_string in E.
Qed.

(** X1: at a depth numbered in decimals or in letters, two different
    ordinals never get the same marker: the letters are the digits of the
    ordinal in base 26, and reading them back gives the ordinal. *)
Theorem markers_are_distinct (d p q : Z) :
  d mod 3 <> 0 -> 0 < p -> 0 < q ->
  get_ordered_list_char d p = get_ordered_list_char d q ->
  p = q.
Proof.
  intros Hd Hp Hq. unfold get_ordered_list_char.
  destruct (Z.eqb_spec (d mod 3) 1).
  { intros [= H]. apply append_inj_r in H. by apply (inj pretty) in H. }
  destruct (Z.eqb_spec (d mod 3) 2).
  { intros [= H]. apply append_inj_r in H.
    apply (f_equal alpha_value) in H.
    fold (letters (base26_digits (Z.to_nat p) p [])) in H.
    fold (letters (base26_digits (Z.to_nat q) q [])) in H.
    rewrite !alpha_value_letters in H by lia. done. }
  pose proof (Z.mod_pos_bound d 3 ltac:(lia)). lia.
Qed.

Lemma markers_are_distinct_witness :
  get_ordered_list_char 2 27 = get_ordered_list_char 2 (26 + 1) /\
  27 = 26 + 1.
Proof.
  split; [reflexivity|].
  apply (markers_are_distinct 2 27 (26 + 1));
    [discriminate | lia | lia | reflexivity].
Defined.

Lemma contains_z (s : string) :
  contains "z" s = existsb is_z (list_ascii_of_string s).
Proof.
  induction s as [|c s IH]; [done|].
  cbn [contains list_ascii_of_string existsb String.prefix]. rewrite IH.
  unfold is_z. destruct (ascii_dec "z" c) as [<-|Hc].
  - by destruct s.
  - by destruct (Ascii.eqb_spec c "z").
Qed.

Lemma contains_z_app (a b : string) :
  contains "z" (a +:+ b) = contains "z" a || contains "z" b.
Proof. by rewrite !contains_z, list_ascii_of_string_app, existsb_app. Qed.

(** None of the 26 characters the digits are written with is a [z]. *)
Lemma chr_digit_no_z (m : Z) :
  0 <= m < 26 -> contains "z" (chr (m + 96)) = false.
Proof.
  intros Hm.
  assert (m ∈ (Z.of_nat <$> seq 0 26)) as Hin.
  { apply list_elem_of_fmap. exists (Z.to_nat m). split; [lia|].
    apply list_elem_of_In, in_seq. lia. }
  revert Hin. clear. cbn [seq fmap list_fmap]. rewrite !elem_of_cons.
  intros H. repeat (destruct H as [->|H]; [reflexivity|]).
  by apply elem_of_nil in H.
Qed.

Lemma letters_no_z (n : Z) :
  contains "z" (letters (base26_digits (Z.to_nat n) n [])) = false.
Proof.
  pattern n. apply (well_founded_induction (Z.lt_wf 0)). clear n.
  intros n IH.
  destruct (Z.leb_spec n 0) as [Hn|Hn].
  { by rewrite base26_digits_nonpos. }
  rewrite base26_digits_step by done. unfold letters.
  rewrite letters_app, contains_z_app.
  fold (letters (base26_digits (Z.to_nat (n / 26)) (n / 26) [])).
  pose proof (Z.div_lt n 26 ltac:(lia) ltac:(lia)).
  pose proof (Z.div_pos n 26 ltac:(lia) ltac:(lia)).
  rewrite IH by lia.
  by rewrite chr_digit_no_z by (apply Z.mod_pos_bound; lia).
Qed.

(** X2: the letter [z] occurs in no marker of a depth numbered in letters,
    whatever the ordinal: the 26 symbols the code writes are the backquote
    and [a] to [y]. *)
Theorem alpha_marker_never_holds_z (d p : Z) (s : string) :
  d mod 3 = 2 -> get_ordered_list_char d p = Ok s -> contains "z" s = false.
Proof.
  intros Hd. rewrite get_ordered_list_char_alpha by done. intros [= <-].
  rewrite contains_z_app.
  fold (letters (base26_digits (Z.to_nat p) p [])).
  by rewrite letters_no_z.
Qed.

Lemma alpha_marker_never_holds_z_witness :
  contains "z" "a`." = false.
Proof.
  exact (alpha_marker_never_holds_z 2 26 "a`." eq_refl eq_refl).
Defined.

(** ** Short colour strings *)

Lemma substring_beyond (n m : nat) (s : string) :
  (String.length s <= n)%nat -> substring n m s = "".
Proof.
  revert n. induction s as [|c s IH]; intros n Hn.
  - by destruct n, m.
  - destruct n as [|n]; [cbn in Hn; lia|]. cbn [substring]. apply IH.
    cbn in Hn. lia.
Qed.

(** X3: a colour string of fewer than six characters never converts: the
    blue slice [hex[5:7]] is empty, and [int] refuses it, if it has not
    refused the red or the green slice before. *)
Theorem short_hex_raises_ValueError (hex : string) :
  (String.length hex <= 5)%nat ->
  get_color_from_hex hex = Err invalid_literal.
Proof.
  intros Hlen. unfold get_color_from_hex.
  destruct (int16 (slice 1 3 hex)) as [r|e|] eqn:Er; cbn [bind];
    [|by rewrite (int16_error _ _ Er)|by destruct (int16_fuel _ Er)].
  destruct (int16 (slice 3 5 hex)) as [g|e|] eqn:Eg; cbn [bind];
    [|by rewrite (int16_error _ _ Eg)|by destruct (int16_fuel _ Eg)].
  unfold slice at 1. by rewrite substring_beyond.
Qed.

Lemma short_hex_raises_ValueError_witness :
  get_color_from_hex "#fff" = Err invalid_literal.
Proof.
  apply short_hex_raises_ValueError. cbn. lia.
Defined.

(** ** The cells of a table *)

Lemma cells_loop (cells acc : list node) :
  for_each cells (fun table_cell_objs row_content_obj =>
    if has_type "table_cell" row_content_obj
    then Ok (table_cell_objs ++ [row_content_obj])
    else Ok table_cell_objs) acc
  = Ok (acc ++ List.filter (has_type "table_cell") cells).
Proof.
  revert acc. induction cells as [|x cells IH]; intros acc; cbn [for_each List.filter].
  - by rewrite app_nil_r.
  - destruct (has_type "table_cell" x); cbn [bind]; rewrite IH; [|done].
    by rewrite <- app_assoc.
Qed.

Lemma rows_loop (rows acc : list node) :
  for_each rows (fun table_cell_objs table_content_obj =>
    if has_type "table_row" table_content_obj then
      let* cells := getitem "content" (node_content table_content_obj) in
      for_each cells (fun table_cell_objs row_content_obj =>
        if has_type "table_cell" row_content_obj
        then Ok (table_cell_objs ++ [row_content_obj])
        else Ok table_cell_objs) table_cell_objs
    else Ok table_cell_objs) acc
  = if forallb row_has_content rows
    then Ok (acc ++ flat_map cells_of_row rows)
    else Err (KeyError "content").
Proof.
  revert acc. induction rows as [|row rows IH]; intros acc;
    cbn [for_each forallb flat_map].
  - by rewrite app_nil_r.
  - unfold row_has_content at 1, cells_of_row at 1.
    destruct (has_type "table_row" row); cbn [negb orb].
    + destruct (node_content row) as [cells|]; cbn [getitem bind default].
      * rewrite cells_loop. cbn [bind]. rewrite IH.
        rewrite bool_decide_true by eauto. cbn [andb].
        by rewrite <- app_assoc.
      * rewrite bool_decide_false; [done|]. by intros [? ?].
    + cbn [bind andb]. by rewrite IH.
Qed.

(** X4: [get_table_cell_objs] returns the [table_cell] children of the
    [table_row] children of the table, in document order, and skips every
    other node; it raises [KeyError] when a [table_row] has no ["content"]
    key. *)
Theorem table_cells_in_document_order (t : node) (rows : list node) :
  node_content t = Some rows ->
  get_table_cell_objs t =
  if forallb row_has_content rows
  then Ok (flat_map cells_of_row rows)
  else Err (KeyError "content").
Proof.
  intros Hrows. unfold get_table_cell_objs. rewrite Hrows. cbn [getitem bind].
  apply rows_loop.
Qed.

Lemma table_cells_in_document_order_witness :
  get_table_cell_objs table_2x2 =
  Ok [element "table_cell" (Some {["colspan" := JInt 2]}) (Some [paragraph_of "x"]);
      element "table_cell" None (Some [paragraph_of "y"]);
      element "table_cell" (Some ∅) (Some [paragraph_of "z"])].
Proof.
  exact (table_cells_in_document_order table_2x2 _ eq_refl).
Defined.

(** *** Declarations the grid has no room for *)

Lemma pop_surplus {A : Type} (extra l rest : list A) (x : A) :
  pop l = Ok (x, rest) -> pop (rev extra ++ l) = Ok (x, rev extra ++ rest).
Proof.
  unfold pop. rewrite rev_app_distr, rev_involutive.
  destruct (rev l) as [|y r]; [done|]. intros [= -> <-]. cbn.
  by rewrite rev_app_distr.
Qed.

Lemma visit_surplus (extra : list node) (i j : nat) (s s' : resolver) :
  visit i j s = Ok s' ->
  visit i j (with_surplus extra s) = Ok (with_surplus extra s').
Proof.
  unfold visit. cbn [with_surplus cell_tracking table_cell_objs_copy
                     cell_merges table_cell_objs].
  destruct (tracking_get (cell_tracking s) i j) as [[]| |]; cbn [bind];
    [by intros [= <-]| |done|done].
  destruct (tracking_set (cell_tracking s) i j) as [t1| |]; cbn [bind];
    [|done|done].
  destruct (pop (table_cell_objs_copy s)) as [[x rest]| |] eqn:Hpop;
    cbn [bind]; [|done|done].
  rewrite (pop_surplus _ _ _ _ Hpop). cbn [bind].
  destruct (cell_spans (set_idx i j x)) as [[rowspan colspan]| |];
    cbn [bind]; [|done|done].
  destruct ((1 <? rowspan) || (1 <? colspan)).
  - destruct (for_range i _ _ t1) as [t2| |]; cbn [bind]; [|done|done].
    by intros [= <-].
  - by intros [= <-].
Qed.

Lemma for_range_surplus {St : Type} (f : St -> St)
    (body : nat -> St -> result St) (count start : nat) (s s' : St) :
  (forall t s s', body t s = Ok s' -> body t (f s) = Ok (f s')) ->
  for_range start count body s = Ok s' ->
  for_range start count body (f s) = Ok (f s').
Proof.
  intros Hbody. revert start s.
  induction count as [|count IH]; intros start s; cbn [for_range].
  - by intros [= <-].
  - destruct (body start s) as [s1| |] eqn:E; cbn [bind]; [|done|done].
    rewrite (Hbody _ _ _ E). cbn [bind]. apply IH.
Qed.

(** Whatever the scan does with [cells], it does with [cells ++ extra],
    and never touches [extra]. *)
Lemma get_table_cell_merges_surplus (tracking tracking' : list (list bool))
    (cells cells' extra : list node) (merges : list ((nat * nat) * (Z * Z))) :
  get_table_cell_merges tracking cells = Ok (merges, tracking', cells') ->
  get_table_cell_merges tracking (cells ++ extra)
  = Ok (merges, tracking', cells' ++ extra).
Proof.
  unfold get_table_cell_merges.
  match goal with
  | |- context [for_range 0 ?n ?body ?s0] =>
      destruct (for_range 0 n body s0) as [s| |] eqn:E; cbn [bind];
      [|done|done];
      apply (for_range_surplus (with_surplus extra)) in E
  end.
  - unfold with_surplus at 1 in E.
    cbn [cell_tracking table_cell_objs_copy cell_merges table_cell_objs] in E.
    rewrite rev_app_distr, E.
    cbn [bind with_surplus cell_merges cell_tracking
         table_cell_objs table_cell_objs_copy].
    intros [= <- <- <-]. by rewrite rev_app_distr, rev_involutive, app_assoc.
  - intros i s1 s2. cbn [with_surplus cell_tracking].
    destruct (cell_tracking s1 !! i) as [row|]; cbn [bind]; [|done].
    apply for_range_surplus. intros j s3 s4. apply visit_surplus.
Qed.

(** X5: declarations beyond those the grid has room for are left as they
    are by the resolver, which raises nothing and returns what it returns
    without them; they get no [row_idx] and no [col_idx], and rendering one
    of them raises [KeyError]. *)
Theorem surplus_cells_get_no_index
    (rec : list node -> option string -> M (option string))
    (tracking tracking' : list (list bool)) (cells cells' extra : list node)
    (merges : list ((nat * nat) * (Z * Z))) :
  get_table_cell_merges tracking cells = Ok (merges, tracking', cells') ->
  get_table_cell_merges tracking (cells ++ extra)
  = Ok (merges, tracking', cells' ++ extra) /\
  forall (x : node) (t : nat) (st : state),
    x ∈ extra -> row_idx x = None ->
    parse_table_cell_type rec x t st = Err (KeyError "row_idx").
Proof.
  intros H. split; [by apply get_table_cell_merges_surplus|].
  intros x t st _ Hx. unfold parse_table_cell_type, bindM, lift.
  by rewrite Hx.
Qed.

Lemma surplus_cells_get_no_index_witness :
  get_table_cell_merges (get_cell_tracking_table 1 1)
    ([element "table_cell" None (Some [])]
     ++ [element "table_cell" None (Some [paragraph_of "x"])])
  = Ok ([], [[true]],
        [set_idx 0 0 (element "table_cell" None (Some []))]
        ++ [element "table_cell" None (Some [paragraph_of "x"])]) /\
  forall (x : node) (t : nat) (st : state),
    x ∈ [element "table_cell" None (Some [paragraph_of "x"])] ->
    row_idx x = None ->
    parse_table_cell_type (parse_contents example_pt example_image_path 3)
      x t st = Err (KeyError "row_idx").
Proof.
  exact (surplus_cells_get_no_index
           (parse_contents example_pt example_image_path 3)
           (get_cell_tracking_table 1 1) [[true]]
           [element "table_cell" None (Some [])]
           [set_idx 0 0 (element "table_cell" None (Some []))]
           [element "table_cell" None (Some [paragraph_of "x"])]
           [] eq_refl).
Defined.

(** *** Spans that leave the grid *)

Lemma for_range_err {St : Type} (P : nat -> St -> Prop) (E : exn -> Prop)
    (body : nat -> St -> result St) (count start : nat) (s : St) :
  P start s ->
  (forall t s, (start <= t < start + count)%nat -> P t s ->
     match body t s with
     | Ok s' => P (S t) s'
     | Err e => E e
     | OutOfFuel => False
     end) ->
  (forall s', ~ P (start + count)%nat s') ->
  exists e, for_range start count body s = Err e /\ E e.
Proof.
  intros Hs Hbody Hend.
  pose proof (for_range_inv P E body count start s Hs Hbody) as H.
  destruct (for_range start count body s) as [s'|e|]; [|by eauto|done].
  by destruct (Hend s').
Qed.

Lemma mark_row_overflow (r c : nat) (t : list (list bool)) (i j cs : nat) :
  shaped r c t -> (0 < cs)%nat -> (j <= c)%nat ->
  (r <= i \/ c < j + cs)%nat ->
  exists e,
    for_range j cs (fun i_c tracking => tracking_set tracking i i_c) t = Err e /\
    is_IndexError e.
Proof.
  intros Hs Hcs Hj Hover.
  destruct (decide (i < r)%nat) as [Hi|Hi].
  - apply (for_range_err (fun k t' => shaped r c t' /\ (k <= c)%nat)).
    + done.
    + intros k t0 Hk [Hs0 Hkc].
      destruct (decide (k < c)%nat) as [Hlt|Hge].
      * destruct (tracking_set_shaped r c t0 i k Hs0 Hi Hlt)
          as (t1 & -> & Hs1 & _). split; [done|lia].
      * destruct (shaped_row r c t0 i Hs0 Hi) as (row & Hrow & Hlen).
        unfold tracking_set. rewrite Hrow.
        destruct (decide (k < length row)%nat); [lia|]. reflexivity.
    + intros t' [_ H]. lia.
  - destruct cs as [|cs]; [lia|]. cbn [for_range]. unfold tracking_set at 1.
    destruct Hs as [Hl _].
    rewrite (lookup_ge_None_2 t i) by lia. cbn [bind]. by eexists.
Qed.

Lemma mark_rectangle_overflow (r c : nat) (t : list (list bool))
    (i j rs cs : nat) :
  shaped r c t -> (0 < rs)%nat -> (0 < cs)%nat -> (i <= r)%nat -> (j <= c)%nat ->
  (r < i + rs \/ c < j + cs)%nat ->
  exists e,
    for_range i rs (fun i_r tracking =>
      for_range j cs (fun i_c tracking => tracking_set tracking i_r i_c)
                tracking) t = Err e /\
    is_IndexError e.
Proof.
  intros Hs Hrs Hcs Hi Hj Hover.
  destruct (decide (c < j + cs)%nat) as [Hc|Hc].
  - destruct rs as [|rs]; [lia|]. cbn [for_range].
    destruct (mark_row_overflow r c t i j cs Hs Hcs Hj ltac:(lia))
      as (e & -> & He).
    cbn [bind]. by eexists.
  - apply (for_range_err (fun k t' => shaped r c t' /\ (k <= r)%nat)).
    + done.
    + intros k t0 Hk [Hs0 Hkr].
      destruct (decide (k < r)%nat) as [Hlt|Hge].
      * destruct (mark_row r c t0 k j cs Hs0 Hlt ltac:(lia))
          as (t1 & -> & Hs1 & _). split; [done|lia].
      * by destruct (mark_row_overflow r c t0 k j cs Hs0 Hcs Hj ltac:(lia))
          as (e & -> & He).
    + intros t' [_ H]. lia.
Qed.

(** X6: a first declaration whose span does not fit the grid makes the
    resolver raise [IndexError] while it marks the occupancy grid: nothing
    checks a span against the dimensions of the table. *)
Theorem span_beyond_grid_raises_IndexError (r c : nat) (cell : node)
    (rest : list node) (rowspan colspan : Z) :
  (0 < r)%nat -> (0 < c)%nat ->
  cell_spans cell = Ok (rowspan, colspan) ->
  1 <= rowspan -> 1 <= colspan ->
  Z.of_nat r < rowspan \/ Z.of_nat c < colspan ->
  exists e,
    get_table_cell_merges (get_cell_tracking_table (Z.of_nat r) (Z.of_nat c))
                          (cell :: rest) = Err e /\
    exn_class e = "IndexError".
Proof.
  intros Hr Hc Hspans Hrs Hcs Hover. unfold get_table_cell_merges.
  pose proof (shaped_fresh r c) as Hs.
  replace (length (get_cell_tracking_table (Z.of_nat r) (Z.of_nat c))) with r
    by (symmetry; apply Hs).
  destruct r as [|r']; [lia|]. cbn [for_range cell_tracking].
  destruct (shaped_row _ _ _ 0%nat Hs ltac:(lia)) as (row & -> & Hlen).
  cbn [bind]. rewrite Hlen. destruct c as [|c']; [lia|]. cbn [for_range].
  unfold visit at 1. cbn [cell_tracking table_cell_objs_copy].
  rewrite (tracking_get_shaped _ _ _ 0 0 Hs) by lia.
  rewrite occupied_fresh. cbn [bind].
  destruct (tracking_set_shaped _ _ _ 0%nat 0%nat Hs ltac:(lia) ltac:(lia))
    as (t1 & -> & Hs1 & _).
  cbn [bind]. rewrite pop_rev_cons. cbn [bind].
  rewrite cell_spans_set_idx, Hspans. cbn [bind].
  replace ((1 <? rowspan) || (1 <? colspan)) with true
    by (symmetry; apply orb_true_iff; rewrite !Z.ltb_lt; lia).
  destruct (mark_rectangle_overflow _ _ t1 0 0 (Z.to_nat rowspan)
              (Z.to_nat colspan) Hs1 ltac:(lia) ltac:(lia) ltac:(lia)
              ltac:(lia) ltac:(lia)) as (e & -> & He).
  cbn [bind]. by exists e.
Qed.

Lemma span_beyond_grid_raises_IndexError_witness :
  exists e,
    get_table_cell_merges (get_cell_tracking_table 1 1)
      [element "table_cell" (Some {["colspan" := JInt 1; "rowspan" := JInt 2]})
         (Some [])] = Err e /\
    exn_class e = "IndexError".
Proof.
  apply (span_beyond_grid_raises_IndexError 1 1 _ [] 2 1);
    [lia|lia|reflexivity|lia|lia|left; lia].
Defined.

(** ** What a handler leaves unchanged *)

Section Preserves.

Context {B : Type} (f : state -> B).

Lemma preserves_ret {A : Type} (a : A) : preserves f (ret a).
Proof. by intros st a' st' [= <- <-]. Qed.

Lemma preserves_raise {A : Type} (e : exn) : preserves f (@raise A e).
Proof. by intros st a st'. Qed.

Lemma preserves_read {A : Type} (global : state -> A) :
  preserves f (read global).
Proof. by intros st a' st' [= <- <-]. Qed.

Lemma preserves_lift {A : Type} (r : result A) : preserves f (lift r).
Proof.
  intros st a st'. unfold lift. destruct r; [|done|done]. by intros [= <- <-].
Qed.

Lemma preserves_write (assign : state -> state) :
  (forall st, f (assign st) = f st) -> preserves f (write assign).
Proof. intros H st a st' [= <- <-]. apply H. Qed.

Lemma preserves_bind {A C : Type} (m : M A) (k : A -> M C) :
  preserves f m -> (forall a, preserves f (k a)) -> preserves f (bindM m k).
Proof.
  intros Hm Hk st b st'. unfold bindM.
  destruct (m st) as [[a st1]| |] eqn:E; [|done|done].
  intros H. rewrite (Hk a st1 b st' H). by apply (Hm st a).
Qed.

Lemma preserves_bind_lift {A C : Type} (r : result A) (k : A -> M C) :
  (forall a, r = Ok a -> preserves f (k a)) -> preserves f (bindM (lift r) k).
Proof.
  intros Hk st b st'. unfold bindM, lift. destruct r as [a| |]; [|done|done].
  by apply Hk.
Qed.

Lemma preserves_for_eachM {A St : Type} (xs : list A)
    (body : St -> A -> M St) (s : St) :
  (forall s x, x ∈ xs -> preserves f (body s x)) ->
  preserves f (for_eachM xs body s).
Proof.
  revert s. induction xs as [|x xs IH]; intros s Hb; [apply preserves_ret|].
  cbn [for_eachM]. apply preserves_bind; [apply Hb; left|].
  intros s'. apply IH. intros s0 y Hy. apply Hb. by right.
Qed.

Lemma preserves_repeatM (n : nat) (m : M unit) :
  preserves f m -> preserves f (repeatM n m).
Proof.
  intros Hm. induction n as [|n IH]; [apply preserves_ret|].
  cbn [repeatM]. by apply preserves_bind.
Qed.

(** The sink only ever assigns [document]. *)
Hypothesis f_document : forall v st, f (set_document v st) = f st.

Lemma preserves_document_add_paragraph : preserves f document_add_paragraph.
Proof. intros st a st' [= <- <-]. apply f_document. Qed.

Lemma preserves_document_add_table (rows cols : Z) (style : option string) :
  preserves f (document_add_table rows cols style).
Proof. intros st a st' [= <- <-]. apply f_document. Qed.

Lemma preserves_cell_add_paragraph (c : nat * nat) :
  preserves f (cell_add_paragraph c).
Proof. intros st a st' [= <- <-]. apply f_document. Qed.

Lemma preserves_the_table (t : nat) : preserves f (the_table t).
Proof.
  intros st a st'. unfold the_table. destruct (_ !! _); [|done].
  by intros [= <- <-].
Qed.

Lemma preserves_the_paragraph : preserves f the_paragraph.
Proof.
  intros st a st'. unfold the_paragraph.
  destruct (current_paragraph st); [|done]. by intros [= <- <-].
Qed.

Lemma preserves_the_table_cell : preserves f the_table_cell.
Proof.
  intros st a st'. unfold the_table_cell.
  destruct (current_table_cell st); [|done]. by intros [= <- <-].
Qed.

End Preserves.

(** Breaks a goal [preserves f _] down along the structure of the handler;
    an assignment is looked at by computation. *)
Ltac preserves_step :=
  match goal with
  | H : forall l output, _ -> preserves _ (?rec l output)
    |- preserves _ (?rec _ _) => apply H
  | |- preserves _ (ret _) => apply preserves_ret
  | |- preserves _ (raise _) => apply preserves_raise
  | |- preserves _ (read _) => apply preserves_read
  | |- preserves _ (lift _) => apply preserves_lift
  | |- preserves _ (write _) => apply preserves_write; intros; reflexivity
  | |- preserves _ (bindM _ _) => apply preserves_bind; [|intros]
  | |- preserves _ (for_eachM _ _ _) => apply preserves_for_eachM; intros
  | |- preserves _ (repeatM _ _) => apply preserves_repeatM
  | |- preserves _ document_add_paragraph =>
      apply preserves_document_add_paragraph; intros; reflexivity
  | |- preserves _ (document_add_table _ _ _) =>
      apply preserves_document_add_table; intros; reflexivity
  | |- preserves _ (cell_add_paragraph _) =>
      apply preserves_cell_add_paragraph; intros; reflexivity
  | |- preserves _ (the_table _) => apply preserves_the_table
  | |- preserves _ the_paragraph => apply preserves_the_paragraph
  | |- preserves _ the_table_cell => apply preserves_the_table_cell
  | |- preserves _ (let '(_, _) := ?x in _) => destruct x
  | |- preserves _ (match ?x with _ => _ end) => destruct x eqn:?
  | |- preserves _ (if ?b then _ else _) => destruct b eqn:?
  end.

Ltac preserving :=
  unfold merge_table_cells, merge_cells, add_run, document_add_picture,
    add_item, update_runs, set_cell_background_color, cell_first_paragraph,
    the_cell, insert_horizontal_rule;
  repeat preserves_step.

Lemma every_node_here (p : node -> bool) (n : node) :
  every_node p n = true -> p n = true.
Proof. destruct n. cbn [every_node]. by intros [H _]%andb_true_iff. Qed.

Lemma every_node_content (p : node -> bool) (n : node) (content : list node) :
  every_node p n = true -> node_content n = Some content ->
  forallb (every_node p) content = true.
Proof.
  destruct n as [ty a [c|] tx m ri ci]; cbn [node_content]; [|done].
  intros H [= ->]. cbn [every_node] in H.
  apply andb_true_iff in H as [_ H]. revert H.
  induction content as [|x l IH]; [done|]. cbn [forallb].
  intros [Hx Hl]%andb_true_iff. rewrite Hx. cbn. by apply IH.
Qed.

(** The cells [parse_table_type] renders lie two levels below the table. *)
Lemma every_node_table_cell (p : node -> bool) (t : node)
    (cells0 cells : list node) (tracking tracking' : list (list bool))
    (merges : list ((nat * nat) * (Z * Z))) (cell : node)
    (content : list node) :
  every_node p t = true ->
  get_table_cell_objs t = Ok cells0 ->
  get_table_cell_merges tracking cells0 = Ok (merges, tracking', cells) ->
  cell ∈ cells -> node_content cell = Some content ->
  forallb (every_node p) content = true.
Proof.
  intros Ht Hobjs Hmerges Hcell Hcontent.
  destruct (get_table_cell_merges_elem _ _ _ _ _ _ Hmerges Hcell)
    as (cell0 & Hcell0 & Hsame).
  destruct (get_table_cell_objs_elem _ _ _ Hobjs Hcell0)
    as (rows & row & row_cells & Hrows & Hrow & Hrc & Hin).
  apply (every_node_content p cell0); [|by rewrite <- Hsame].
  apply (forallb_elem _ row_cells); [|done].
  apply (every_node_content p row); [|done].
  apply (forallb_elem _ rows); [|done].
  by apply (every_node_content p t).
Qed.

(** A handler-by-handler fact about nodes that satisfy [p] carries over to
    whole trees. *)
Lemma parse_contents_preserves {B : Type} (f : state -> B) (p : node -> bool)
    pt ip :
  (forall rec content_obj type output,
     every_node p content_obj = true -> node_type content_obj = Some type ->
     (forall l output, forallb (every_node p) l = true ->
                       preserves f (rec l output)) ->
     preserves f (parse_content_type pt ip rec content_obj type output)) ->
  forall (fuel : nat) (content_objs : list node) (output : option string),
    forallb (every_node p) content_objs = true ->
    preserves f (parse_contents pt ip fuel content_objs output).
Proof.
  intros Hstep fuel. induction fuel as [|fuel IH]; intros l output Hl;
    [by intros st a st'|].
  cbn [parse_contents]. apply preserves_for_eachM. intros o x Hx.
  destruct (node_type x) as [ty|] eqn:Ety; [|apply preserves_ret].
  apply Hstep; [by apply (forallb_elem _ l)|done|done].
Qed.

(** The rendering of the cells of a table. *)
Lemma preserves_table_cells {B : Type} (f : state -> B) (p : node -> bool)
    (rec : list node -> option string -> M (option string))
    (t : node) (tid : nat) (cells0 cells : list node)
    (tracking tracking' : list (list bool))
    (merges : list ((nat * nat) * (Z * Z))) :
  (forall v st, f (set_current_table_cell v st) = f st) ->
  (forall v st, f (set_use_table_cell_paragraph v st) = f st) ->
  every_node p t = true ->
  get_table_cell_objs t = Ok cells0 ->
  get_table_cell_merges tracking cells0 = Ok (merges, tracking', cells) ->
  (forall l output, forallb (every_node p) l = true ->
                    preserves f (rec l output)) ->
  preserves f (for_eachM cells (fun _ table_cell_obj =>
                 parse_table_cell_type rec table_cell_obj tid) tt).
Proof.
  intros Hc Hu Ht Hobjs Hmerges Hrec.
  apply preserves_for_eachM. intros _ cell Hcell.
  unfold parse_table_cell_type.
  do 4 (apply preserves_bind; [solve [preserving]|intros]).
  apply preserves_bind; [apply preserves_write; intros; apply Hc|intros].
  apply preserves_bind; [apply preserves_write; intros; apply Hu|intros].
  apply preserves_bind_lift. intros content Hcontent.
  apply preserves_bind; [|intros; apply preserves_ret].
  apply Hrec.
  apply (every_node_table_cell p t cells0 cells tracking tracking' merges cell);
    try done.
  by destruct (node_content cell) as [c|]; [injection Hcontent as ->|].
Qed.

(** *** The code-block flag *)

Lemma preserves_in_code_block pt ip
    (rec : list node -> option string -> M (option string))
    (content_obj : node) (type : string) (output : option string) :
  every_node not_code_block content_obj = true ->
  node_type content_obj = Some type ->
  (forall l output, forallb (every_node not_code_block) l = true ->
                    preserves in_code_block (rec l output)) ->
  preserves in_code_block
    (parse_content_type pt ip rec content_obj type output).
Proof.
  intros Hp Hty Hrec.
  assert (Hcontent : forall content, node_content content_obj = Some content ->
            forallb (every_node not_code_block) content = true)
    by (intros content; by apply every_node_content).
  unfold parse_content_type.
  destruct (String.eqb_spec type "code_block") as [->|Hne].
  { apply every_node_here in Hp. unfold not_code_block in Hp.
    by rewrite Hty, bool_decide_true in Hp. }
  destruct (String.eqb type "table") eqn:Etable.
  { repeat match goal with
           | |- preserves _ (if ?b then _ else _) => destruct b
           end; try solve [unfold parse_heading_type, parse_paragraph_type,
             parse_text_type, parse_bullet_list_type, parse_ordered_list_type,
             parse_check_list_type, parse_list_item_type,
             parse_check_list_item_type, parse_image_type; preserving; eauto].
    unfold parse_table_type.
    apply preserves_bind_lift. intros [r c] _.
    apply preserves_bind_lift. intros cells0 Hobjs.
    apply preserves_bind_lift. intros [[merges t] cells] Hmerges.
    apply preserves_bind; [solve [preserving]|]. intros tid.
    apply preserves_bind; [solve [preserving]|]. intros _.
    apply preserves_bind; [|intros; solve [preserving]].
    by apply (preserves_table_cells _ not_code_block rec content_obj tid
                cells0 cells (get_cell_tracking_table r c) t merges). }
  unfold parse_heading_type, parse_paragraph_type, parse_text_type,
    parse_bullet_list_type, parse_ordered_list_type, parse_check_list_type,
    parse_list_item_type, parse_check_list_item_type, parse_image_type,
    parse_horizontal_rule_type, parse_call_out_box, parse_blockquote.
  preserving; eauto.
Qed.

(** X7: only a [code_block] node assigns [in_code_block].  Rendering a tree
    without such nodes leaves the flag as it found it: [parse_blockquote]
    in particular, whose [in_code_block = False] assigns a local variable,
    does not clear it. *)
Theorem code_block_flag_kept pt ip (fuel : nat) (content_objs : list node)
    (output res : option string) (st st' : state) :
  forallb (every_node not_code_block) content_objs = true ->
  parse_contents pt ip fuel content_objs output st = Ok (res, st') ->
  in_code_block st' = in_code_block st.
Proof.
  intros Hl H.
  apply (parse_contents_preserves in_code_block not_code_block pt ip
           (preserves_in_code_block pt ip) fuel content_objs output Hl _ _ _ H).
Qed.

Lemma code_block_flag_kept_witness :
  in_code_block
    (outcome_state
       (parse_contents example_pt example_image_path 3
          [element "blockquote" None (Some [paragraph_of "q"])] (Some "T")
          (set_in_code_block true (start_document "T" initial_state))))
  = in_code_block (set_in_code_block true (start_document "T" initial_state)).
Proof.
  apply (code_block_flag_kept example_pt example_image_path 3
           [element "blockquote" None (Some [paragraph_of "q"])] (Some "T")
           (outcome_output
              (parse_contents example_pt example_image_path 3
                 [element "blockquote" None (Some [paragraph_of "q"])]
                 (Some "T")
                 (set_in_code_block true (start_document "T" initial_state)))));
    [reflexivity | vm_compute; reflexivity].
Defined.

(** *** The nesting levels *)

Lemma levels_parse_bullet_list_type
    (rec : list node -> option string -> M (option string))
    (content_obj : node) (content : list node) (output : option string) :
  node_content content_obj = Some content ->
  (forall output, preserves levels (rec content output)) ->
  preserves levels (parse_bullet_list_type rec content_obj output).
Proof.
  intros Hc Hrec st a st'. unfold parse_bullet_list_type. rewrite Hc.
  unfold bindM, write, read, ret.
  destruct (rec content output _) as [[r st2]| |] eqn:E; [|done|done].
  intros [= <- <-]. apply Hrec in E. revert E. unfold levels. cbn.
  intros [= -> -> ->]. by rewrite Z.add_simpl_r.
Qed.

Lemma levels_parse_ordered_list_type
    (rec : list node -> option string -> M (option string))
    (content_obj : node) (content : list node) (output : option string) :
  node_content content_obj = Some content ->
  (forall output, preserves levels (rec content output)) ->
  preserves levels (parse_ordered_list_type rec content_obj output).
Proof.
  intros Hc Hrec st a st'. unfold parse_ordered_list_type. rewrite Hc.
  unfold bindM, write, read, ret.
  destruct (rec content output _) as [[r st2]| |] eqn:E; [|done|done].
  intros [= <- <-]. apply Hrec in E. revert E. unfold levels. cbn.
  intros [= -> -> ->]. by rewrite Z.add_simpl_r.
Qed.

Lemma levels_parse_check_list_type
    (rec : list node -> option string -> M (option string))
    (content_obj : node) (content : list node) (output : option string) :
  node_content content_obj = Some content ->
  (forall output, preserves levels (rec content output)) ->
  preserves levels (parse_check_list_type rec content_obj output).
Proof.
  intros Hc Hrec st a st'. unfold parse_check_list_type. rewrite Hc.
  unfold bindM, write, read, ret.
  destruct (rec content output _) as [[r st2]| |] eqn:E; [|done|done].
  intros [= <- <-]. apply Hrec in E. revert E. unfold levels. cbn.
  intros [= -> -> ->]. by rewrite Z.add_simpl_r.
Qed.

Lemma list_container_content (content_obj : node) (type : string) :
  every_node list_has_content content_obj = true ->
  node_type content_obj = Some type ->
  type = "bullet_list" \/ type = "ordered_list" \/ type = "check_list" ->
  exists content, node_content content_obj = Some content.
Proof.
  intros Hp%every_node_here Hty Hlist.
  unfold list_has_content, is_list_container in Hp. rewrite Hty in Hp.
  destruct (node_content content_obj) as [content|]; [by eauto|].
  rewrite (bool_decide_false (is_Some None)) in Hp by (by intros [? ?]).
  destruct Hlist as [-> | [-> | ->]]; done.
Qed.

Lemma preserves_levels pt ip
    (rec : list node -> option string -> M (option string))
    (content_obj : node) (type : string) (output : option string) :
  every_node list_has_content content_obj = true ->
  node_type content_obj = Some type ->
  (forall l output, forallb (every_node list_has_content) l = true ->
                    preserves levels (rec l output)) ->
  preserves levels (parse_content_type pt ip rec content_obj type output).
Proof.
  intros Hp Hty Hrec.
  assert (Hcontent : forall content, node_content content_obj = Some content ->
            forallb (every_node list_has_content) content = true)
    by (intros content; by apply every_node_content).
  unfold parse_content_type.
  destruct (String.eqb_spec type "bullet_list") as [->|Hb].
  { destruct (list_container_content _ _ Hp Hty) as [content Hc]; [tauto|].
    repeat match goal with
           | |- preserves _ (if ?b then _ else _) => destruct b
           end; try solve [unfold parse_heading_type, parse_paragraph_type,
             parse_text_type; preserving; eauto].
    apply (levels_parse_bullet_list_type rec content_obj content); eauto. }
  destruct (String.eqb_spec type "ordered_list") as [->|Ho].
  { destruct (list_container_content _ _ Hp Hty) as [content Hc]; [tauto|].
    repeat match goal with
           | |- preserves _ (if ?b then _ else _) => destruct b
           end; try solve [unfold parse_heading_type, parse_paragraph_type,
             parse_text_type; preserving; eauto].
    apply (levels_parse_ordered_list_type rec content_obj content); eauto. }
  destruct (String.eqb_spec type "check_list") as [->|Hc].
  { destruct (list_container_content _ _ Hp Hty) as [content Hc]; [tauto|].
    repeat match goal with
           | |- preserves _ (if ?b then _ else _) => destruct b
           end; try solve [unfold parse_heading_type, parse_paragraph_type,
             parse_text_type; preserving; eauto].
    apply (levels_parse_check_list_type rec content_obj content); eauto. }
  destruct (String.eqb type "table") eqn:Etable.
  { repeat match goal with
           | |- preserves _ (if ?b then _ else _) => destruct b
           end; try solve [unfold parse_heading_type, parse_paragraph_type,
             parse_text_type, parse_list_item_type,
             parse_check_list_item_type, parse_image_type; preserving; eauto].
    unfold parse_table_type.
    apply preserves_bind_lift. intros [r c] _.
    apply preserves_bind_lift. intros cells0 Hobjs.
    apply preserves_bind_lift. intros [[merges t] cells] Hmerges.
    apply preserves_bind; [solve [preserving]|]. intros tid.
    apply preserves_bind; [solve [preserving]|]. intros _.
    apply preserves_bind; [|intros; solve [preserving]].
    by apply (preserves_table_cells _ list_has_content rec content_obj tid
                cells0 cells (get_cell_tracking_table r c) t merges). }
  unfold parse_heading_type, parse_paragraph_type, parse_text_type,
    parse_list_item_type, parse_check_list_item_type, parse_image_type,
    parse_horizontal_rule_type, parse_call_out_box, parse_code_block,
    parse_blockquote.
  preserving; eauto.
Qed.

(** X8: in a tree where every list container has a ["content"] key, the
    three nesting counters are balanced: whenever the rendering of the tree
    returns, each of them has the value it had on entry. *)
Theorem nesting_levels_balanced pt ip (fuel : nat)
    (content_objs : list node) (output res : option string)
    (st st' : state) :
  forallb (every_node list_has_content) content_objs = true ->
  parse_contents pt ip fuel content_objs output st = Ok (res, st') ->
  bullet_list_level st' = bullet_list_level st /\
  ordered_list_level st' = ordered_list_level st /\
  check_list_level st' = check_list_level st.
Proof.
  intros Hl H.
  pose proof (parse_contents_preserves levels list_has_content pt ip
                (preserves_levels pt ip) fuel content_objs output Hl _ _ _ H)
    as E.
  unfold levels in E. by injection E as -> -> ->.
Qed.

Lemma nesting_levels_balanced_witness :
  bullet_list_level
    (outcome_state (parse_contents example_pt example_image_path 4
                      two_ordered_lists (Some "T")
                      (start_document "T" initial_state)))
  = bullet_list_level (start_document "T" initial_state) /\
  ordered_list_level
    (outcome_state (parse_contents example_pt example_image_path 4
                      two_ordered_lists (Some "T")
                      (start_document "T" initial_state)))
  = ordered_list_level (start_document "T" initial_state) /\
  check_list_level
    (outcome_state (parse_contents example_pt example_image_path 4
                      two_ordered_lists (Some "T")
                      (start_document "T" initial_state)))
  = check_list_level (start_document "T" initial_state).
Proof.
  apply (nesting_levels_balanced example_pt example_image_path 4
           two_ordered_lists (Some "T")
           (outcome_output (parse_contents example_pt example_image_path 4
                              two_ordered_lists (Some "T")
                              (start_document "T" initial_state))));
    [reflexivity | vm_compute; reflexivity].
Defined.

(** *** The kind of list *)

Lemma preserves_list_type pt ip
    (rec : list node -> option string -> M (option string))
    (content_obj : node) (type : string) (output : option string) :
  every_node not_list_container content_obj = true ->
  node_type content_obj = Some type ->
  (forall l output, forallb (every_node not_list_container) l = true ->
                    preserves list_type (rec l output)) ->
  preserves list_type (parse_content_type pt ip rec content_obj type output).
Proof.
  intros Hp Hty Hrec.
  assert (Hcontent : forall content, node_content content_obj = Some content ->
            forallb (every_node not_list_container) content = true)
    by (intros content; by apply every_node_content).
  assert (Hnot : type <> "bullet_list" /\ type <> "ordered_list" /\
                 type <> "check_list").
  { apply every_node_here in Hp.
    unfold not_list_container, is_list_container in Hp. rewrite Hty in Hp.
    repeat split; intros ->; by vm_compute in Hp. }
  destruct Hnot as (Hb & Ho & Hc).
  unfold parse_content_type.
  destruct (String.eqb_spec type "bullet_list"); [done|].
  destruct (String.eqb_spec type "ordered_list"); [done|].
  destruct (String.eqb_spec type "check_list"); [done|].
  destruct (String.eqb type "table") eqn:Etable.
  { repeat match goal with
           | |- preserves _ (if ?b then _ else _) => destruct b
           end; try solve [unfold parse_heading_type, parse_paragraph_type,
             parse_text_type, parse_list_item_type,
             parse_check_list_item_type, parse_image_type; preserving; eauto].
    unfold parse_table_type.
    apply preserves_bind_lift. intros [r c] _.
    apply preserves_bind_lift. intros cells0 Hobjs.
    apply preserves_bind_lift. intros [[merges t] cells] Hmerges.
    apply preserves_bind; [solve [preserving]|]. intros tid.
    apply preserves_bind; [solve [preserving]|]. intros _.
    apply preserves_bind; [|intros; solve [preserving]].
    by apply (preserves_table_cells _ not_list_container rec content_obj tid
                cells0 cells (get_cell_tracking_table r c) t merges). }
  unfold parse_heading_type, parse_paragraph_type, parse_text_type,
    parse_list_item_type, parse_check_list_item_type, parse_image_type,
    parse_horizontal_rule_type, parse_call_out_box, parse_code_block,
    parse_blockquote.
  preserving; eauto.
Qed.

(** X9: [list_type] is assigned when a list is entered and never restored
    when it is left.  A list container whose content nests no further list
    returns with [list_type] naming its own kind, whatever the kind of the
    list around it. *)
Theorem list_type_not_restored pt ip (fuel : nat) (content_obj : node)
    (type kind : string) (content : list node) (output res : option string)
    (st st' : state) :
  list_kind type = Some kind ->
  node_content content_obj = Some content ->
  forallb (every_node not_list_container) content = true ->
  parse_content_type pt ip (parse_contents pt ip fuel) content_obj type output st
  = Ok (res, st') ->
  list_type st' = Some kind.
Proof.
  intros Hkind Hc Hl.
  pose proof (parse_contents_preserves list_type not_list_container pt ip
                (preserves_list_type pt ip) fuel content) as Hrec.
  unfold list_kind in Hkind. unfold parse_content_type.
  destruct (String.eqb_spec type "bullet_list") as [->|_].
  { injection Hkind as <-. cbn [String.eqb Ascii.eqb Bool.eqb].
    unfold parse_bullet_list_type. rewrite Hc.
    unfold bindM, write, read, ret.
    destruct (parse_contents _ _ _ _ _ _) as [[r st2]| |] eqn:E; [|done|done].
    intros [= <- <-]. by apply (Hrec _ Hl) in E. }
  destruct (String.eqb_spec type "ordered_list") as [->|_].
  { injection Hkind as <-. cbn [String.eqb Ascii.eqb Bool.eqb].
    unfold parse_ordered_list_type. rewrite Hc.
    unfold bindM, write, read, ret.
    destruct (parse_contents _ _ _ _ _ _) as [[r st2]| |] eqn:E; [|done|done].
    intros [= <- <-]. by apply (Hrec _ Hl) in E. }
  destruct (String.eqb_spec type "check_list") as [->|_]; [|done].
  injection Hkind as <-. cbn [String.eqb Ascii.eqb Bool.eqb].
  unfold parse_check_list_type. rewrite Hc.
  unfold bindM, write, read, ret.
  destruct (parse_contents _ _ _ _ _ _) as [[r st2]| |] eqn:E; [|done|done].
  intros [= <- <-]. by apply (Hrec _ Hl) in E.
Qed.

Lemma list_type_not_restored_witness :
  list_type
    (outcome_state
       (parse_content_type example_pt example_image_path
          (parse_contents example_pt example_image_path 3)
          (element "bullet_list" None (Some [list_item_of [paragraph_of "b"]]))
          "bullet_list" (Some "T") after_two_items))
  = Some "bullet".
Proof.
  apply (list_type_not_restored example_pt example_image_path 3
           (element "bullet_list" None (Some [list_item_of [paragraph_of "b"]]))
           "bullet_list" "bullet" [list_item_of [paragraph_of "b"]] (Some "T")
           (outcome_output
              (parse_content_type example_pt example_image_path
                 (parse_contents example_pt example_image_path 3)
                 (element "bullet_list" None
                    (Some [list_item_of [paragraph_of "b"]]))
                 "bullet_list" (Some "T") after_two_items))
           after_two_items);
    [reflexivity | reflexivity | reflexivity | vm_compute; reflexivity].
Defined.

(** X10: nodes without a ["type"] key and nodes of a type that has no
    handler (a [table_row] or a [table_cell] outside a table, say) are passed
    over: nothing is rendered, not even their content, the accumulator and
    the state stay as they are, and nothing is raised. *)
Theorem unhandled_nodes_are_skipped pt ip (fuel : nat)
    (content_objs : list node) (output : option string) (st : state) :
  forallb unhandled content_objs = true ->
  parse_contents pt ip (S fuel) content_objs output st = Ok (output, st).
Proof.
  intros Hl. cbn [parse_contents].
  induction content_objs as [|x l IH]; [done|].
  cbn [forallb] in Hl. apply andb_true_iff in Hl as [Hx Hl].
  cbn [for_eachM]. unfold bindM at 1. unfold unhandled in Hx.
  destruct (node_type x) as [type|]; [|by apply IH].
  cbn [handled_types existsb] in Hx. rewrite !negb_orb in Hx.
  unfold parse_content_type.
  repeat match type of Hx with
         | negb ?b && _ = true =>
             apply andb_true_iff in Hx as [?%negb_true_iff Hx]
         end.
  repeat match goal with
         | H : String.eqb type _ = false |- _ => rewrite H; clear H
         end.
  by apply IH.
Qed.

Lemma unhandled_nodes_are_skipped_witness :
  parse_contents example_pt example_image_path 1
    [element "table_cell" None (Some [paragraph_of "x"])] (Some "T")
    (start_document "T" initial_state)
  = Ok (Some "T", start_document "T" initial_state).
Proof.
  apply (unhandled_nodes_are_skipped example_pt example_image_path 0).
  reflexivity.
Defined.

(** *** Rendering in sequence *)

Lemma for_eachM_app {A St : Type} (xs ys : list A) (body : St -> A -> M St)
    (s : St) (st : state) :
  for_eachM (xs ++ ys) body s st
  = (let! s' := for_eachM xs body s in for_eachM ys body s') st.
Proof.
  revert s st. induction xs as [|x xs IH]; intros s st; [done|].
  cbn [app for_eachM]. unfold bindM.
  destruct (body s x st) as [[s1 st1]| |]; [|done|done].
  rewrite IH. reflexivity.
Qed.

(** X11: the nodes of a list are rendered one after the other, each from
    the accumulator and the state the one before it left: rendering two lists
    joined is rendering the first and then the second. *)
Theorem parse_contents_in_sequence pt ip (fuel : nat)
    (first second : list node) (output : option string) (st : state) :
  parse_contents pt ip fuel (first ++ second) output st
  = (let! output := parse_contents pt ip fuel first output in
     parse_contents pt ip fuel second output) st.
Proof.
  destruct fuel as [|fuel]; [done|]. cbn [parse_contents].
  apply for_eachM_app.
Qed.

(** *** Containers without content *)

Lemma fresh_table_cell (st : state) (style : option string) :
  exists st1,
    document_add_table 1 1 style st
    = Ok (length (doc_tables (document st)), st1) /\
    (forall A (f : state -> A),
       (forall v st, f (set_document v st) = f st) -> f st1 = f st) /\
    doc_body (document st1)
    = doc_body (document st) ++ [BlockTable (length (doc_tables (document st)))] /\
    exists tb,
      doc_tables (document st1) !! length (doc_tables (document st)) = Some tb /\
      table_cell tb 0 0 = Ok 0%nat /\
      table_cells tb !! 0%nat
      = Some {| cell_paragraphs := [length (doc_paragraphs (document st))];
                cell_fill := None |}.
Proof.
  eexists. split; [reflexivity|]. split; [by intros A f Hf; rewrite Hf|].
  split; [reflexivity|]. eexists. split.
  - cbn. apply list_lookup_middle. done.
  - split; [reflexivity|]. cbn [table_cells].
    change (Z.to_nat 1 * Z.to_nat 1)%nat with 1%nat. cbn. by rewrite Nat.add_0_r.
Qed.

(** Shading the cell of a fresh one-cell table and taking its paragraph. *)
Lemma shade_and_enter (t p : nat) (fill : string) (tb : table) (st1 : state) :
  doc_tables (document st1) !! t = Some tb ->
  table_cells tb !! 0%nat = Some {| cell_paragraphs := [p]; cell_fill := None |} ->
  exists st2,
    (set_cell_background_color (t, 0%nat) (Some fill) ;;
     let! p := cell_first_paragraph (t, 0%nat) in
     write (set_current_paragraph (Some p))) st1 = Ok (tt, st2) /\
    current_paragraph st2 = Some p /\
    doc_body (document st2) = doc_body (document st1) /\
    forall A (f : state -> A),
      (forall v st, f (set_document v st) = f st) ->
      (forall v st, f (set_current_paragraph v st) = f st) ->
      f st2 = f st1.
Proof.
  intros Htb Hcells.
  unfold set_cell_background_color, cell_first_paragraph, the_cell, the_table,
    bindM, lift, shade_fill, write, ret.
  cbn [fst snd document doc_tables set_document update_cell update_table].
  rewrite list_lookup_alter_eq, Htb.
  cbn [fmap option_fmap option_map table_cells].
  rewrite list_lookup_alter_eq, Hcells.
  cbn [fmap option_fmap option_map cell_paragraphs].
  eexists. split; [reflexivity|]. split; [reflexivity|].
  split; [reflexivity|]. intros A f Hd Hp. by rewrite Hp, Hd.
Qed.

(** X12: a [code_block] without a ["content"] key still appends its shaded
    one-cell table to the document, and returns with [in_code_block] set:
    the flag is cleared on the path through the content only. *)
Theorem code_block_without_content
    (rec : list node -> option string -> M (option string))
    (content_obj : node) (output : option string) (st : state) :
  node_content content_obj = None ->
  exists st',
    parse_code_block rec content_obj output st = Ok (output, st') /\
    in_code_block st' = true /\
    doc_body (document st')
    = doc_body (document st) ++ [BlockTable (length (doc_tables (document st)))].
Proof.
  intros Hc. unfold parse_code_block. rewrite Hc.
  unfold bindM at 1. unfold write at 1.
  unfold bindM at 1.
  destruct (fresh_table_cell (set_in_code_block true st) None)
    as (st1 & -> & Hframe & Hbody & tb & Htb & Hcell & Hcells).
  unfold bindM at 1, the_table at 1. rewrite Htb.
  unfold bindM at 1, lift at 1. rewrite Hcell.
  destruct (shade_and_enter _ _ "ccdff7" tb st1 Htb Hcells)
    as (st2 & Hrun & _ & Hbody2 & Hframe2).
  unfold bindM in Hrun |- *.
  destruct (set_cell_background_color _ _ st1) as [[[] st1']| |];
    [|done|done].
  destruct (cell_first_paragraph _ st1') as [[p st1'']| |]; [|done|done].
  unfold write in Hrun |- *. injection Hrun as <-. unfold ret.
  eexists. split; [reflexivity|]. split.
  - by rewrite (Hframe2 _ in_code_block), (Hframe _ in_code_block).
  - by rewrite Hbody2, Hbody.
Qed.

Lemma code_block_without_content_witness :
  exists st',
    parse_code_block (parse_contents example_pt example_image_path 1)
      (element "code_block" None None) (Some "T")
      (start_document "T" initial_state) = Ok (Some "T", st') /\
    in_code_block st' = true /\
    doc_body (document st') = [BlockParagraph 0] ++ [BlockTable 0].
Proof.
  exact (code_block_without_content
           (parse_contents example_pt example_image_path 1)
           (element "code_block" None None) (Some "T")
           (start_document "T" initial_state) eq_refl).
Defined.

(** *** Headings *)

Lemma update_runs_current (f : list inline -> list inline) (st st' : state) :
  f [] = [] ->
  update_runs f st = Ok (tt, st') ->
  current_items st' = f (current_items st).
Proof.
  intros Hf. unfold update_runs, bindM, the_paragraph, write.
  destruct (current_paragraph st) as [p|] eqn:Hp; [|done]. intros [= <-].
  unfold current_items. cbn. rewrite Hp. cbn.
  rewrite list_lookup_alter_eq.
  by destruct (doc_paragraphs (document st) !! p).
Qed.

Lemma runs_sized (size : Z) (items : list inline) :
  runs (sized size <$> items) = with_size size <$> runs items.
Proof.
  induction items as [|[r|u r] items IH]; [done| |]; cbn.
  - unfold runs in IH. by rewrite IH.
  - apply IH.
Qed.

Lemma hyperlink_runs_sized (size : Z) (items : list inline) :
  hyperlink_runs (sized size <$> items) = hyperlink_runs items.
Proof.
  induction items as [|[r|u r] items IH]; [done| |]; cbn.
  - apply IH.
  - unfold hyperlink_runs in IH. by rewrite IH.
Qed.

Lemma heading_size_values (content_obj : node) :
  heading_size content_obj = 28 \/ heading_size content_obj = 20 \/
  heading_size content_obj = 16.
Proof.
  unfold heading_size, lookup_constant, heading_level_to_size_map.
  destruct (node_attr content_obj "level") as [level|]; [|by left].
  cbn [find fst snd]. 
  destruct ("1" =? str_of level)%string; [by left|].
  destruct ("2" =? str_of level)%string; [by right; left|].
  destruct ("3" =? str_of level)%string; [by right; right|]. by left.
Qed.

(** X13: when a heading with content returns, every run of the paragraph
    that is current at that moment has the size of the heading's level (28,
    20 or 16 points; 28 for any other level): the runs the heading has
    added, and those of any paragraph its content has moved to.  The text
    under a link is no run of the paragraph, and keeps the size it had. *)
Theorem heading_sizes_runs
    (rec : list node -> option string -> M (option string))
    (content_obj : node) (content : list node) (output res : option string)
    (st st' : state) :
  node_content content_obj = Some content ->
  parse_heading_type rec content_obj output st = Ok (res, st') ->
  Forall (fun r => run_size r = Some (heading_size content_obj))
         (runs (current_items st')) /\
  exists st1 r st2,
    rec content output st1 = Ok (r, st2) /\
    hyperlink_runs (current_items st') = hyperlink_runs (current_items st2).
Proof.
  intros Hc. unfold parse_heading_type. rewrite Hc.
  fold (heading_size content_obj). fold (sized (heading_size content_obj)).
  unfold bindM at 1. unfold document_add_paragraph at 1.
  unfold bindM at 1, write at 1. unfold bindM at 1.
  match goal with
  | |- context [rec content output ?s] =>
      destruct (rec content output s) as [[r st2]| |] eqn:Hrec; [|done|done]
  end.
  unfold bindM at 1.
  destruct (update_runs _ st2) as [[[] st3]| |] eqn:Hup; [|done|done].
  unfold lift. destruct (add_str r newline) as [res'| |]; [|done|done].
  intros [= <- <-].
  apply update_runs_current in Hup; [|done]. rewrite Hup. split.
  - rewrite runs_sized. apply Forall_fmap, Forall_forall. by intros r0 _.
  - eexists _, r, st2. split; [exact Hrec|]. apply hyperlink_runs_sized.
Qed.

Lemma heading_sizes_runs_witness :
  Forall (fun r => run_size r = Some 20)
    (runs (current_items
       (outcome_state
          (parse_heading_type (parse_contents example_pt example_image_path 1)
             (element "heading" (Some {["level" := JInt 2]})
                (Some [text_node "h" None]))
             (Some "T") (start_document "T" initial_state))))) /\
  exists st1 r st2,
    parse_contents example_pt example_image_path 1 [text_node "h" None]
      (Some "T") st1 = Ok (r, st2) /\
    hyperlink_runs (current_items
       (outcome_state
          (parse_heading_type (parse_contents example_pt example_image_path 1)
             (element "heading" (Some {["level" := JInt 2]})
                (Some [text_node "h" None]))
             (Some "T") (start_document "T" initial_state))))
    = hyperlink_runs (current_items st2).
Proof.
  refine (heading_sizes_runs
            (parse_contents example_pt example_image_path 1)
            (element "heading" (Some {["level" := JInt 2]})
               (Some [text_node "h" None]))
            [text_node "h" None] (Some "T")
            (outcome_output
               (parse_heading_type
                  (parse_contents example_pt example_image_path 1)
                  (element "heading" (Some {["level" := JInt 2]})
                     (Some [text_node "h" None]))
                  (Some "T") (start_document "T" initial_state)))
            (start_document "T" initial_state)
            (outcome_state
               (parse_heading_type
                  (parse_contents example_pt example_image_path 1)
                  (element "heading" (Some {["level" := JInt 2]})
                     (Some [text_node "h" None]))
                  (Some "T") (start_document "T" initial_state)))
            eq_refl _).
  vm_compute; reflexivity.
Defined.

(** *** Leaving a table *)

(** X14: whenever [parse_table_type] returns, the cell context is gone
    ([current_table_cell] is [None] and [use_table_cell_paragraph] is
    [False]), also when the table was rendered inside a cell of an enclosing
    table; and the table has added its dimensions to the accumulator, and
    none of the text of its cells. *)
Theorem table_leaves_no_cell_context
    (rec : list node -> option string -> M (option string))
    (content_obj : node) (output res : option string) (st st' : state) :
  parse_table_type rec content_obj output st = Ok (res, st') ->
  current_table_cell st' = None /\
  use_table_cell_paragraph st' = false /\
  exists r c o,
    get_table_dimensions content_obj = Ok (r, c) /\
    output = Some o /\
    res = Some (o +:+ ("<Table " +:+ str r +:+ " x " +:+ str c +:+ ">")).
Proof.
  unfold parse_table_type.
  unfold bindM at 1, lift at 1.
  destruct (get_table_dimensions content_obj) as [[r c]| |]; [|done|done].
  unfold bindM at 1, lift at 1.
  destruct (get_table_cell_objs content_obj) as [cells0| |]; [|done|done].
  unfold bindM at 1, lift at 1.
  destruct (get_table_cell_merges _ cells0) as [[[merges t] cells]| |];
    [|done|done].
  unfold bindM at 1.
  destruct (document_add_table r c _ st) as [[tid st1]| |]; [|done|done].
  unfold bindM at 1.
  destruct (merge_table_cells tid merges st1) as [[[] st2]| |]; [|done|done].
  unfold bindM at 1.
  destruct (for_eachM cells _ tt st2) as [[[] st3]| |]; [|done|done].
  unfold bindM, write, lift.
  destruct output as [o|]; cbn [add_str]; [|done].
  intros [= <- <-]. split; [done|]. split; [done|]. by exists r, c, o.
Qed.

Lemma table_leaves_no_cell_context_witness :
  current_table_cell
    (outcome_state
       (parse_table_type (parse_contents example_pt example_image_path 3)
          table_2x2 (Some "T")
          (set_current_table_cell (Some (7%nat, 0%nat))
             (start_document "T" initial_state))))
  = None /\
  use_table_cell_paragraph
    (outcome_state
       (parse_table_type (parse_contents example_pt example_image_path 3)
          table_2x2 (Some "T")
          (set_current_table_cell (Some (7%nat, 0%nat))
             (start_document "T" initial_state))))
  = false /\
  exists r c o,
    get_table_dimensions table_2x2 = Ok (r, c) /\
    Some "T" = Some o /\
    outcome_output
      (parse_table_type (parse_contents example_pt example_image_path 3)
         table_2x2 (Some "T")
         (set_current_table_cell (Some (7%nat, 0%nat))
            (start_document "T" initial_state)))
    = Some (o +:+ ("<Table " +:+ str r +:+ " x " +:+ str c +:+ ">")).
Proof.
  apply (table_leaves_no_cell_context
           (parse_contents example_pt example_image_path 3) table_2x2
           (Some "T") _
           (set_current_table_cell (Some (7%nat, 0%nat))
              (start_document "T" initial_state))).
  vm_compute; reflexivity.
Defined.

(** ** The marker runs of a paragraph *)

Lemma same_but_document_refl (st : state) : same_but_document st st.
Proof. by intros A f _. Qed.

Lemma same_but_document_trans (a b c : state) :
  same_but_document a b -> same_but_document b c -> same_but_document a c.
Proof. intros H1 H2 A f Hf. by rewrite (H2 A f Hf), (H1 A f Hf). Qed.

Lemma paragraph_holds_items (p : nat) (items : list inline) (st : state) :
  paragraph_holds p items st -> current_items st = items.
Proof.
  intros (Hp & pa & Hpa & Hitems). unfold current_items. by rewrite Hp, Hpa.
Qed.

Lemma add_item_spec (i : inline) (p : nat) (items : list inline) (st : state) :
  paragraph_holds p items st ->
  exists st',
    add_item i st = Ok (tt, st') /\
    paragraph_holds p (items ++ [i]) st' /\
    same_but_document st st' /\
    doc_body (document st') = doc_body (document st).
Proof.
  intros (Hp & pa & Hpa & Hitems).
  unfold add_item, bindM, the_paragraph, write. rewrite Hp.
  eexists. split; [reflexivity|]. split; [|split].
  - split; [done|]. cbn. rewrite list_lookup_alter_eq, Hpa. cbn.
    eexists. split; [done|]. cbn. by rewrite Hitems.
  - by intros A f Hf.
  - done.
Qed.

Lemma repeat_add_run (n : nat) (text : string) (p : nat)
    (items : list inline) (st : state) :
  paragraph_holds p items st ->
  exists st',
    repeatM n (add_run text) st = Ok (tt, st') /\
    paragraph_holds p (items ++ replicate n (DirectRun (plain_run text))) st' /\
    same_but_document st st' /\
    doc_body (document st') = doc_body (document st).
Proof.
  revert items st. induction n as [|n IH]; intros items st H.
  - exists st. cbn [repeatM replicate]. rewrite app_nil_r.
    split; [done|]. split; [done|]. split; [apply same_but_document_refl|done].
  - cbn [repeatM replicate]. unfold bindM, add_run at 1.
    destruct (add_item_spec (DirectRun (plain_run text)) p items st H)
      as (st1 & -> & H1 & Hs1 & Hb1).
    destruct (IH _ st1 H1) as (st2 & -> & H2 & Hs2 & Hb2).
    exists st2. split; [done|]. rewrite <- app_assoc in H2.
    split; [done|]. split; [by eapply same_but_document_trans|congruence].
Qed.

(** X15: while [in_bullet_list_item] is set, a paragraph begins with the
    bullet marker: one run of four spaces for every level above the first,
    then the run ["• "].  The flags of the other kinds of item are not looked
    at: the paragraph of a numbered item nested in a bullet item gets the
    bullet, not its number. *)
Theorem bullet_marker_first
    (rec : list node -> option string -> M (option string))
    (content_obj : node) (content : list node) (output : option string)
    (st : state) :
  in_bullet_list_item st = true ->
  use_table_cell_paragraph st = false ->
  current_table_cell st = None ->
  node_content content_obj = Some content ->
  exists st1,
    parse_paragraph_type rec content_obj output st
    = (let! result := rec content output in lift (add_str result newline)) st1 /\
    current_paragraph st1 = Some (length (doc_paragraphs (document st))) /\
    current_items st1
    = (fun text => DirectRun (plain_run text)) <$>
        (replicate (Z.to_nat (bullet_list_level st - 1)) INDENT ++ [BULLET]) /\
    doc_body (document st1)
    = doc_body (document st)
      ++ [BlockParagraph (length (doc_paragraphs (document st)))].
Proof.
  intros Hb Hu Hcell Hc. unfold parse_paragraph_type. rewrite Hc.
  unfold bindM at 1, read at 1. rewrite Hu.
  unfold bindM at 1. unfold bindM at 1, read at 1. rewrite Hcell.
  unfold bindM at 1, document_add_paragraph at 1, write at 1.
  set (p := length (doc_paragraphs (document st))).
  match goal with
  | |- context [set_current_paragraph (Some p) ?s] =>
      set (sA := set_current_paragraph (Some p) s)
  end.
  assert (HA : paragraph_holds p [] sA).
  { split; [done|]. exists empty_paragraph. split; [|done].
    cbn. by apply list_lookup_middle. }
  do 4 (unfold bindM at 1, read at 1).
  change (in_bullet_list_item sA) with (in_bullet_list_item st). rewrite Hb.
  unfold bindM at 1. unfold bindM at 1, read at 1. unfold bindM at 1.
  change (bullet_list_level sA) with (bullet_list_level st).
  destruct (repeat_add_run (Z.to_nat (bullet_list_level st - 1)) INDENT p [] sA HA)
    as (sB & -> & HB & HsB & HbB).
  unfold add_run.
  destruct (add_item_spec (DirectRun (plain_run BULLET)) p _ sB HB)
    as (sC & -> & (HpC & pa & Hpa & Hitems) & HsC & HbC).
  unfold bindM at 1, the_paragraph at 1. rewrite HpC.
  unfold bindM at 1, write at 1.
  eexists. split; [reflexivity|]. split; [|split].
  - cbn. exact HpC.
  - unfold current_items. cbn. rewrite HpC. cbn.
    rewrite list_lookup_alter_eq, Hpa. cbn. rewrite Hitems.
    cbn [app]. by rewrite fmap_app, fmap_replicate.
  - cbn. by rewrite HbC, HbB.
Qed.

Lemma bullet_marker_first_witness :
  exists st1,
    parse_paragraph_type (parse_contents example_pt example_image_path 1)
      (paragraph_of "b") (Some "T")
      (set_in_ordered_list_item true
         (set_in_bullet_list_item true
            (set_bullet_list_level 2 (start_document "T" initial_state))))
    = (let! result := parse_contents example_pt example_image_path 1
                        [text_node "b" None] (Some "T") in
       lift (add_str result newline)) st1 /\
    current_paragraph st1 = Some 1%nat /\
    current_items st1
    = [DirectRun (plain_run INDENT); DirectRun (plain_run BULLET)] /\
    doc_body (document st1) = [BlockParagraph 0; BlockParagraph 1].
Proof.
  exact (bullet_marker_first
           (parse_contents example_pt example_image_path 1)
           (paragraph_of "b") [text_node "b" None] (Some "T")
           (set_in_ordered_list_item true
              (set_in_bullet_list_item true
                 (set_bullet_list_level 2 (start_document "T" initial_state))))
           eq_refl eq_refl eq_refl eq_refl).
Defined.

(** ** Linked text *)

Lemma text_mark_keeps_link pt (s s' : text_style) (mark_obj : mark) :
  text_mark pt s mark_obj = Ok s' ->
  is_hyperlink s = true -> is_hyperlink s' = true.
Proof.
  unfold text_mark, bind. intros H Hs.
  repeat match type of H with
         | context [match ?x with _ => _ end] => destruct x
         | context [if ?b then _ else _] => destruct b
         end; simplify_eq; by cbn.
Qed.

Lemma text_mark_link pt (s s' : text_style) (mark_obj : mark) :
  text_mark pt s mark_obj = Ok s' ->
  is_link mark_obj = true -> is_hyperlink s' = true.
Proof.
  unfold text_mark, is_link.
  intros H [Hty Hhref]%andb_true_iff.
  apply bool_decide_eq_true in Hty, Hhref. rewrite Hty in H.
  cbn in H. destruct Hhref as [href Hhref]. rewrite Hhref in H.
  by injection H as <-.
Qed.

Lemma text_marks_link pt (marks : list mark) (s0 s : text_style) :
  for_each marks (text_mark pt) s0 = Ok s ->
  is_hyperlink s0 = true \/ existsb is_link marks = true ->
  is_hyperlink s = true.
Proof.
  revert s0. induction marks as [|m marks IH]; intros s0; cbn [for_each existsb].
  - intros [= <-] [H|H]; done.
  - destruct (text_mark pt s0 m) as [s1| |] eqn:E; cbn [bind]; [|done|done].
    intros Hrest H. apply (IH s1 Hrest).
    destruct H as [H|H].
    + left. by apply (text_mark_keeps_link pt s0 s1 m).
    + apply orb_true_iff in H as [H|H]; [left|by right].
      by apply (text_mark_link pt s0 s1 m).
Qed.

(** X16: text that carries a link mark with an address is set under a
    hyperlink, underlined and in the colour RGB(26, 116, 186), whatever
    [font_color] or other marks it carries besides, before or after the
    link; it is no run of the paragraph itself. *)
Theorem linked_text_is_blue_and_underlined pt (content_obj : node)
    (marks : list mark) (text : string) (output res : option string)
    (p : nat) (items : list inline) (st st' : state) :
  node_marks content_obj = Some marks ->
  existsb is_link marks = true ->
  node_text content_obj = Some text ->
  paragraph_holds p items st ->
  parse_text_type pt content_obj output st = Ok (res, st') ->
  exists u r,
    paragraph_holds p (items ++ [HyperlinkRun u r]) st' /\
    runs (current_items st') = runs items /\
    run_text r = text /\
    run_underline r = true /\
    run_color r = Some (26, 116, 186).
Proof.
  intros Hmarks Hlink Htext Hholds. unfold parse_text_type. rewrite Htext.
  unfold text_marks. rewrite Hmarks.
  unfold bindM at 1, lift at 1.
  destruct (for_each marks (text_mark pt) no_style) as [s| |] eqn:Es;
    [|done|done].
  assert (Hs : is_hyperlink s = true)
    by (apply (text_marks_link pt marks no_style s Es); by right).
  rewrite Hs.
  unfold bindM at 1, the_paragraph at 1.
  destruct (current_paragraph st) as [p'|] eqn:Hp; [|done].
  do 3 (unfold bindM at 1, read at 1).
  unfold bindM at 1.
  match goal with
  | |- context [(if ?b then ?x else ?y) st] =>
      destruct ((if b then x else y) st) as [[shading st0]| |] eqn:Esh;
      [|done|done]
  end.
  assert (st0 = st) as ->.
  { destruct (in_callout st); [|by injection Esh].
    revert Esh. unfold bindM, lift.
    destruct (shade_fill _); [|done|done]. by intros [= _ <-]. }
  unfold bindM at 1.
  match goal with
  | |- context [add_item ?i st] =>
      destruct (add_item_spec i p items st Hholds) as (st1 & -> & H1 & _ & _)
  end.
  unfold lift. destruct (add_str output text); [|done|done].
  intros [= _ <-].
  eexists _, _. split; [exact H1|]. split; [|by rewrite orb_true_r].
  rewrite (paragraph_holds_items _ _ _ H1). unfold runs.
  rewrite omap_app. cbn. by rewrite app_nil_r.
Qed.

Lemma linked_text_is_blue_and_underlined_witness :
  exists u r,
    paragraph_holds 0 ([DirectRun (with_size 32 (plain_run "T"))] ++ [HyperlinkRun u r])
      (outcome_state (parse_text_type example_pt linked_text (Some "T")
                        (start_document "T" initial_state))) /\
    runs (current_items
            (outcome_state (parse_text_type example_pt linked_text (Some "T")
                              (start_document "T" initial_state))))
    = runs [DirectRun (with_size 32 (plain_run "T"))] /\
    run_text r = "box" /\
    run_underline r = true /\
    run_color r = Some (26, 116, 186).
Proof.
  apply (linked_text_is_blue_and_underlined example_pt linked_text
           [{| mark_type := Some "font_color";
               mark_attrs := Some {["color" := JStr "#ff0000"]} |};
            {| mark_type := Some "link";
               mark_attrs := Some {["href" := JStr "https://box.com"]} |}]
           "box" (Some "T")
           (outcome_output (parse_text_type example_pt linked_text (Some "T")
                              (start_document "T" initial_state)))
           0 [DirectRun (with_size 32 (plain_run "T"))]
           (start_document "T" initial_state));
    [reflexivity | reflexivity | reflexivity
    | split; [reflexivity | eexists; split; reflexivity]
    | vm_compute; reflexivity].
Defined.

(** ** Pictures *)

(** X17: outside a table, the picture of an image node is not put where the
    node stands: [document.add_picture] appends a paragraph of its own to the
    end of the body, and the current paragraph stays the one it was, with
    the runs it had. *)
Theorem picture_goes_to_end_of_body
    (get_image_path : string -> option string) (content_obj : node)
    (image_file_name image_file_path o : string) (p : nat)
    (items : list inline) (st : state) :
  node_attr content_obj "fileName" = Some (JStr image_file_name) ->
  get_image_path image_file_name = Some image_file_path ->
  current_table_cell st = None ->
  paragraph_holds p items st ->
  exists st',
    parse_image_type get_image_path content_obj (Some o) st
    = Ok (Some ((o +:+ "image: ") +:+ image_file_name), st') /\
    paragraph_holds p items st' /\
    doc_body (document st')
    = doc_body (document st)
      ++ [BlockParagraph (length (doc_paragraphs (document st)))] /\
    para_items <$> doc_paragraphs (document st')
                   !! length (doc_paragraphs (document st))
    = Some [DirectRun (picture_run image_file_path (6 * 914400))].
Proof.
  intros Hname Hpath Hcell (Hp & pa & Hpa & Hitems).
  unfold parse_image_type. rewrite Hname.
  unfold bindM at 1, lift at 1. cbn [as_str]. rewrite Hpath.
  unfold bindM at 1. unfold bindM at 1, read at 1. rewrite Hcell.
  unfold document_add_picture, document_add_paragraph, bindM, write, lift.
  cbn [add_str bind].
  eexists. split; [reflexivity|]. split; [|split].
  - split; [exact Hp|]. exists pa. split; [|done]. cbn.
    pose proof (lookup_lt_Some _ _ _ Hpa) as Hlt.
    rewrite list_lookup_alter_ne by lia.
    by rewrite lookup_app_l.
  - reflexivity.
  - cbn. rewrite list_lookup_alter_eq, list_lookup_middle by done. reflexivity.
Qed.

Lemma picture_goes_to_end_of_body_witness :
  exists st',
    parse_image_type (fun _ => Some "/notes/Box Notes Images/n Images/i.png")
      (element "image" (Some {["fileName" := JStr "i.png"]}) None) (Some "T")
      (start_document "T" initial_state)
    = Ok (Some (("T" +:+ "image: ") +:+ "i.png"), st') /\
    paragraph_holds 0 [DirectRun (with_size 32 (plain_run "T"))] st' /\
    doc_body (document st') = [BlockParagraph 0] ++ [BlockParagraph 1] /\
    para_items <$> doc_paragraphs (document st') !! 1%nat
    = Some [DirectRun (picture_run "/notes/Box Notes Images/n Images/i.png"
                         (6 * 914400))].
Proof.
  apply (picture_goes_to_end_of_body
           (fun _ => Some "/notes/Box Notes Images/n Images/i.png")
           (element "image" (Some {["fileName" := JStr "i.png"]}) None)
           "i.png" "/notes/Box Notes Images/n Images/i.png" "T" 0
           [DirectRun (with_size 32 (plain_run "T"))] (start_document "T" initial_state));
    [reflexivity | reflexivity | reflexivity
    | split; [reflexivity | eexists; split; reflexivity]].
Defined.

(** *** After a nested ordered list *)

Lemma preserves_count_item :
  preserves outermost_counter
    (let! level := read ordered_list_level in
     let! depths := read list_depths in
     let! depth := lift (getitem (str level) (depths !! level)) in
     write (set_list_depths (<[level := depth + 1]> depths))).
Proof.
  intros st a st'. unfold bindM, read, lift, write.
  destruct (list_depths st !! ordered_list_level st) as [depth|] eqn:E;
    cbn [getitem]; [|done].
  intros [= <- <-]. unfold outermost_counter. cbn.
  destruct (Z.eqb_spec (ordered_list_level st) 0) as [|Hne]; [done|].
  by rewrite lookup_insert_ne.
Qed.

Lemma preserves_outermost_counter pt ip
    (rec : list node -> option string -> M (option string))
    (content_obj : node) (type : string) (output : option string) :
  every_node not_list_container content_obj = true ->
  node_type content_obj = Some type ->
  (forall l output, forallb (every_node not_list_container) l = true ->
                    preserves outermost_counter (rec l output)) ->
  preserves outermost_counter
    (parse_content_type pt ip rec content_obj type output).
Proof.
  intros Hp Hty Hrec.
  assert (Hcontent : forall content, node_content content_obj = Some content ->
            forallb (every_node not_list_container) content = true)
    by (intros content; by apply every_node_content).
  assert (Hnot : type <> "bullet_list" /\ type <> "ordered_list" /\
                 type <> "check_list").
  { apply every_node_here in Hp.
    unfold not_list_container, is_list_container in Hp. rewrite Hty in Hp.
    repeat split; intros ->; by vm_compute in Hp. }
  destruct Hnot as (Hb & Ho & Hc).
  unfold parse_content_type.
  destruct (String.eqb_spec type "bullet_list"); [done|].
  destruct (String.eqb_spec type "ordered_list"); [done|].
  destruct (String.eqb_spec type "check_list"); [done|].
  destruct (String.eqb type "list_item") eqn:Eitem.
  { repeat match goal with
           | |- preserves _ (if ?b then _ else _) => destruct b
           end; try solve [unfold parse_heading_type, parse_paragraph_type,
             parse_text_type; preserving; eauto].
    unfold parse_list_item_type.
    apply preserves_bind; [apply preserves_read|]. intros kind.
    apply preserves_bind.
    { destruct (decide (kind = Some "ordered"));
        [apply preserves_count_item|apply preserves_ret]. }
    intros _. preserving; eauto. }
  destruct (String.eqb type "table") eqn:Etable.
  { repeat match goal with
           | |- preserves _ (if ?b then _ else _) => destruct b
           end; try solve [unfold parse_heading_type, parse_paragraph_type,
             parse_text_type, parse_check_list_item_type, parse_image_type;
             preserving; eauto].
    unfold parse_table_type.
    apply preserves_bind_lift. intros [r c] _.
    apply preserves_bind_lift. intros cells0 Hobjs.
    apply preserves_bind_lift. intros [[merges t] cells] Hmerges.
    apply preserves_bind; [solve [preserving]|]. intros tid.
    apply preserves_bind; [solve [preserving]|]. intros _.
    apply preserves_bind; [|intros; solve [preserving]].
    by apply (preserves_table_cells _ not_list_container rec content_obj tid
                cells0 cells (get_cell_tracking_table r c) t merges). }
  unfold parse_heading_type, parse_paragraph_type, parse_text_type,
    parse_check_list_item_type, parse_image_type,
    parse_horizontal_rule_type, parse_call_out_box, parse_code_block,
    parse_blockquote.
  preserving; eauto.
Qed.

(** X18: an ordered list leaves [list_type] at ["ordered"] and takes its
    nesting level back to the one outside, for which [list_depths] holds no
    counter.  The next list item handled there (the item that follows a
    numbered list nested in a bullet list or in a check list, say) raises
    [KeyError] on [list_depths[ordered_list_level] += 1]. *)
Theorem item_after_nested_ordered_list_raises pt ip (fuel : nat)
    (rec : list node -> option string -> M (option string))
    (list_obj item_obj : node) (content : list node)
    (output res output' : option string) (st st' : state) :
  ordered_list_level st = 0 ->
  list_depths st !! 0 = None ->
  node_content list_obj = Some content ->
  forallb (every_node not_list_container) content = true ->
  parse_ordered_list_type (parse_contents pt ip fuel) list_obj output st
  = Ok (res, st') ->
  parse_list_item_type rec item_obj output' st' = Err (KeyError "0").
Proof.
  intros Hlevel Hdepths Hc Hl.
  unfold parse_ordered_list_type. rewrite Hc.
  unfold bindM, write, read, ret.
  match goal with
  | |- context [parse_contents pt ip fuel content output ?s] =>
      destruct (parse_contents pt ip fuel content output s)
        as [[r st2]| |] eqn:E; [|done|done]
  end.
  intros [= <- <-].
  pose proof (parse_contents_preserves list_type not_list_container pt ip
                (preserves_list_type pt ip) fuel content output Hl _ _ _ E)
    as Htype.
  pose proof (parse_contents_preserves outermost_counter not_list_container
                pt ip (preserves_outermost_counter pt ip) fuel content output
                Hl _ _ _ E) as Hcount.
  unfold outermost_counter in Hcount. cbn in Hcount. rewrite Hlevel in Hcount.
  cbn in Hcount. rewrite lookup_insert_ne in Hcount by done.
  rewrite Hdepths in Hcount.
  destruct (Z.eqb_spec (ordered_list_level st2) 0) as [|_]; [done|].
  injection Hcount as Hl2 Hd2.
  unfold parse_list_item_type, bindM, read, lift, write. cbn.
  rewrite Htype. cbn. rewrite Hl2.
  destruct (decide (Some "ordered" = Some "ordered")); [|done].
  cbn. change (0 + 1 - 1) with 0. by rewrite Hd2.
Qed.

Lemma item_after_nested_ordered_list_raises_witness :
  parse_list_item_type (parse_contents example_pt example_image_path 2)
    (list_item_of [paragraph_of "c"]) (Some "T")
    (outcome_state
       (parse_ordered_list_type
          (parse_contents example_pt example_image_path 3)
          (element "ordered_list" None (Some [list_item_of [paragraph_of "b"]]))
          (Some "T") (start_document "T" initial_state)))
  = Err (KeyError "0").
Proof.
  apply (item_after_nested_ordered_list_raises example_pt
           example_image_path 3
           (parse_contents example_pt example_image_path 2)
           (element "ordered_list" None (Some [list_item_of [paragraph_of "b"]]))
           (list_item_of [paragraph_of "c"]) [list_item_of [paragraph_of "b"]]
           (Some "T")
           (outcome_output
              (parse_ordered_list_type
                 (parse_contents example_pt example_image_path 3)
                 (element "ordered_list" None
                    (Some [list_item_of [paragraph_of "b"]]))
                 (Some "T") (start_document "T" initial_state)))
           (Some "T") (start_document "T" initial_state));
    [reflexivity | reflexivity | reflexivity | reflexivity
    | vm_compute; reflexivity].
Defined.


(** ** Lists of one kind nested in another *)

(** A bullet list in the first item of a numbered list: the second item of
    the numbered list is rendered as an item of a bullet list. *)
Example bullet_list_in_numbered_item :
  rendered_runs
    (outcome_state (parse_contents example_pt example_image_path 8
                      bullet_in_ordered (Some "")
                      (start_document "T" initial_state)))
  = [[("T", false)]; [("1. ", false); ("a", false)];
     [(BULLET, false); ("b", false)]; [(BULLET, false); ("c", false)]].
Proof. vm_compute. reflexivity. Qed.

(** A numbered list in the first item of a bullet list: the second item of
    the bullet list raises. *)
Example numbered_list_in_bullet_item :
  parse_contents example_pt example_image_path 8 ordered_in_bullet (Some "")
    (start_document "T" initial_state)
  = Err (KeyError "0").
Proof. vm_compute. reflexivity. Qed.

(** ** The image search *)

Example split_note :
  os_path_split "/home/u/Box/a/n.boxnote" = ("/home/u/Box/a", "n.boxnote").
Proof. reflexivity. Qed.
Example split_root :
  os_path_split "/" = ("/", "").
Proof. reflexivity. Qed.
Example split_top :
  os_path_split "/home" = ("/", "home").
Proof. reflexivity. Qed.
Example split_rel :
  os_path_split "home" = ("", "home").
Proof. reflexivity. Qed.
Example split_trailing :
  os_path_split "/a//b//" = ("/a//b", "").
Proof. reflexivity. Qed.
Example split_double :
  os_path_split "//a" = ("//", "a").
Proof. reflexivity. Qed.
Example split_mid :
  os_path_split "a//b" = ("a", "b").
Proof. reflexivity. Qed.

Lemma split_at_last_sep_length (p : string) :
  (String.length (split_at_last_sep p).1
   + String.length (split_at_last_sep p).2 = String.length p)%nat.
Proof.
  induction p as [|c rest IH]; [done|]. cbn [split_at_last_sep].
  destruct (split_at_last_sep rest) as [head tail]. cbn [fst snd] in IH.
  destruct head as [|h head].
  - destruct (is_sep c); cbn [fst snd String.length] in *; lia.
  - cbn [fst snd String.length] in *. lia.
Qed.

Lemma rstrip_sep_length (s : string) :
  (String.length (rstrip_sep s) <= String.length s)%nat.
Proof.
  induction s as [|c rest IH]; [done|]. cbn [rstrip_sep].
  destruct (rstrip_sep rest) as [|c' rest'].
  - destruct (is_sep c); cbn [String.length] in *; lia.
  - cbn [String.length] in *. lia.
Qed.

Lemma os_path_split_length (p : string) :
  (String.length (os_path_split p).1 + String.length (os_path_split p).2
   <= String.length p)%nat.
Proof.
  unfold os_path_split.
  pose proof (split_at_last_sep_length p) as H.
  destruct (split_at_last_sep p) as [head tail]. cbn [fst snd] in H.
  pose proof (rstrip_sep_length head) as Hr.
  destruct (rstrip_sep head); cbn [fst snd String.length] in *; lia.
Qed.

Lemma append_nil_r (s : string) : s +:+ "" = s.
Proof.
  induction s as [|c s IH]; [done|].
  change (String c (s +:+ "") = String c s). by rewrite IH.
Qed.

Lemma split_at_last_sep_app (p : string) :
  p = (split_at_last_sep p).1 +:+ (split_at_last_sep p).2.
Proof.
  induction p as [|c rest IH]; [done|]. cbn [split_at_last_sep].
  destruct (split_at_last_sep rest) as [head tail]. cbn [fst snd] in IH.
  destruct head as [|h head].
  - destruct (is_sep c); cbn [fst snd]; by rewrite IH.
  - cbn [fst snd]. by rewrite IH.
Qed.

Lemma rstrip_sep_prefix (s : string) : exists rest, s = rstrip_sep s +:+ rest.
Proof.
  induction s as [|c s [rest IH]]; [by exists ""|]. cbn [rstrip_sep].
  destruct (rstrip_sep s) as [|c' s'].
  - destruct (is_sep c); [by exists (String c s)|]. exists rest.
    by rewrite IH at 1.
  - exists rest. by rewrite IH at 1.
Qed.

(** The head of a split is the beginning of the path. *)
Lemma os_path_split_prefix (p : string) :
  exists rest, p = (os_path_split p).1 +:+ rest.
Proof.
  unfold os_path_split. pose proof (split_at_last_sep_app p) as H.
  destruct (split_at_last_sep p) as [head tail]. cbn [fst snd] in H.
  destruct (rstrip_sep_prefix head) as [rest Hrest].
  destruct (rstrip_sep head) as [|c head'] eqn:E; cbn [fst snd].
  - by exists tail.
  - exists (rest +:+ tail). rewrite H, Hrest at 1. apply append_assoc.
Qed.

Section ImageSearchFacts.

Variable is_file : string -> bool.
Variable BOX_ROOTS : list string.

(** The loop ends by itself: the head of a split is shorter than the path
    unless the tail is empty, and an empty tail ends the loop. *)
Lemma search_upwards_fuel (fuel : nat) (extra_path img_file_name : string)
    (base_path tail : string) :
  (String.length base_path + 2 <= fuel)%nat ->
  search_upwards is_file BOX_ROOTS fuel extra_path img_file_name base_path tail
  <> OutOfFuel.
Proof.
  revert base_path tail.
  induction fuel as [|fuel IH]; intros base_path tail Hfuel; [lia|].
  cbn [search_upwards]. destruct (String.eqb tail ""); [done|].
  destruct (is_file _); [done|].
  pose proof (os_path_split_length base_path) as Hlen.
  destruct (os_path_split base_path) as [base' tail']. cbn [fst snd] in Hlen.
  destruct (bool_decide _); [done|].
  destruct tail' as [|c tail'].
  - destruct fuel; [lia|]. done.
  - apply IH. cbn [String.length] in Hlen. lia.
Qed.

(** What the loop returns is a file, and it is the path of the image below
    a folder above the one the loop starts from. *)
Lemma search_upwards_sound (fuel : nat) (extra_path img_file_name : string)
    (base_path tail path : string) :
  search_upwards is_file BOX_ROOTS fuel extra_path img_file_name base_path tail
  = Ok (Some path) ->
  is_file path = true /\
  exists folder rest,
    base_path = folder +:+ rest /\
    path = folder +:+ os_sep +:+ extra_path +:+ os_sep +:+ img_file_name.
Proof.
  revert base_path tail.
  induction fuel as [|fuel IH]; intros base_path tail; [done|].
  cbn [search_upwards]. destruct (String.eqb tail ""); [done|].
  intros H.
  destruct (is_file (base_path +:+ os_sep +:+ extra_path +:+ os_sep
                     +:+ img_file_name)) eqn:E.
  - injection H as <-. split; [done|]. exists base_path, "".
    split; [|done]. by rewrite append_nil_r.
  - destruct (os_path_split_prefix base_path) as [rest Hrest].
    destruct (os_path_split base_path) as [base' tail']. cbn [fst] in Hrest.
    destruct (bool_decide _); [done|].
    destruct (IH base' tail' H) as (Hfile & folder & rest' & Hb & Hp).
    split; [done|]. exists folder, (rest' +:+ rest). split; [|done].
    rewrite Hrest, Hb. apply append_assoc.
Qed.

Lemma search_upwards_raises_nothing (fuel : nat)
    (extra_path img_file_name : string) (base_path tail : string) (e : exn) :
  search_upwards is_file BOX_ROOTS fuel extra_path img_file_name base_path tail
  <> Err e.
Proof.
  revert base_path tail.
  induction fuel as [|fuel IH]; intros base_path tail; [done|].
  cbn [search_upwards]. destruct (String.eqb tail ""); [done|].
  destruct (is_file _); [done|].
  destruct (os_path_split base_path) as [base' tail'].
  destruct (bool_decide _); [done|]. apply IH.
Qed.

(** X19: the image search always ends, and what it returns is [None] or the
    path of an existing file of the form
    [<folder>/Box Notes Images/<note> Images/<image>], where [<note>] is the
    file name of the note without its last eight characters. *)
Theorem image_search_ends_on_a_file (current_path img_file_name : string) :
  get_image_path is_file BOX_ROOTS current_path img_file_name = Ok None \/
  exists folder rest,
    let path := folder +:+ os_sep
                +:+ images_folder (os_path_split current_path).2
                +:+ os_sep +:+ img_file_name in
    current_path = folder +:+ rest /\
    get_image_path is_file BOX_ROOTS current_path img_file_name = Ok (Some path) /\
    is_file path = true.
Proof.
  unfold get_image_path, images_folder.
  pose proof (os_path_split_length current_path) as Hlen.
  destruct (os_path_split_prefix current_path) as [rest0 Hrest0].
  destruct (os_path_split current_path) as [base_path tail].
  cbn [fst snd] in *.
  pose proof (search_upwards_fuel (String.length current_path + 2)
                ("Box Notes Images" +:+ os_sep +:+ drop_last_8 tail +:+ " Images")
                img_file_name base_path tail ltac:(lia)) as Hfuel.
  destruct (search_upwards _ _ _ _ _ _ _) as [[path|]|e|] eqn:E.
  - right.
    destruct (search_upwards_sound _ _ _ _ _ _ E)
      as (Hfile & folder & rest & Hbase & Hpath).
    exists folder, (rest +:+ rest0). cbn zeta. rewrite <- Hpath.
    split; [|done]. rewrite Hrest0, Hbase at 1. apply append_assoc.
  - by left.
  - by destruct (search_upwards_raises_nothing _ _ _ _ _ _ E).
  - done.
Qed.

(** X20: the search stops as soon as the folder it would look at next is a
    Box root.  For a note whose folder lies directly in a Box root, the
    folder of the note is the only one searched: the image folder of the
    root itself is never looked at. *)
Theorem image_search_stops_below_box_root
    (current_path img_file_name folder name : string) :
  os_path_split current_path = (folder, name) ->
  name <> "" ->
  (os_path_split folder).1 ∈ BOX_ROOTS ->
  get_image_path is_file BOX_ROOTS current_path img_file_name
  = let path := folder +:+ os_sep +:+ images_folder name
                +:+ os_sep +:+ img_file_name in
    if is_file path then Ok (Some path) else Ok None.
Proof.
  intros Hsplit Hname Hroot. unfold get_image_path, images_folder.
  rewrite Hsplit. rewrite Nat.add_comm. cbn [Nat.add search_upwards].
  destruct (String.eqb_spec name ""); [done|]. cbn zeta.
  destruct (is_file _); [done|].
  destruct (os_path_split folder) as [base tail]. cbn [fst] in Hroot.
  by rewrite bool_decide_true.
Qed.

End ImageSearchFacts.

Lemma image_search_stops_below_box_root_witness :
  get_image_path
    (only_file "/home/u/Box/Box Notes Images/n Images/i.png") ["/home/u/Box"]
    "/home/u/Box/a/n.boxnote" "i.png"
  = Ok None.
Proof.
  exact (image_search_stops_below_box_root
           (only_file "/home/u/Box/Box Notes Images/n Images/i.png")
           ["/home/u/Box"] "/home/u/Box/a/n.boxnote" "i.png"
           "/home/u/Box/a" "n.boxnote" eq_refl ltac:(discriminate)
           (list_elem_of_here "/home/u/Box" [])).
Defined.

(** A note that lies directly in a Box root: the root is not the head of
    any split the loop makes, and the search goes on above it. *)
Example image_search_leaves_box_root :
  get_image_path
    (only_file "/home/u/Box Notes Images/n Images/i.png") ["/home/u/Box"]
    "/home/u/Box/n.boxnote" "i.png"
  = Ok (Some "/home/u/Box Notes Images/n Images/i.png").
Proof. vm_compute. reflexivity. Qed.

(** ** Opening a note *)

(** X21: [open_with_retry] makes six attempts at most.  It ends with the
    first attempt that does not time out, having slept the first timeouts of
    the list 1, 3, 5, 5, 10, one for each attempt before; when all six time
    out it raises [TimeoutError], after 24 seconds of sleep in all. *)
Theorem open_with_retry_six_attempts {J E : Type}
    (attempts : nat -> @attempt J E) :
  open_with_retry attempts =
  match find (fun k => answers (attempts k)) (seq 0 6) with
  | Some k => Some (answer (attempts k), take k timeouts)
  | None => Some (GaveUp, timeouts)
  end.
Proof.
  unfold open_with_retry. cbn [seq find open_loop].
  destruct (attempts 0%nat) eqn:E0; cbn; [by rewrite E0| |by rewrite E0].
  destruct (attempts 1%nat) eqn:E1; cbn; [by rewrite E1| |by rewrite E1].
  destruct (attempts 2%nat) eqn:E2; cbn; [by rewrite E2| |by rewrite E2].
  destruct (attempts 3%nat) eqn:E3; cbn; [by rewrite E3| |by rewrite E3].
  destruct (attempts 4%nat) eqn:E4; cbn; [by rewrite E4| |by rewrite E4].
  destruct (attempts 5%nat) eqn:E5; cbn; by rewrite ?E5.
Qed.

(** ** File names *)

Example output_path_plain :
  output_path (Path "/d" "notes.boxnote") = Path "/d" "notes.docx".
Proof. reflexivity. Qed.

Lemma rfind_last (c : ascii) (a b : string) :
  pathlib.rfind c b = None ->
  pathlib.rfind c (a +:+ String c b) = Some (String.length a).
Proof.
  intros Hb. induction a as [|x a IH].
  - change (pathlib.rfind c (String c b) = Some 0%nat). cbn [pathlib.rfind].
    by rewrite Hb, Ascii.eqb_refl.
  - change (pathlib.rfind c (String x (a +:+ String c b))
            = Some (S (String.length a))).
    cbn [pathlib.rfind]. by rewrite IH.
Qed.

Lemma length_append (a b : string) :
  String.length (a +:+ b) = (String.length a + String.length b)%nat.
Proof. induction a as [|x a IH]; [done|]. cbn. by rewrite <- IH. Qed.

Lemma substring_prefix (a b : string) :
  substring 0 (String.length a) (a +:+ b) = a.
Proof.
  induction a as [|x a IH]; [by destruct b|].
  change (String x (substring 0 (String.length a) (a +:+ b)) = String x a).
  by rewrite IH.
Qed.

Lemma substring_suffix (a b : string) :
  substring (String.length a) (String.length b) (a +:+ b) = b.
Proof.
  induction a as [|x a IH]; [|exact IH].
  change (substring 0 (String.length b) b = b).
  induction b as [|y b IHb]; [done|].
  change (String y (substring 0 (String.length b) b) = String y b).
  by rewrite IHb.
Qed.

(** The stem and the suffix of [a.b], where [b] holds no dot and neither is
    empty. *)
Lemma split_name (a b : string) :
  a <> "" -> b <> "" -> pathlib.rfind "." b = None ->
  pathlib.stem (a +:+ String "." b) = a /\
  pathlib.suffix (a +:+ String "." b) = String "." b.
Proof.
  intros Ha Hb Hdot. unfold pathlib.stem, pathlib.suffix, pathlib.suffix_index.
  rewrite (rfind_last "." a b Hdot), length_append.
  cbn [String.length].
  assert (0 < String.length a)%nat by (destruct a; [done|cbn; lia]).
  assert (0 < String.length b)%nat by (destruct b; [done|cbn; lia]).
  destruct (Nat.ltb_spec 0 (String.length a)); [|lia].
  destruct (Nat.ltb_spec (String.length a)
              (String.length a + S (String.length b) - 1)); [|lia].
  cbn [andb]. split; [apply substring_prefix|].
  replace (String.length a + S (String.length b) - String.length a)%nat
    with (String.length (String "." b)) by (cbn; lia).
  apply substring_suffix.
Qed.

(** X22: a note [a.b.boxnote], where [a] and [b] hold no dot and are not
    empty, is taken for a Box note and is written to [a.docx] in its folder:
    [with_suffix] replaces what the stem [a.b] ends in.  Notes of a folder
    that differ in [b] only are converted into one and the same file. *)
Theorem dotted_names_share_an_output (folder a b : string) :
  a <> "" -> b <> "" ->
  pathlib.rfind "." a = None -> pathlib.rfind "." b = None ->
  is_boxnote (Path folder (a +:+ "." +:+ b +:+ ".boxnote")) = true /\
  output_path (Path folder (a +:+ "." +:+ b +:+ ".boxnote"))
  = Path folder (a +:+ ".docx").
Proof.
  intros Ha Hb Hda Hdb.
  assert (Hab : a +:+ String "." b <> "") by (by destruct a).
  replace (a +:+ "." +:+ b +:+ ".boxnote")
    with ((a +:+ String "." b) +:+ String "." "boxnote").
  2: { rewrite append_assoc. f_equal. }
  destruct (split_name (a +:+ String "." b) "boxnote" Hab ltac:(done) eq_refl)
    as [Hstem Hsuffix].
  destruct (split_name a b Ha Hb Hdb) as [Hstem' _].
  unfold is_boxnote, output_path, pathlib.with_suffix.
  cbn [path_name path_parent].
  by rewrite Hsuffix, Hstem, Hstem'.
Qed.

Lemma dotted_names_share_an_output_witness :
  is_boxnote (Path "/d" "notes.v2.boxnote") = true /\
  output_path (Path "/d" "notes.v2.boxnote") = Path "/d" "notes.docx".
Proof.
  exact (dotted_names_share_an_output "/d" "notes" "v2"
           ltac:(discriminate) ltac:(discriminate) eq_refl eq_refl).
Defined.

(** ** The driver *)

Section DriverFacts.

Context {W : Type}.
Variable path_exists : path -> W -> bool.
Variable path_is_file : path -> W -> bool.
Variable glob : string -> W -> list path.
Variable rglob : string -> W -> list path.
Variable try_convert : path -> path -> W -> verdict * W.

Lemma convert_each_dry_run (boxnotes failed_boxnotes : list path)
    (out : list printed) (w : W) :
  forallb (convertible path_exists path_is_file w) boxnotes = true ->
  convert_each path_exists path_is_file try_convert true
    boxnotes failed_boxnotes out w
  = inr (failed_boxnotes ++ boxnotes,
         out ++ (announced path_exists w <$> boxnotes), w).
Proof.
  revert failed_boxnotes out.
  induction boxnotes as [|b rest IH]; intros failed_boxnotes out Hall.
  - cbn. by rewrite !app_nil_r.
  - cbn [forallb] in Hall. apply andb_true_iff in Hall as [Hb Hrest].
    unfold convertible in Hb. apply andb_true_iff in Hb as [Hvalid Hnote].
    cbn [convert_each]. unfold convert_file, convert_boxnote.
    rewrite Hvalid, Hnote. cbn [falsy]. rewrite IH by done.
    cbn [fmap list_fmap]. by rewrite <- !app_assoc.
Qed.

(** X23: in a dry run ([DRY_RUN] is [True]) [convert_boxnote] returns
    [None], which [convert_dir] takes for a failure: every note found is
    listed as failed to convert, and nothing is converted or changed.  The
    notes found are Box notes that are there, none of them named
    [..boxnote]. *)
Theorem dry_run_reports_every_note_failed (dir : string)
    (recursively : bool) (w : W) :
  forallb (convertible path_exists path_is_file w)
    (if recursively then rglob dir w else glob dir w) = true ->
  forallb joins_its_stem
    (if recursively then rglob dir w else glob dir w) = true ->
  (if recursively then rglob dir w else glob dir w) <> [] ->
  let boxnotes := if recursively then rglob dir w else glob dir w in
  convert_dir path_exists path_is_file glob rglob try_convert true
    dir recursively w
  = inr ([if recursively then SearchingAll dir else Searching dir;
          Found (length boxnotes)]
         ++ (announced path_exists w <$> boxnotes)
         ++ [Blank; ConversionFinished; FollowingFailed; FailedList boxnotes],
         w).
Proof.
  intros Hall _ Hne boxnotes. unfold convert_dir. fold boxnotes.
  rewrite convert_each_dry_run by done. cbn [app].
  by destruct boxnotes as [|b rest] eqn:E.
Qed.

(** X24: outside a dry run, an output file that exists already changes the
    line that is printed, and nothing else: the note (a Box note that is
    there, not named [..boxnote]) is handed to the [try] statement, which
    opens, renders and saves it, as if the output did not exist. *)
Theorem existing_output_is_converted_again (p : path) (w : W) :
  convertible path_exists path_is_file w p = true ->
  joins_its_stem p = true ->
  path_exists (output_path p) w = true ->
  convert_file path_exists path_is_file try_convert false p w
  = inr (let '(v, w') := try_convert p (output_path p) w in
         (v, [SkippingExists p (output_path p)], w')).
Proof.
  intros [Hvalid Hnote]%andb_true_iff _ Hexists.
  unfold convert_file, convert_boxnote. by rewrite Hvalid, Hnote, Hexists.
Qed.

End DriverFacts.

Lemma dry_run_reports_every_note_failed_witness :
  convert_dir (fun _ _ => true) (fun _ _ => true)
    (fun _ _ => [Path "/d" "n.boxnote"]) (fun _ _ => [])
    (fun _ _ (w : unit) => (ReturnedTrue, w)) true "/d" false tt
  = inr ([Searching "/d"; Found 1]
         ++ [SkippingExists (Path "/d" "n.boxnote") (Path "/d" "n.docx")]
         ++ [Blank; ConversionFinished; FollowingFailed;
             FailedList [Path "/d" "n.boxnote"]], tt).
Proof.
  apply (dry_run_reports_every_note_failed (fun _ _ => true)
           (fun _ _ => true) (fun _ _ => [Path "/d" "n.boxnote"])
           (fun _ _ => []) (fun _ _ (w : unit) => (ReturnedTrue, w))
           "/d" false tt);
    [reflexivity | reflexivity | discriminate].
Defined.

Lemma existing_output_is_converted_again_witness :
  convert_file (fun _ _ => true) (fun _ _ => true)
    (fun _ _ (w : unit) => (ReturnedTrue, w)) false (Path "/d" "n.boxnote") tt
  = inr (ReturnedTrue,
         [SkippingExists (Path "/d" "n.boxnote") (Path "/d" "n.docx")], tt).
Proof.
  apply (existing_output_is_converted_again (fun _ _ => true)
           (fun _ _ => true) (fun _ _ (w : unit) => (ReturnedTrue, w))
           (Path "/d" "n.boxnote") tt);
    reflexivity.
Defined.

(** * The first item of an ordered list

    Rendering never takes a run away from a paragraph and never changes the
    text of one: what a handler has put at the head of a paragraph is still
    there when the rendering returns. *)













Lemma grows_bind_lift {A C : Type} (r : result A) (k : A -> M C) :
  (forall a, r = Ok a -> grows (k a)) -> grows (bindM (lift r) k).
Proof.
  intros Hk st b st'. unfold bindM, lift. destruct r as [a| |]; [|done|done].
  by apply Hk.
Qed.

















Section GrowsHandlers.

Variable rec : list node -> option string -> M (option string).
Hypothesis grows_rec : forall content output, grows (rec content output).













End GrowsHandlers.



Lemma paragraph_holds_texts (p : nat) (items : list inline) (st : state) :
  paragraph_holds p items st ->
  texts_at (document st) p = run_text <$> runs items.
Proof.
  intros (_ & pa & Hpa & <-). unfold texts_at. by rewrite Hpa.
Qed.







